(** * Process supervision core of FAI-PEP: a shallow embedding

    Embedded sources:
    - [benchmarking/utils/subprocess_with_logger.py]: [processRun],
      [_processRun], [processWait], [_filterOutput], [_Popen], [_getOutput],
      [_kill];
    - [benchmarking/utils/watchdog.py]: [WatchDog.start], [_runWatchdog].

    The child process, the timer thread and the threads that request a kill
    are the environment: one attempt is driven by a finite [Script] that lists
    what the environment does while the main thread reads and waits.  A
    script is finite, so every loop of the model ends: a child that never
    exits and is never killed has no script.  Exceptions are the instances of
    [Exception], which is what the handlers of the source name.

    The file has two parts: the embedding with the notions and sample runs
    the statements use, then the properties, one section per claim.

    Each part ends with what the callers and the neighbours of the core add:
    - the rest of the behaviour of [processRun], [processWait],
      [_filterOutput], [_getOutput] and [WatchDog.start];
    - [benchmarking/platforms/android/android_platform.py]:
      [_setLogCatSize], [waitForDevice], [rebootDevice], [killProgram],
      [runBinaryBenchmark];
    - [ailab/benchmark/visualize_utils.py]: [construct_single_q],
      [construct_q];
    - [benchmarking/utils/usb_controller.py]: [connect], [disconnect];
    - [benchmarking/utils/build_program.py]: [buildUsingBuck],
      [_setUpTempDirectory], [_isBuildSuccessful];
    - [benchmarking/frameworks/glow/glow.py]: [_addOrAppendResult],
      [_maybeAddNetRunnerStats]. *)

From Stdlib Require Import ZArith Ascii String List Bool Lia.
From stdpp Require Import base option list strings gmap.

Import ListNotations.
Local Open Scope string_scope.
Local Open Scope list_scope.
Local Open Scope Z_scope.

(** ** Python strings *)

Module PyStr.

Definition newline : string := String (ascii_of_nat 10) EmptyString.

(** [str.isspace] on the ASCII range: TAB..CR, FS..US and the blank. *)
Definition isspace (c : ascii) : bool :=
  let n := nat_of_ascii c in
  ((9 <=? n)%nat && (n <=? 13)%nat) || ((28 <=? n)%nat && (n <=? 32)%nat).

(** [s.rstrip()] *)
Fixpoint rstrip (s : string) : string :=
  match s with
  | EmptyString => EmptyString
  | String c r =>
      match rstrip r with
      | EmptyString => if isspace c then EmptyString else String c EmptyString
      | r' => String c r'
      end
  end.

(** [sub in s] *)
Fixpoint contains (sub s : string) : bool :=
  String.prefix sub s
  || match s with
     | EmptyString => false
     | String _ r => contains sub r
     end.

(** [sep.join(l)] *)
Definition join (sep : string) (l : list string) : string := String.concat sep l.

(** Truth value of a string: [if not line] *)
Definition truthy (s : string) : bool :=
  match s with EmptyString => false | _ => true end.

End PyStr.

(** ** The run registry *)

Definition RunKey := string.

Record Registry := mkRegistry {
  run_statuses : gmap string Z;
  run_timeouts : gmap string bool;
  run_killed : gmap string bool
}.

Definition empty_registry : Registry := mkRegistry ∅ ∅ ∅.

(** Modelled from the spec: the registry helpers [setRunStatus],
    [getRunStatus], [setRunTimeout], [getRunTimeout] and [getRunKilled] are
    imported from [utils/utilities.py], which is missing here.  The spec's
    RunRegistry holds, per run-key (a string, default empty), a status code
    ([unset] reads as success 0), a timeout flag and a kill-request flag; a
    call that passes no key addresses the default key.  [overwrite] replaces
    the status; without it a recorded failure is kept (the caller's comment:
    "reset run status overwritting error from prior run"), written here as
    the bitwise or of the old and the new status.  The theorems below use
    only that a non-overwriting write of 0 over 0 leaves 0 and that a
    non-overwriting write of 1 leaves a nonzero status. *)
Definition getRunStatus (key : RunKey) (r : Registry) : Z :=
  default 0 (run_statuses r !! key).

(** Modelled from the spec: [setRunStatus(status, overwrite, key)]
    of the missing [utils/utilities.py], as described above. *)
Definition setRunStatus (status : Z) (overwrite : bool) (key : RunKey)
    (r : Registry) : Registry :=
  let new := if overwrite then status else Z.lor (getRunStatus key r) status in
  mkRegistry (<[key := new]> (run_statuses r)) (run_timeouts r) (run_killed r).

(** Modelled from the spec: [getRunTimeout(key)] of the missing
    [utils/utilities.py]; an unset flag reads false. *)
Definition getRunTimeout (key : RunKey) (r : Registry) : bool :=
  default false (run_timeouts r !! key).

(** Modelled from the spec: [setRunTimeout(timedOut, key)] of the
    missing [utils/utilities.py]. *)
Definition setRunTimeout (timedOut : bool) (key : RunKey) (r : Registry) : Registry :=
  mkRegistry (run_statuses r) (<[key := timedOut]> (run_timeouts r)) (run_killed r).

(** Modelled from the spec: [getRunKilled(key)] of the missing
    [utils/utilities.py]; an unset flag reads false. *)
Definition getRunKilled (key : RunKey) (r : Registry) : bool :=
  default false (run_killed r !! key).

(** Modelled from the spec: the write behind a kill request, which only
    threads outside the supervisor perform. *)
Definition setRunKilled (killed : bool) (key : RunKey) (r : Registry) : Registry :=
  mkRegistry (run_statuses r) (run_timeouts r) (<[key := killed]> (run_killed r)).

(** The key a call addresses when it passes none. *)
Definition default_key : RunKey := EmptyString.

(** ** Exceptions, results, traces *)

(** Instances of Python's [Exception], split the way the handlers split
    them: [subprocess.CalledProcessError] carries the decoded output, any
    other exception is known by the text of its class
    ([f"{sys.exc_info()[0]}"]). *)
Inductive Exn :=
| CalledProcessError (output : string)
| OtherException (cls : string).

Definition UnboundLocalError : Exn := OtherException "<class 'UnboundLocalError'>".
Definition IndexError : Exn := OtherException "<class 'IndexError'>".
Definition ValueError : Exn := OtherException "<class 'ValueError'>".
Definition KeyError_process_key : Exn := OtherException "<class 'KeyError'>".

(** First component of a returned pair: captured lines, or the
    [(ps, t)] handle of an [async] run. *)
Inductive Output :=
| Lines (lines : list string)
| Handle (timer_armed : bool).

Definition Result : Type := Output * option string.

(** What the main thread and the timer thread do to the outside, in order:
    log records and operations on the child process. *)
Inductive Action :=
| LogSleeping (d : Z)
| Sleep (d : Z)
| LogRunning (cmd : string)
| LogSucceeded (cmd : string)
| LogFailed (cmd : string)
| LogWillRetry (left : Z) (cmd : string)
| LogCommandFailed (err : string)
| LogUnknownException (cls : string)
| LogKilledAtUserRequest
| LogExitStatus (status : Z)
| LogProgramOutput (text : string)
| LogTimedOut (cmd : string)
| Popen (cmd : list string)
| StartTimer (d : Z)
| CancelTimer
| CloseStdout
| PsWait
| Terminate
| KillPg.

(** Ghost record of one attempt, as [processRun] sees it right after
    [_processRun] returns: the returned pair and the two registry reads. *)
Record Attempt := mkAttempt {
  att_ret : Result;
  att_status : Z;
  att_timedout : bool
}.

(** [timer] is the [threading.Timer] that was armed last, while it is
    pending, with the arguments [_kill] was given ([cmd] joined,
    [processKey]); [None] when that timer has fired or was cancelled, or when
    none was armed.  It is the timer object [t] that [_processRun] hands to
    [processWait].  A timer armed before it and still pending (the timer of
    an [async] handle nobody waited for, or of a wait that raised before
    [t.cancel()]) is not kept here: it belongs to the other threads, see
    [OtherTimerExpires]. *)
Record World := mkWorld {
  registry : Registry;
  timer : option (string * RunKey);
  trace : list Action;
  history : list Attempt
}.

Definition init_world : World := mkWorld empty_registry None [] [].

(** ** A state and exception monad *)

Definition M (A : Type) : Type := World -> (Exn + A) * World.

Definition ret {A} (a : A) : M A := fun w => (inr a, w).

Definition bind {A B} (m : M A) (k : A -> M B) : M B :=
  fun w => match m w with
           | (inl e, w') => (inl e, w')
           | (inr a, w') => k a w'
           end.

Definition raise {A} (e : Exn) : M A := fun w => (inl e, w).

(** [try: m except ... as e: h e] for handlers that cover every [Exn]. *)
Definition try_except {A} (m : M A) (h : Exn -> M A) : M A :=
  fun w => match m w with
           | (inl e, w') => h e w'
           | (inr a, w') => (inr a, w')
           end.

Definition emit (a : Action) : M unit :=
  fun w => (inr tt, mkWorld (registry w) (timer w) (trace w ++ [a]) (history w)).

Definition gets {A} (f : Registry -> A) : M A :=
  fun w => (inr (f (registry w)), w).

Definition modify (f : Registry -> Registry) : M unit :=
  fun w => (inr tt, mkWorld (f (registry w)) (timer w) (trace w) (history w)).

Definition set_timer (t : option (string * RunKey)) : M unit :=
  fun w => (inr tt, mkWorld (registry w) t (trace w) (history w)).

Definition record (a : Attempt) : M unit :=
  fun w => (inr tt, mkWorld (registry w) (timer w) (trace w) (history w ++ [a])).

Definition when (b : bool) (m : M unit) : M unit := if b then m else ret tt.

Declare Scope sup_scope.
Delimit Scope sup_scope with sup.
Notation "'let!' x ':=' m 'in' k" := (bind m (fun x => k))
  (at level 10, x pattern, m at level 100, k at level 200) : sup_scope.
Notation "m '>>' k" := (bind m (fun _ => k))
  (at level 100, k at level 200, right associativity) : sup_scope.
Local Open Scope sup_scope.

(** ** [_filterOutput] *)

(** [del l[i]]: a negative index counts from the end, an index out of range
    raises [IndexError]. *)
Definition py_del (i : Z) (l : list string) : option (list string) :=
  let n := Z.of_nat (length l) in
  let j := if i <? 0 then i + n else i in
  if (0 <=? j) && (j <? n) then Some (delete (Z.to_nat j) l) else None.

(** The inner loop [for match in match_list: if match in line: ...; break]
    runs its body at most once, exactly when some entry occurs in [line]. *)
Definition line_matches (match_list : list string) (line : string) : bool :=
  existsb (fun m => PyStr.contains m line) match_list.

(** The outer loop walks the reversed copy [output[::-1]] with its index [i]
    while [output] itself is the list being shortened. *)
Fixpoint _filterOutput_loop (match_list : list string) (length : Z) (i : Z)
    (reversed : list string) (output : list string) : option (list string) :=
  match reversed with
  | [] => Some output
  | line :: rest =>
      if line_matches match_list line then
        match py_del (length - i - 1) output with
        | Some output' => _filterOutput_loop match_list length (i + 1) rest output'
        | None => None
        end
      else _filterOutput_loop match_list length (i + 1) rest output
  end.

Definition _filterOutput (output : list string) (match_list : list string)
    : option (list string) :=
  _filterOutput_loop match_list (Z.of_nat (length output)) 0 (rev output) output.

(** The spec's words for the filter: drop lines from the end while they
    contain a listed substring, stop at the first line that does not. *)
Fixpoint strip_trailing_matches_rev (match_list : list string) (reversed : list string)
    : list string :=
  match reversed with
  | [] => []
  | line :: rest =>
      if line_matches match_list line
      then strip_trailing_matches_rev match_list rest
      else line :: rest
  end.

Definition strip_trailing_matches (output match_list : list string) : list string :=
  rev (strip_trailing_matches_rev match_list (rev output)).

(** What the code computes: every line without a listed substring. *)
Definition keep_unmatched (output match_list : list string) : list string :=
  List.filter (fun line => negb (line_matches match_list line)) output.

(** ** Configuration and environment *)

(** [pattern.match(nline)] of a compiled pattern, as a test on the line. *)
Definition Pattern : Type := string -> bool.

(** The [patterns] keyword holds a list or a single pattern. *)
Inductive PatternsArg :=
| OnePattern (p : Pattern)
| PatternList (ps : list Pattern).

(** The keyword arguments the supervisor reads.  [None] is an absent key. *)
Record Config := mkConfig {
  kw_process_key : option RunKey;
  kw_retry : option Z;
  kw_retry_sleep : option Z;
  kw_silent : bool;
  kw_async : bool;
  kw_non_blocking : bool;
  kw_timeout : option Z;
  kw_log_output : bool;
  kw_ignore_status : bool;
  kw_patterns : PatternsArg;
  kw_filter : option (list string)
}.

Definition default_config : Config :=
  mkConfig None None None false false false None false false (PatternList []) None.

(** Truth value of an optional duration: absent, [None] and 0 are false. *)
Definition truthy_duration (d : option Z) : bool :=
  match d with Some z => negb (z =? 0) | None => false end.

(** What other threads do between two steps of the main thread: a kill
    request for a run key; the expiry of the timer in the world's slot; the
    expiry of any other pending timer, which runs [_kill] with the command
    and the key that timer was armed with. *)
Inductive EnvEvent :=
| RequestKill (key : RunKey)
| TimerExpires
| OtherTimerExpires (cmd : string) (processKey : RunKey).

Inductive ReadEvent :=
| REnv (e : EnvEvent)
| PollEmpty
| ReadLine (line : string)
| ReadRaises (x : Exn).

Inductive WaitEvent :=
| WEnv (e : EnvEvent)
| WaitTimeoutExpired
| WaitRaises (x : Exn).

(** One attempt as the environment plays it: whether [subprocess.Popen]
    raises, what each turn of the read loop meets until end of file (the end
    of [out_events], or an empty [readline]), what each [ps.wait(15.0)] meets
    until the child exits with [exit_status]. *)
Record Script := mkScript {
  spawn_raises : option Exn;
  out_events : list ReadEvent;
  wait_events : list WaitEvent;
  exit_status : Z
}.

(** [_kill(p, cmd, processKey)], run by the timer thread. *)
Definition _kill (cmd : string) (processKey : RunKey) : M unit :=
  emit KillPg >>
  emit (LogTimedOut cmd) >>
  modify (setRunStatus 1 false processKey) >>
  modify (setRunTimeout true default_key).

Definition env_step (e : EnvEvent) : M unit :=
  match e with
  | RequestKill key => modify (setRunKilled true key)
  | TimerExpires =>
      fun w => match timer w with
               | Some (cmd, processKey) => (set_timer None >> _kill cmd processKey) w
               | None => (inr tt, w)
               end
  | OtherTimerExpires cmd processKey => _kill cmd processKey
  end.

(** ** [_getOutput] *)

Definition pattern_list (patterns : PatternsArg) : list Pattern :=
  match patterns with
  | OnePattern p => [p]
  | PatternList ps => ps
  end.

Definition any_match (patterns : list Pattern) (nline : string) : bool :=
  existsb (fun pattern => pattern nline) patterns.

(** The loop [while not getRunKilled(process_key)].  [readline] yields text
    ([universal_newlines=True]), whose [decode] attribute is missing, so the
    [try] around the decoding leaves [nline] as it is. *)
Fixpoint _getOutput_loop (patterns : list Pattern) (process_key : RunKey)
    (events : list ReadEvent) (lines : list string) : M (list string * bool) :=
  match events with
  | REnv e :: rest =>
      env_step e >> _getOutput_loop patterns process_key rest lines
  | PollEmpty :: rest =>
      let! killed := gets (getRunKilled process_key) in
      if killed then ret (lines, false)
      else _getOutput_loop patterns process_key rest lines
  | ReadLine line :: rest =>
      let! killed := gets (getRunKilled process_key) in
      if killed then ret (lines, false)
      else if negb (PyStr.truthy line) then ret (lines, false)
      else
        let nline := PyStr.rstrip line in
        let lines := lines ++ [nline] in
        if any_match patterns nline then ret (lines, true)
        else _getOutput_loop patterns process_key rest lines
  | ReadRaises x :: _ =>
      let! killed := gets (getRunKilled process_key) in
      if killed then ret (lines, false) else raise x
  | [] => ret (lines, false)
  end.

Definition _getOutput (sc : Script) (patterns : PatternsArg) (process_key : RunKey)
    : M (list string * bool) :=
  _getOutput_loop (pattern_list patterns) process_key (out_events sc) [].

(** ** [processWait] *)

(** The loop [while not getRunKilled(): try: status = ps.wait(timeout=15.0);
    break; except subprocess.TimeoutExpired: pass].  [None] is [status] left
    unassigned. *)
Fixpoint wait_loop (exit : Z) (events : list WaitEvent) : M (option Z) :=
  match events with
  | WEnv e :: rest => env_step e >> wait_loop exit rest
  | WaitTimeoutExpired :: rest =>
      let! killed := gets (getRunKilled default_key) in
      if killed then ret None
      else emit PsWait >> wait_loop exit rest
  | WaitRaises x :: _ =>
      let! killed := gets (getRunKilled default_key) in
      if killed then ret None
      else emit PsWait >> raise x
  | [] =>
      let! killed := gets (getRunKilled default_key) in
      if killed then ret None
      else emit PsWait >> ret (Some exit)
  end.

(** [if "filter" in kwargs: output = _filterOutput(output, kwargs["filter"])] *)
Definition apply_filter (cfg : Config) (output : list string) : M (list string) :=
  match kw_filter cfg with
  | Some match_list =>
      match _filterOutput output match_list with
      | Some output' => ret output'
      | None => raise IndexError
      end
  | None => ret output
  end.

Definition program_output (output : list string) : Action :=
  LogProgramOutput (PyStr.join PyStr.newline output).

Definition key_of (cfg : Config) : RunKey := default default_key (kw_process_key cfg).

(** Lines 100-117 of [processWait]: after a match the child is terminated
    and [status] is 0; otherwise wait for the exit or for a kill request, and
    a kill request seen after the loop terminates the child with [status] 0. *)
Definition settle (matched : bool) (sc : Script) : M (option Z) :=
  if matched then emit Terminate >> ret (Some 0)
  else
    let! status := wait_loop (exit_status sc) (wait_events sc) in
    let! killed := gets (getRunKilled default_key) in
    if killed : bool
    then emit LogKilledAtUserRequest >> emit Terminate >> ret (Some 0)
    else ret status.

(** Reading the variable [status]. *)
Definition deref (status : option Z) : M Z :=
  match status with
  | Some s => ret s
  | None => raise UnboundLocalError
  end.

(** Lines 120-140: the exit status and the program output go to the log when
    [log_output] is set or the status is nonzero; [output] is rebound to the
    filtered list on the way. *)
Definition report (cfg : Config) (status : Z) (output : list string)
    : M (list string) :=
  let process_key := key_of cfg in
  if kw_log_output cfg then
    when (negb (status =? 0))
      (emit (LogExitStatus status) >> modify (setRunStatus 1 false process_key)) >>
    let! output := apply_filter cfg output in
    emit (program_output output) >> ret output
  else if negb (status =? 0) then
    emit (LogExitStatus status) >>
    modify (setRunStatus 1 false process_key) >>
    let! output := apply_filter cfg output in
    emit (program_output output) >> ret output
  else ret output.

(** Lines 141-146. *)
Definition conclude (cfg : Config) (status : Z) (output : list string) : M Result :=
  let process_key := key_of cfg in
  if (status =? 0) || kw_ignore_status cfg then
    modify (setRunStatus 0 false process_key) >> ret (Lines output, None)
  else
    modify (setRunStatus 1 false process_key) >>
    ret (Lines [], Some (PyStr.join PyStr.newline output)).

(** The [try] block of [processWait((ps, t), **kwargs)]; [t] tells whether
    a timer object came with the process. *)
Definition processWait_try (t : bool) (cfg : Config) (sc : Script) : M Result :=
  let! (output, matched) := _getOutput sc (kw_patterns cfg) (key_of cfg) in
  emit CloseStdout >>
  let! status := settle matched sc in
  when t (set_timer None >> emit CancelTimer) >>
  let! status := deref status in
  let! output := report cfg status output in
  conclude cfg status output.

Definition processWait_except (e : Exn) : M Result :=
  match e with
  | CalledProcessError err_output =>
      emit (LogCommandFailed err_output) >> ret (Lines [], Some err_output)
  | OtherException cls =>
      emit (LogUnknownException cls) >> ret (Lines [], Some cls)
  end.

Definition processWait (t : bool) (cfg : Config) (sc : Script) : M Result :=
  try_except (processWait_try t cfg sc) processWait_except.

(** ** [_Popen], [_processRun], [processRun] *)

(** [kwargs["process_key"]]: an absent key raises [KeyError]. *)
Definition kwargs_process_key (cfg : Config) : M RunKey :=
  match kw_process_key cfg with
  | Some key => ret key
  | None => raise KeyError_process_key
  end.

(** [time.sleep(secs)]: a negative length raises [ValueError]. *)
Definition time_sleep (secs : Z) : M unit :=
  if secs <? 0 then raise ValueError else emit (Sleep secs).

(** The allow-listed [env] only reaches the operating system. *)
Definition _Popen (cmd : list string) (sc : Script) : M unit :=
  match spawn_raises sc with
  | Some x => raise x
  | None => emit (Popen cmd)
  end.

Definition _processRun_try (cmd : list string) (cfg : Config) (sc : Script) : M Result :=
  let run_async := kw_async cfg in
  let non_blocking := kw_non_blocking cfg in
  if non_blocking then _Popen cmd sc >> ret (Lines [], None)
  else
    let timeout := kw_timeout cfg in
    _Popen cmd sc >>
    let! t :=
      (if truthy_duration timeout then
         let! process_key := kwargs_process_key cfg in
         set_timer (Some (PyStr.join " " cmd, process_key)) >>
         emit (StartTimer (default 0 timeout)) >> ret true
       else ret false) in
    if run_async then ret (Handle t, None) else processWait t cfg sc.

Definition _processRun_except (cmd : list string) (cfg : Config) (e : Exn) : M Result :=
  let! err_output :=
    (match e with
     | CalledProcessError err_output =>
         emit (LogCommandFailed err_output) >> ret err_output
     | OtherException cls =>
         emit (LogUnknownException cls) >> ret cls
     end) in
  let! process_key := kwargs_process_key cfg in
  modify (setRunStatus 1 false process_key) >>
  ret (Lines [], Some err_output).

(** The handlers fall through to line 87, which is outside the [try]: what
    it raises reaches the caller. *)
Definition _processRun (cmd : list string) (cfg : Config) (sc : Script) : M Result :=
  when (negb (kw_silent cfg)) (emit (LogRunning (PyStr.join " " cmd))) >>
  try_except (_processRun_try cmd cfg sc) (_processRun_except cmd cfg).

(** The loop [while retryCount > 0] with [n = Z.to_nat retryCount] turns
    left; [i] counts the attempts made, the i-th attempt meets [scripts i];
    [last] is the variable [ret], [None] while unassigned.  The loop runs
    inside [processRun], after [process_key] was given its default, so
    [kwargs["process_key"]] is [key_of cfg] here. *)
Fixpoint retry_loop (cmd : list string) (cfg : Config) (scripts : nat -> Script)
    (n : nat) (i : nat) (last : option Result) : M (option Result) :=
  match n with
  | O => ret last
  | S n' =>
      let key := key_of cfg in
      modify (setRunStatus 0 true key) >>
      when (truthy_duration (kw_retry_sleep cfg))
        (emit (LogSleeping (default 0 (kw_retry_sleep cfg))) >>
         time_sleep (default 0 (kw_retry_sleep cfg))) >>
      let! r := _processRun cmd cfg (scripts i) in
      let! status := gets (getRunStatus key) in
      let! timedout := gets (getRunTimeout default_key) in
      record (mkAttempt r status timedout) >>
      if status =? 0 then
        when (negb (kw_silent cfg)) (emit (LogSucceeded (PyStr.join " " cmd))) >>
        ret (Some r)
      else if timedout : bool then
        emit (LogFailed (PyStr.join " " cmd)) >> ret (Some r)
      else
        emit (LogWillRetry (Z.of_nat n') (PyStr.join " " cmd)) >>
        retry_loop cmd cfg scripts n' (S i) (Some r)
  end.

Definition with_process_key (cfg : Config) : Config :=
  mkConfig (Some (key_of cfg)) (kw_retry cfg) (kw_retry_sleep cfg) (kw_silent cfg)
    (kw_async cfg) (kw_non_blocking cfg) (kw_timeout cfg) (kw_log_output cfg)
    (kw_ignore_status cfg) (kw_patterns cfg) (kw_filter cfg).

Definition processRun (cmd : list string) (cfg : Config) (scripts : nat -> Script)
    : M Result :=
  let cfg := with_process_key cfg in
  let retryCount := default 3 (kw_retry cfg) in
  let! last := retry_loop cmd cfg scripts (Z.to_nat retryCount) 0 None in
  match last with
  | Some r => ret r
  | None => raise UnboundLocalError
  end.

(** Number of attempts a call made: the growth of the ghost history. *)
Definition attempts (before after : World) : nat :=
  (length (history after) - length (history before))%nat.

(** ** [WatchDog] *)

(** What the poller thread does, in order. *)
Inductive Event :=
| Condition (triggered : bool)
| ActionCall
| SleepDelay.

(** The fields of a [WatchDog]; [condition] and [action] belong to the
    environment and show in the events. *)
Record WatchDog (A R : Type) := mkWatchDog {
  main : A -> R;
  delay : Z;
  once : bool
}.

Arguments main {A R} _ _.
Arguments delay {A R} _.
Arguments once {A R} _.

(** [_runWatchdog].  [self.running] is true from before the thread starts
    until [main] has returned, so the turns of [while self.running] that
    find it true come first; [polls] lists what [self.condition()] returns
    in those turns, and at the end of [polls] the loop reads [running] as
    false. *)
Fixpoint _runWatchdog (once : bool) (polls : list bool) : list Event :=
  match polls with
  | [] => []
  | triggered :: rest =>
      Condition triggered ::
      (if triggered then
         ActionCall :: (if once then [] else SleepDelay :: _runWatchdog once rest)
       else SleepDelay :: _runWatchdog once rest)
  end.

(** [start] with arguments [args]: the value of [main] on them, with what
    the poller did until it was joined. *)
Definition start {A R} (wd : WatchDog A R) (args : A) (polls : list bool)
    : R * list Event :=
  let events := _runWatchdog (once wd) polls in
  let ret := main wd args in
  (ret, events).

(** The polls on a clock, for a positive [delay]: the steps of the poller
    take no time and [main] returns at time [duration], so the poller finds
    [self.running] true and reads the condition at the times 0, [delay],
    2 * [delay], ... that come before [duration]. *)
Definition poll_times (delay duration : Z) : list Z :=
  map (fun i => Z.of_nat i * delay)
    (seq 0 (Z.to_nat ((duration + delay - 1) / delay))).

Definition polls_on_clock (condition : Z -> bool) (delay duration : Z) : list bool :=
  map condition (poll_times delay duration).

(** Calls of [self.action()] among the events. *)
Definition is_action (e : Event) : bool :=
  match e with ActionCall => true | _ => false end.

Definition action_calls (events : list Event) : nat :=
  length (List.filter is_action events).

(** The turns of a poller that never sees the condition true. *)
Definition idle_turns (n : nat) : list Event :=
  concat (replicate n [Condition false; SleepDelay]).

(** ** Notions the statements use *)

(** [m] returns normally from every world. *)
Definition total {A} (m : M A) : Prop :=
  forall w, exists a w', m w = (inr a, w').

(** Every run of [m] relates the world before to the world after. *)
Definition preserves {A} (R : World -> World -> Prop) (m : M A) : Prop :=
  forall w, R w (snd (m w)).

(** The events of a script that a set of allowed moves covers. *)
Definition read_allowed (allowed : EnvEvent -> bool) (ev : ReadEvent) : bool :=
  match ev with REnv e => allowed e | _ => true end.

Definition wait_allowed (allowed : EnvEvent -> bool) (ev : WaitEvent) : bool :=
  match ev with WEnv e => allowed e | _ => true end.

Definition script_allowed (allowed : EnvEvent -> bool) (sc : Script) : bool :=
  forallb (read_allowed allowed) (out_events sc)
  && forallb (wait_allowed allowed) (wait_events sc).

(** The ghost history is as it was. *)
Definition same_history (w w' : World) : Prop := history w' = history w.

(** Every move of the environment. *)
Definition any_event (e : EnvEvent) : bool := true.

(** The configuration carries its run key, as it does inside
    [processRun]. *)
Definition keyed (cfg : Config) : Prop := kw_process_key cfg = Some (key_of cfg).

(** [time.sleep(retry_sleep)] does not raise. *)
Definition sleep_ok (cfg : Config) : Prop := 0 <= default 0 (kw_retry_sleep cfg).

(** What a turn of the loop does before it calls [_processRun]: the status
    of the run key is reset, the optional sleep is taken. *)
Definition open_attempt (cfg : Config) : M unit :=
  modify (setRunStatus 0 true (key_of cfg)) >>
  when (truthy_duration (kw_retry_sleep cfg))
    (emit (LogSleeping (default 0 (kw_retry_sleep cfg))) >>
     time_sleep (default 0 (kw_retry_sleep cfg))).

(** The world [open_attempt] leaves: the one [_processRun] starts from in a
    turn of the loop when the sleep does not raise. *)
Definition before_attempt (cfg : Config) (w : World) : World :=
  snd (open_attempt cfg w).

(** The ghost record a turn appends. *)
Definition observe (cfg : Config) (r : Result) (w : World) : Attempt :=
  mkAttempt r (getRunStatus (key_of cfg) (registry w))
    (getRunTimeout default_key (registry w)).

(** The world with one more ghost record. *)
Definition recorded (a : Attempt) (w : World) : World :=
  mkWorld (registry w) (timer w) (trace w) (history w ++ [a]).

(** The world with one more action in its trace. *)
Definition logged (x : Action) (w : World) : World :=
  mkWorld (registry w) (timer w) (trace w ++ [x]) (history w).

(** The variable [ret] after the attempts [new], [prev] before them. *)
Definition last_ret (prev : option Result) (new : list Attempt) : option Result :=
  match last new with
  | Some a => Some (att_ret a)
  | None => prev
  end.

(** An attempt that lets the loop go on: failure, and no timeout seen. *)
Definition retried (a : Attempt) : Prop :=
  att_status a <> 0 /\ att_timedout a = false.

(** An attempt after which the loop stops whatever [retryCount] is. *)
Definition final (a : Attempt) : Prop :=
  att_status a = 0 \/ att_timedout a = true.

(** The timeout table and the kill table are as they were. *)
Definition same_flags (w w' : World) : Prop :=
  run_timeouts (registry w') = run_timeouts (registry w)
  /\ run_killed (registry w') = run_killed (registry w).

(** No move of the environment. *)
Definition no_event (e : EnvEvent) : bool := false.

(** The two flag tables are as they were, and so is the status of every run
    key but [key]. *)
Definition same_but_status (key : RunKey) (w w' : World) : Prop :=
  same_flags w w'
  /\ forall k, k <> key -> getRunStatus k (registry w') = getRunStatus k (registry w).

(** Flags that are set stay set. *)
Definition flags_kept (w w' : World) : Prop :=
  (forall k, getRunTimeout k (registry w) = true -> getRunTimeout k (registry w') = true)
  /\ (forall k, getRunKilled k (registry w) = true -> getRunKilled k (registry w') = true).

(** The list [output] is bound to after the filter, when one is given. *)
Definition filtered (cfg : Config) (output : list string) : list string :=
  match kw_filter cfg with
  | Some match_list => keep_unmatched output match_list
  | None => output
  end.

(** The lines [processWait] hands back on success: the filter reaches them
    on the two paths that log the program output. *)
Definition returned (cfg : Config) (status : Z) (output : list string) : list string :=
  if kw_log_output cfg || negb (status =? 0) then filtered cfg output else output.

(** The lines a stretch of read events contributes. *)
Definition lines_of (events : list ReadEvent) : list string :=
  flat_map (fun ev => match ev with
                      | ReadLine line => [PyStr.rstrip line]
                      | _ => []
                      end) events.

(** A read event that lets the loop go on: nothing to read yet, a line that
    no pattern matches, or a move of another thread that is not a kill
    request for this run. *)
Definition passes (patterns : list Pattern) (process_key : RunKey) (ev : ReadEvent)
    : bool :=
  match ev with
  | REnv (RequestKill k) => negb (String.eqb k process_key)
  | REnv TimerExpires => true
  | REnv (OtherTimerExpires _ _) => true
  | PollEmpty => true
  | ReadLine line => PyStr.truthy line && negb (any_match patterns (PyStr.rstrip line))
  | ReadRaises _ => false
  end.

(** A turn of the wait loop that a kill request can take without the loop
    seeing it: no exit yet, or a kill request for a key other than the
    default key. *)
Definition unseen_by_wait (ev : WaitEvent) : bool :=
  match ev with
  | WaitTimeoutExpired => true
  | WEnv (RequestKill k) => negb (String.eqb k default_key)
  | _ => false
  end.

(** The status table is as it was. *)
Definition same_statuses (w w' : World) : Prop :=
  run_statuses (registry w') = run_statuses (registry w).

(** The moves of other threads that write no status: all but the timer. *)
Definition timer_quiet (e : EnvEvent) : bool :=
  match e with
  | TimerExpires => false
  | OtherTimerExpires _ _ => false
  | RequestKill _ => true
  end.

(** What the handlers report for an exception. *)
Definition exn_text (e : Exn) : string :=
  match e with
  | CalledProcessError err_output => err_output
  | OtherException cls => cls
  end.

(** The log record the handlers write for an exception. *)
Definition exn_log (e : Exn) : Action :=
  match e with
  | CalledProcessError err_output => LogCommandFailed err_output
  | OtherException cls => LogUnknownException cls
  end.

(** What [_processRun] does before it calls [processWait]: the log record,
    the spawn, the timer. *)
Definition spawn_prefix (cmd : list string) (cfg : Config) : M bool :=
  when (negb (kw_silent cfg)) (emit (LogRunning (PyStr.join " " cmd))) >>
  emit (Popen cmd) >>
  if truthy_duration (kw_timeout cfg) then
    let! process_key := kwargs_process_key cfg in
    set_timer (Some (PyStr.join " " cmd, process_key)) >>
    emit (StartTimer (default 0 (kw_timeout cfg))) >> ret true
  else ret false.

(** The world in which an attempt enters [processWait], [w] being the world
    at the start of its turn of the loop. *)
Definition at_wait (cmd : list string) (cfg : Config) (w : World) : World :=
  snd (spawn_prefix cmd cfg (before_attempt cfg w)).

(** ** Sample runs *)

(** [subprocess.Popen] raises [FileNotFoundError]. *)
Definition sc_no_such_file : Script :=
  mkScript (Some (OtherException "<class 'FileNotFoundError'>")) [] [] 0.

(** A child that prints one line and is then killed by the timer. *)
Definition sc_timeout : Script :=
  mkScript None [ReadLine "working"; REnv TimerExpires] [] (-9).

(** Five retries, a timeout of 30. *)
Definition cfg_timeout : Config :=
  mkConfig None (Some 5) None false false false (Some 30) false false
    (PatternList []) None.

(** The attempt [sc_timeout] leaves in the history. *)
Definition att_timeout : Attempt := mkAttempt (Lines [], Some "working") 1 true.

(** A child that prints one line and exits with status 1. *)
Definition sc_exit1 : Script := mkScript None [ReadLine "boom "] [WaitTimeoutExpired] 1.

(** Two retries, everything else by default. *)
Definition cfg_two_retries : Config :=
  mkConfig None (Some 2) None false false false None false false (PatternList []) None.

(** The registry after one failed attempt for the default key. *)
Definition failed_registry : Registry :=
  setRunStatus 1 false default_key (setRunStatus 0 true default_key empty_registry).

(** The registry is fresh, or as one failed attempt for the default key
    leaves it. *)
Definition fresh_or_failed (r : Registry) : Prop :=
  r = empty_registry \/ r = failed_registry.

(** The attempt [sc_exit1] leaves in the history. *)
Definition att_boom : Attempt := mkAttempt (Lines [], Some "boom") 1 false.

(** [retry=0]. *)
Definition cfg_zero_retries : Config :=
  mkConfig None (Some 0) None false false false None false false (PatternList []) None.

(** Key "k1", three retries, a timeout of 30. *)
Definition cfg_k1 : Config :=
  mkConfig (Some "k1") (Some 3) None false false false (Some 30) false false
    (PatternList []) None.

(** Key "k2", three retries, no timeout. *)
Definition cfg_k2 : Config :=
  mkConfig (Some "k2") (Some 3) None false false false None false false
    (PatternList []) None.

(** The world a run with key "k1" leaves when its timer fired. *)
Definition after_k1_timeout : World :=
  snd (processRun ["sleep"; "99"] cfg_k1 (fun _ => sc_timeout) init_world).

(** [re.compile("done").match]: the line starts with "done". *)
Definition done_pattern : Pattern := String.prefix "done".

(** Two lines, the second matched by [done_pattern], and a line after it. *)
Definition sc_match : Script :=
  mkScript None
    [ReadLine "DEBUG warming up "; PollEmpty; ReadLine "done 42 "; ReadLine "late"]
    [] 0.

(** [patterns=[done_pattern]]. *)
Definition cfg_match : Config :=
  mkConfig None None None false false false None false false
    (PatternList [done_pattern]) None.

(** [patterns=[done_pattern]], [log_output=True], [filter=["DEBUG"]]. *)
Definition cfg_match_logged : Config :=
  mkConfig None None None false false false None true false
    (PatternList [done_pattern]) (Some ["DEBUG"]).

(** One line, then a kill request for the default key while the child
    is still running. *)
Definition sc_killed : Script :=
  mkScript None
    [ReadLine "DEBUG step 1 "; REnv (RequestKill default_key); PollEmpty;
     ReadLine "never read"]
    [WaitTimeoutExpired] 1.

(** The world in which the read loop of [sc_killed] stops. *)
Definition world_killed_reading : World :=
  snd (_getOutput sc_killed (kw_patterns default_config) (key_of default_config) init_world).

(** [log_output=True], [filter=["DEBUG"]]. *)
Definition cfg_logged_filter : Config :=
  mkConfig None None None false false false None true false
    (PatternList []) (Some ["DEBUG"]).

(** A [ValueError], as the handlers print its class. *)
Definition value_error : Exn := ValueError.

(** One line, then [readline] raises. *)
Definition sc_read_raises : Script :=
  mkScript None [ReadLine "partial "; ReadRaises value_error] [] 0.

(** The world in which the [try] block of [processWait] gives up on
    [sc_read_raises]. *)
Definition world_read_raised : World :=
  snd (processWait_try false (with_process_key default_config) sc_read_raises
         (at_wait ["bench"] (with_process_key default_config) init_world)).

(** [silent=True]. *)
Definition cfg_silent : Config :=
  mkConfig None None None true false false None false false (PatternList []) None.

(** [timeout=30]. *)
Definition cfg_timed : Config :=
  mkConfig None None None false false false (Some 30) false false (PatternList []) None.

(** The timer fires, then [readline] raises. *)
Definition sc_timer_then_raise : Script :=
  mkScript None [REnv TimerExpires; ReadRaises value_error] [] (-9).


(** [patterns=[done_pattern]], [timeout=30]. *)
Definition cfg_match_timed : Config :=
  mkConfig None None None false false false (Some 30) false false
    (PatternList [done_pattern]) None.

(** The timer fires, then the child prints a line that [done_pattern]
    matches. *)
Definition sc_timer_then_match : Script :=
  mkScript None [REnv TimerExpires; ReadLine "done 1 "] [] (-9).

(** Key "k1", three retries, no timeout. *)
Definition cfg_k1_plain : Config :=
  mkConfig (Some "k1") (Some 3) None false false false None false false
    (PatternList []) None.

(** One line, then a kill request for the run key "k1" while the child is
    still running; the child is left alone, goes on and exits with status 1
    during the second [ps.wait]. *)
Definition sc_killed_k1 : Script :=
  mkScript None
    [ReadLine "DEBUG step 1 "; REnv (RequestKill "k1"); PollEmpty;
     ReadLine "never read"]
    [WaitTimeoutExpired] 1.

(** A world in which an earlier run left a failure for the default key. *)
Definition world_failed : World := mkWorld failed_registry None [] [].

(** A command that cannot be spawned at the first attempt, then runs
    [sc_match]: three lines and a clean exit. *)
Definition fail_then_pass (i : nat) : Script :=
  match i with
  | O => sc_no_such_file
  | S _ => sc_match
  end.

(** The attempts [fail_then_pass] leaves in the history. *)
Definition att_no_such_file : Attempt :=
  mkAttempt (Lines [], Some "<class 'FileNotFoundError'>") 1 false.

Definition att_pass : Attempt :=
  mkAttempt (Lines ["DEBUG warming up"; "done 42"; "late"], None) 0 false.

(** [retry_sleep=-1]. *)
Definition cfg_negative_sleep : Config :=
  mkConfig None None (Some (-1)) false false false None false false (PatternList []) None.

(** A watchdog with [once=True] whose [main] adds one. *)
Definition wd_example : WatchDog nat nat := mkWatchDog nat nat (fun n => n + 1)%nat 15 true.

(** A condition that holds from time 16 to time 29 and at no other time. *)
Definition true_from_16_to_29 (t : Z) : bool := (16 <=? t) && (t <=? 29).

(** Ten polls while [main] runs; the condition is true from the third on. *)
Definition ten_polls : list bool :=
  [false; false; true; true; true; true; true; true; true; true].

(** ** Children that are left alone *)

(** A read event of a child that just prints: nothing to read yet, or a
    non-empty line that no pattern matches. *)
Definition plain_read (patterns : list Pattern) (ev : ReadEvent) : bool :=
  match ev with
  | PollEmpty => true
  | ReadLine line => PyStr.truthy line && negb (any_match patterns (PyStr.rstrip line))
  | _ => false
  end.

(** A wait event of a child that just runs on: the 15 time units went by. *)
Definition plain_wait (ev : WaitEvent) : bool :=
  match ev with
  | WaitTimeoutExpired => true
  | _ => false
  end.

(** A child that is spawned, prints unmatched lines and exits, while no
    other thread does anything. *)
Definition plain_script (patterns : PatternsArg) (sc : Script) : bool :=
  match spawn_raises sc with None => true | Some _ => false end
  && forallb (plain_read (pattern_list patterns)) (out_events sc)
  && forallb plain_wait (wait_events sc).

(** No kill is requested, neither for the run key nor for the default key. *)
Definition no_kill (key : RunKey) (r : Registry) : Prop :=
  getRunKilled key r = false /\ getRunKilled default_key r = false.

(** The world after [n] more calls of [ps.wait]. *)
Definition waited (n : nat) (w : World) : World :=
  mkWorld (registry w) (timer w) (trace w ++ replicate n PsWait) (history w).

(** What [processWait] returns for a child that is left alone. *)
Definition plain_result (cfg : Config) (sc : Script) : Result :=
  let status := exit_status sc in
  let output := returned cfg status (lines_of (out_events sc)) in
  if (status =? 0) || kw_ignore_status cfg
  then (Lines output, None)
  else (Lines [], Some (PyStr.join PyStr.newline output)).

(** The keyword arguments with [async] set to [b]. *)
Definition with_async (b : bool) (cfg : Config) : Config :=
  mkConfig (kw_process_key cfg) (kw_retry cfg) (kw_retry_sleep cfg) (kw_silent cfg)
    b (kw_non_blocking cfg) (kw_timeout cfg) (kw_log_output cfg)
    (kw_ignore_status cfg) (kw_patterns cfg) (kw_filter cfg).

(** The timer is pending or not, as before. *)
Definition same_timer (w w' : World) : Prop := timer w' = timer w.

(** Every attempt of the call fails to spawn. *)
Definition never_spawns (scripts : nat -> Script) (e : nat -> Exn) : Prop :=
  forall i, spawn_raises (scripts i) = Some (e i).

(** The ghost records of [n] failed attempts from the [i]-th on, each with
    the pair [result j] and status [status j]. *)
Definition failed_attempts (result : nat -> Result) (i n : nat) : list Attempt :=
  map (fun j => mkAttempt (result j) 1 false) (seq i n).

(** The sleeps the poller takes. *)
Definition is_sleep (e : Event) : bool :=
  match e with SleepDelay => true | _ => false end.

(** The polls the poller makes. *)
Definition is_condition (e : Event) : bool :=
  match e with Condition _ => true | _ => false end.

(** A child that prints two lines and exits with status 0. *)
Definition sc_clean : Script :=
  mkScript None [ReadLine "step 1 "; PollEmpty; ReadLine "step 2"] [WaitTimeoutExpired] 0.

(** What a registry must say for a plain child to be left alone and for the
    loop to go on after it failed. *)
Definition undisturbed (key : RunKey) (r : Registry) : Prop :=
  no_kill key r /\ getRunTimeout default_key r = false.


(** A line that no pattern matches. *)
Definition unmatched (patterns : list Pattern) (nline : string) : bool :=
  negb (any_match patterns nline).

(** What the flag returned by [_getOutput] says about the returned lines. *)
Definition match_shape (patterns : list Pattern) (lines : list string) (matched : bool)
    : Prop :=
  if matched
  then exists init l,
         lines = init ++ [l]
         /\ any_match patterns l = true
         /\ forallb (unmatched patterns) init = true
  else forallb (unmatched patterns) lines = true.

(** A watchdog that keeps polling after a trigger. *)
Definition wd_repeating : WatchDog nat nat :=
  mkWatchDog nat nat (fun n => n + 1)%nat 15 false.

(** Keyword arguments of a run that only spawns: [non_blocking=True],
    [timeout=30]. *)
Definition cfg_non_blocking : Config :=
  mkConfig None None None false false true (Some 30) false false (PatternList []) None.

From Stdlib Require DecimalString.

(** ** More of Python: values, [str], [split], [basename] *)

(** The values that travel in a command list or in [platform_args]:
    [None], booleans, integers and strings. *)
Inductive PyVal :=
| VNone
| VBool (b : bool)
| VInt (n : Z)
| VStr (s : string).

(** [str(n)] of an integer. *)
Definition str_of_int (n : Z) : string :=
  DecimalString.NilZero.string_of_int (Z.to_int n).

(** [str(v)] *)
Definition py_str (v : PyVal) : string :=
  match v with
  | VNone => "None"
  | VBool true => "True"
  | VBool false => "False"
  | VInt n => str_of_int n
  | VStr s => s
  end.

(** Truth value of a value: [if v]. *)
Definition py_truthy (v : PyVal) : bool :=
  match v with
  | VNone => false
  | VBool b => b
  | VInt n => negb (n =? 0)
  | VStr s => PyStr.truthy s
  end.

(** [sep.join(l)] of a list of values: a [TypeError] ([None] here) as soon
    as one of them is not a string. *)
Fixpoint join_vals (sep : string) (l : list PyVal) : option string :=
  match l with
  | [] => Some EmptyString
  | [VStr s] => Some s
  | VStr s :: r =>
      match join_vals sep r with
      | Some t => Some (s ++ sep ++ t)%string
      | None => None
      end
  | _ => None
  end.

(** [s.split(sep)] for a one-character separator: empty pieces are kept. *)
Fixpoint split_on (sep : ascii) (s : string) : list string :=
  match s with
  | EmptyString => [EmptyString]
  | String c r =>
      if Ascii.eqb c sep then EmptyString :: split_on sep r
      else match split_on sep r with
           | piece :: pieces => String c piece :: pieces
           | [] => [String c EmptyString]
           end
  end.

(** [os.path.basename(p)]: what follows the last slash. *)
Definition os_path_basename (p : string) : string :=
  List.last (split_on "/" p) EmptyString.

(** The longest prefix of [s] whose characters satisfy [f], and the rest. *)
Fixpoint span (f : ascii -> bool) (s : string) : string * string :=
  match s with
  | EmptyString => (EmptyString, EmptyString)
  | String c r =>
      if f c then let (pre, post) := span f r in (String c pre, post)
      else (EmptyString, s)
  end.

(** [s] without the prefix [pre], when it starts with it. *)
Fixpoint strip_prefix (pre s : string) : option string :=
  match pre, s with
  | EmptyString, _ => Some s
  | String a pre', String b s' => if Ascii.eqb a b then strip_prefix pre' s' else None
  | String _ _, EmptyString => None
  end.

(** The class [\d] on the ASCII range. *)
Definition isdigit (c : ascii) : bool :=
  let n := nat_of_ascii c in (48 <=? n)%nat && (n <=? 57)%nat.

Definition TypeError : Exn := OtherException "<class 'TypeError'>".
Definition ZeroDivisionError : Exn := OtherException "<class 'ZeroDivisionError'>".
Definition OverflowError : Exn := OtherException "<class 'OverflowError'>".

(** ** [int(a / b)] on integers

    [a / b] on two [int]s is the true division: the exact quotient rounded
    to the nearest binary64, ties to even; [ZeroDivisionError] when [b] is
    0, [OverflowError] when the rounded quotient is beyond the largest
    binary64.  [int] then drops the fraction. *)

(** [num / den] rounded to the nearest integer, ties to the even one, for a
    positive [den]. *)
Definition round_half_even (num den : Z) : Z :=
  let q := num / den in
  let r := num mod den in
  if 2 * r <? den then q
  else if den <? 2 * r then q + 1
  else if Z.even q then q else q + 1.

(** The [k] with [2 ^ k <= n / d < 2 ^ (k + 1)], for positive [n] and [d]. *)
Definition binade (n d : Z) : Z :=
  let k := Z.log2 n - Z.log2 d in
  if n * 2 ^ Z.max 0 (- k) <? d * 2 ^ Z.max 0 k then k - 1 else k.

(** [int(n / d)] for positive [n] and [d].  The quotient, in binade [k], is
    rounded to 53 significant bits: to [m * 2 ^ (k - 52)].  Below
    [2 ^ -1022] a binary64 has fewer bits, which makes no difference here:
    whatever is below 1 is truncated to 0. *)
Definition int_true_div_pos (n d : Z) : Exn + Z :=
  let k := binade n d in
  let m := round_half_even (n * 2 ^ Z.max 0 (52 - k)) (d * 2 ^ Z.max 0 (k - 52)) in
  if 1024 <=? (if m =? 2 ^ 53 then k + 1 else k) then inl OverflowError
  else inr (if 52 <=? k then m * 2 ^ (k - 52) else m / 2 ^ (52 - k)).

(** [int(a / b)] *)
Definition int_true_div (a b : Z) : Exn + Z :=
  if b =? 0 then inl ZeroDivisionError
  else if a =? 0 then inr 0
  else match int_true_div_pos (Z.abs a) (Z.abs b) with
       | inl e => inl e
       | inr q => inr (Z.sgn a * Z.sgn b * q)
       end.

(** ** [AndroidPlatform]: the device behind [self.util] *)

(** What the platform does to the device and around it, in order. *)
Inductive PhoneAction :=
| UtilLogcat (args : list string)
| UtilShell (cmd : list PyVal) (kwargs : gmap string PyVal)
| UtilReboot
| UtilSetFrequency (freq : PyVal)
| TimeSleep (seconds : Z)
| LogError (msg : string)
| LogException (msg : string).

(** [self.util.shell(cmd)] with a command of strings and no keyword. *)
Definition shell (cmd : list string) : PhoneAction := UtilShell (VStr <$> cmd) ∅.

Definition is_util (a : PhoneAction) : bool :=
  match a with
  | UtilLogcat _ | UtilShell _ _ | UtilReboot | UtilSetFrequency _ => true
  | _ => false
  end.

(** The registry together with what has been done so far. *)
Record Phone := mkPhone {
  ph_registry : Registry;
  ph_trace : list PhoneAction
}.

(** What one call of [self.util] gives back: the output lines, and what
    running the command did to the run registry. *)
Record Answer := mkAnswer {
  ans_lines : list string;
  ans_registry : Registry -> Registry
}.

(** Modelled from the spec: [self.util] is the adb wrapper of the platform,
    which is not under [src/]; the spec treats device command execution as
    an external collaborator that hands the core's output lines back and
    leaves a success or failure status in the registry.  It is a parameter
    here: the answer to a call may depend on the call and on how many calls
    were made before it, and the call itself does not raise. *)
Definition Util : Type := nat -> PhoneAction -> Answer.

(** Number of calls of [self.util] made so far. *)
Definition asked (p : Phone) : nat := length (List.filter is_util (ph_trace p)).

Definition note (a : PhoneAction) (p : Phone) : Phone :=
  mkPhone (ph_registry p) (ph_trace p ++ [a]).

Definition with_registry (f : Registry -> Registry) (p : Phone) : Phone :=
  mkPhone (f (ph_registry p)) (ph_trace p).

Definition util_call (u : Util) (c : PhoneAction) (p : Phone) : list string * Phone :=
  let a := u (asked p) c in
  (ans_lines a, note c (with_registry (ans_registry a) p)).

(** How a method ends: it returns, it raises, or the turns granted to its
    loop are used up while it still runs. *)
Inductive Outcome (A : Type) :=
| Returned (a : A) (p : Phone)
| Raised (e : Exn) (p : Phone)
| OutOfTurns (p : Phone).
Arguments Returned {A} a p.
Arguments Raised {A} e p.
Arguments OutOfTurns {A} p.

(** The fields of the platform object that the methods below read;
    [set_freq] is [self.args.set_freq]. *)
Record AndroidPlatform := mkAndroidPlatform {
  tgt_dir : string;
  platform : string;
  platform_hash : string;
  set_freq : PyVal
}.

(** [len(ret) > 0 and ret[0].find("failed to") >= 0] *)
Definition failed_to (ret : list string) : bool :=
  match ret with
  | first :: _ => PyStr.contains "failed to" first
  | [] => false
  end.

(** The [while repeat and size > 256] loop of [_setLogCatSize]. *)
Fixpoint _setLogCatSize_loop (u : Util) (turns : nat) (repeat : bool) (size : Z)
    (p : Phone) : Outcome unit :=
  if repeat && (256 <? size) then
    match turns with
    | O => OutOfTurns p
    | S turns =>
        let success := getRunStatus default_key (ph_registry p) in
        let (ret, p) := util_call u (UtilLogcat ["-G"; (str_of_int size ++ "K")%string]) p in
        let p := with_registry (setRunStatus success true default_key) p in
        if failed_to ret
        then _setLogCatSize_loop u turns true (size / 2) p
        else _setLogCatSize_loop u turns false size p
    end
  else Returned tt p.

(** [AndroidPlatform._setLogCatSize]; the size halves in every turn, so
    the turns granted here are never used up. *)
Definition _setLogCatSize (u : Util) (p : Phone) : Outcome unit :=
  _setLogCatSize_loop u 18 true 131072 p.

(** The [while not ls and count < num] loop of [waitForDevice]: [count]
    is handed on as it is, since the body does not assign it; [time.sleep]
    raises [ValueError] for a negative length. *)
Fixpoint waitForDevice_loop (u : Util) (self : AndroidPlatform) (period num : Z)
    (turns : nat) (ls : list string) (count : Z) (p : Phone)
    : Outcome (list string) :=
  if match ls with [] => true | _ => false end && (count <? num) then
    match turns with
    | O => OutOfTurns p
    | S turns =>
        let (ls, p) := util_call u (shell ["ls"; tgt_dir self]) p in
        if period <? 0 then Raised ValueError p
        else waitForDevice_loop u self period num turns ls count
               (note (TimeSleep period) p)
    end
  else Returned ls p.

Definition cannot_reach (self : AndroidPlatform) (timeout : Z) : string :=
  ("Cannot reach device " ++ platform self ++ " (" ++ platform_hash self
   ++ ") after " ++ str_of_int timeout ++ ".")%string.

(** [AndroidPlatform.waitForDevice(timeout)] for an integer [timeout].
    The loop is granted [turns] turns. *)
Definition waitForDevice (u : Util) (self : AndroidPlatform) (turns : nat)
    (timeout : Z) (p : Phone) : Outcome unit :=
  match int_true_div timeout 20 with
  | inl e => Raised e p
  | inr q =>
      let period := q + 1 in
      match int_true_div timeout period with
      | inl e => Raised e p
      | inr num =>
          let count := 0 in
          match waitForDevice_loop u self period num turns [] count p with
          | Returned ls p =>
              match ls with
              | [] => Returned tt (note (LogError (cannot_reach self timeout)) p)
              | _ => Returned tt p
              end
          | Raised e p => Raised e p
          | OutOfTurns p => OutOfTurns p
          end
      end
  end.

(** [AndroidPlatform.rebootDevice()]; the loop of [waitForDevice] is
    granted [turns] turns. *)
Definition rebootDevice (u : Util) (self : AndroidPlatform) (turns : nat) (p : Phone)
    : Outcome unit :=
  let p := snd (util_call u UtilReboot p) in
  match waitForDevice u self turns 180 p with
  | Returned _ p =>
      let p := note (TimeSleep 20) p in
      match _setLogCatSize u p with
      | Returned _ p =>
          if py_truthy (set_freq self)
          then Returned tt (snd (util_call u (UtilSetFrequency (set_freq self)) p))
          else Returned tt p
      | Raised e p => Raised e p
      | OutOfTurns p => OutOfTurns p
      end
  | Raised e p => Raised e p
  | OutOfTurns p => OutOfTurns p
  end.

(** [re.compile(r"^shell\s+(\d+)\s+").match(result)], giving group 1.  The
    two classes share no character, so the greedy runs are the only way to
    match: after [shell], the longest run of blanks, then the longest run of
    digits, then one more blank. *)
Definition kill_pattern (result : string) : option string :=
  match strip_prefix "shell" result with
  | None => None
  | Some rest =>
      let (blanks, rest) := span PyStr.isspace rest in
      let (digits, rest) := span isdigit rest in
      match blanks, digits, rest with
      | String _ _, String _ _, String c _ =>
          if PyStr.isspace c then Some digits else None
      | _, _, _ => None
      end
  end.

(** The [for result in results] loop of [killProgram]. *)
Fixpoint killProgram_loop (u : Util) (results : list string) (p : Phone) : Phone :=
  match results with
  | [] => p
  | result :: results =>
      match kill_pattern result with
      | Some pid => killProgram_loop u results (snd (util_call u (shell ["kill"; pid]) p))
      | None => killProgram_loop u results p
      end
  end.

(** [AndroidPlatform.killProgram(program)] *)
Definition killProgram (u : Util) (program : string) (p : Phone) : Phone :=
  let basename := os_path_basename program in
  let success := getRunStatus default_key (ph_registry p) in
  let (res, p) := util_call u (shell ["ps"; "|"; "grep"; basename]) p in
  let p := with_registry (setRunStatus success true default_key) p in
  match res with
  | [] => p
  | first :: _ => killProgram_loop u (split_on (ascii_of_nat 10) first) p
  end.

(** The keyword arguments [runBinaryBenchmark] reads.  [platform_args] is
    the caller's dict: the method changes it in place, so its state after
    the call is part of what the call does. *)
Record BenchKwargs := mkBenchKwargs {
  kw_log_to_screen_only : option PyVal;
  kw_platform_args : option (gmap string PyVal)
}.

(** The [meta] dict, as the list of its items; it is empty when there are
    none. *)
Definition Meta : Type := list (string * string).

(** Modelled from the spec: [getProfilerByUsage] and the profiler it gives
    are imported from [profilers/profilers.py], which is not under [src/];
    profiling is an external collaborator of the core.  It is a parameter
    here, known by how the three statements
    [simpleperf := getProfilerByUsage(...)], [f = simpleperf.start()] and
    [output, meta = f.result()] end for a command and a model name: no
    profiler is found, one of them raises (with the text of the exception),
    or an output and a meta are assigned. *)
Inductive Profiled :=
| NoProfiler
| ProfilerRaises (text : string)
| ProfilerResult (output : list string) (meta : Meta).

Definition Profiler : Type := list PyVal -> PyVal -> Profiled.

(** [if "taskset" in platform_args: ...] *)
Definition take_taskset (cmd : list PyVal) (pa : gmap string PyVal)
    : list PyVal * gmap string PyVal :=
  match pa !! "taskset" with
  | Some taskset => ([VStr "taskset"; taskset] ++ cmd, delete "taskset" pa)
  | None => (cmd, pa)
  end.

(** [if "sleep_before_run" in platform_args: ...] *)
Definition take_sleep_before_run (cmd : list PyVal) (pa : gmap string PyVal)
    : list PyVal * gmap string PyVal :=
  match pa !! "sleep_before_run" with
  | Some v =>
      ([VStr "sleep"; VStr (py_str v); VStr "&&"] ++ cmd, delete "sleep_before_run" pa)
  | None => (cmd, pa)
  end.

(** ["power" in platform_args and platform_args["power"]] *)
Definition wants_power (pa : gmap string PyVal) : bool :=
  match pa !! "power" with
  | Some v => py_truthy v
  | None => false
  end.

(** [platform_args.get("enable_profiling", False)] as a truth value. *)
Definition wants_profiling (pa : gmap string PyVal) : bool :=
  py_truthy (default (VBool false) (pa !! "enable_profiling")).

Definition lso_truthy (kwargs : BenchKwargs) : bool :=
  match kw_log_to_screen_only kwargs with
  | Some v => py_truthy v
  | None => false
  end.

(** The last three statements of [runBinaryBenchmark]: the standard run. *)
Definition standard_run (u : Util) (log_to_screen_only : bool) (cmd : list PyVal)
    (pa : gmap string PyVal) (meta : Meta) (p : Phone)
    : (list string * Meta) * Phone :=
  let (log_screen, p) := util_call u (UtilShell cmd pa) p in
  let (log_logcat, p) :=
    if log_to_screen_only then ([], p) else util_call u (UtilLogcat ["-d"]) p in
  ((log_screen ++ log_logcat, meta), p).

Definition no_data : string := "No data returned from Simpleperf profiler.".

Definition profiler_error (text : string) : PhoneAction :=
  LogException
    ("An error has occurred when running Simpleperf profiler. " ++ text)%string.

(** [AndroidPlatform.runBinaryBenchmark(cmd, **kwargs)] for a command that
    is a list.  The result comes with the state of the caller's
    [platform_args] after the call ([None] when the caller gave none). *)
Definition runBinaryBenchmark (u : Util) (prof : Profiler) (cmd : list PyVal)
    (kwargs : BenchKwargs) (p : Phone)
    : (Exn + (list string * Meta)) * option (gmap string PyVal) * Phone :=
  let log_to_screen_only := lso_truthy kwargs in
  match kw_platform_args kwargs with
  | None =>
      let (r, p) := standard_run u log_to_screen_only cmd ∅ [] p in
      (inr r, None, p)
  | Some pa =>
      let (cmd, pa) := take_taskset cmd pa in
      let (cmd, pa) := take_sleep_before_run cmd pa in
      let powered :=
        if wants_power pa then
          let p := snd (util_call u
                          (shell ["am"; "start"; "-a"; "android.settings.SETTINGS"]) p) in
          let p := note (TimeSleep 1) p in
          match join_vals " " cmd with
          | None => inl (TypeError, p)
          | Some text =>
              inr (VStr <$> ["nohup"; "sh"; "-c"; ("'" ++ text ++ "'")%string;
                             ">"; "/dev/null"; "2>&1"],
                   delete "power" (<["non_blocking" := VBool true]> pa), p)
          end
        else inr (cmd, pa, p) in
      match powered with
      | inl (e, p) => (inl e, Some pa, p)
      | inr (cmd, pa, p) =>
          if wants_profiling pa then
            match prof cmd (default VNone (pa !! "model_name")) with
            | NoProfiler =>
                let (r, p) := standard_run u log_to_screen_only cmd pa [] p in
                (inr r, Some pa, p)
            | ProfilerRaises text =>
                let p := note (profiler_error text) p in
                let (r, p) := standard_run u log_to_screen_only cmd pa [] p in
                (inr r, Some pa, p)
            | ProfilerResult output meta =>
                match output, meta with
                | _ :: _, _ :: _ =>
                    let (log_logcat, p) :=
                      if log_to_screen_only then ([], p)
                      else util_call u (UtilLogcat ["-d"]) p in
                    (inr (output ++ log_logcat, meta), Some pa, p)
                | _, _ =>
                    let p := note (profiler_error no_data) p in
                    let (r, p) := standard_run u log_to_screen_only cmd pa meta p in
                    (inr r, Some pa, p)
                end
            end
          else
            let (r, p) := standard_run u log_to_screen_only cmd pa [] p in
            (inr r, Some pa, p)
      end
  end.

(** ** Notions the statements about the platform use *)

(** [sizes] is what halving from [size] passes through while above 256. *)
Fixpoint halving (size : Z) (sizes : list Z) : Prop :=
  match sizes with
  | [] => size <= 256
  | s :: rest => s = size /\ 256 < size /\ halving (size / 2) rest
  end.

(** The sizes [_setLogCatSize] can ask for, in the order it asks. *)
Definition logcat_sizes : list Z :=
  [131072; 65536; 32768; 16384; 8192; 4096; 2048; 1024; 512].

Definition logcat_G (size : Z) : PhoneAction :=
  UtilLogcat ["-G"; (str_of_int size ++ "K")%string].

(** What the device answers to the [j]-th call made from [p] on. *)
Definition answer (u : Util) (p : Phone) (j : nat) (c : PhoneAction) : list string :=
  ans_lines (u (asked p + j)%nat c).

(** One poll of [waitForDevice]: the listing, then the sleep. *)
Definition poll (self : AndroidPlatform) (period : Z) : list PhoneAction :=
  [shell ["ls"; tgt_dir self]; TimeSleep period].

Definition polls (self : AndroidPlatform) (period : Z) (n : nat) : list PhoneAction :=
  concat (replicate n (poll self period)).

Definition is_error (a : PhoneAction) : bool :=
  match a with
  | LogError _ => true
  | _ => false
  end.

Definition all_blank (s : string) : Prop :=
  Forall (fun c => PyStr.isspace c = true) (list_ascii_of_string s).

Definition all_digits (s : string) : Prop :=
  Forall (fun c => isdigit c = true) (list_ascii_of_string s).

(** [s] is empty or starts with a character that [f] refuses. *)
Definition stops (f : ascii -> bool) (s : string) : Prop :=
  match s with
  | EmptyString => True
  | String c _ => f c = false
  end.

(** A line of the form the pattern of [killProgram] describes, with the
    group standing for [pid]. *)
Definition shell_line (result pid : string) : Prop :=
  exists blanks blank tail,
    result = ("shell" ++ blanks ++ pid ++ String blank tail)%string
    /\ blanks <> EmptyString /\ all_blank blanks
    /\ pid <> EmptyString /\ all_digits pid
    /\ PyStr.isspace blank = true.

(** The pids [killProgram] finds in the lines of a piece of output. *)
Definition pids (results : list string) : list string :=
  omap kill_pattern results.

(** A device that never answers with a listing. *)
Definition silent_device : Util := fun _ _ => mkAnswer [] id.

(** A device whose [n]-th answer is the first that is not empty, and on
    which every command leaves a failure status. *)
Definition device_up_after (n : nat) : Util :=
  fun i _ => mkAnswer (if (i <? n)%nat then [] else ["benchmark"])
               (setRunStatus 1 false default_key).

Definition pixel : AndroidPlatform :=
  mkAndroidPlatform "/data/local/tmp" "Pixel-11-30" "0A1B" (VStr "max").

Definition new_phone : Phone := mkPhone empty_registry [].

(** A device whose process list is one piece of text. *)
Definition ps_device : Util :=
  fun i _ =>
    mkAnswer (if (i =? 0)%nat
              then [("shell     4242  1   bench" ++ PyStr.newline
                     ++ "root      17    1   bench" ++ PyStr.newline
                     ++ "shell 77 1 bench")%string; "shell 99 1 bench"]
              else [])
             id.

Definition kill_call (pid : string) : PhoneAction := shell ["kill"; pid].

(** The pids [killProgram] finds in what [ps | grep] gave: the lines of
    the first element, and of no other. *)
Definition found_pids (res : list string) : list string :=
  match res with
  | [] => []
  | first :: _ => pids (split_on (ascii_of_nat 10) first)
  end.

(** The words [runBinaryBenchmark] puts before the command for a sleep and
    for a processor set. *)
Definition sleep_words (pa : gmap string PyVal) : list string :=
  match pa !! "sleep_before_run" with
  | Some v => ["sleep"; py_str v; "&&"]
  | None => []
  end.

Definition taskset_words (pa : gmap string PyVal) : list string :=
  match pa !! "taskset" with
  | Some v => ["taskset"; py_str v]
  | None => []
  end.

(** The value of [taskset], when there is one, is a string. *)
Definition taskset_is_str (pa : gmap string PyVal) : Prop :=
  forall v, pa !! "taskset" = Some v -> exists t, v = VStr t.

(** [platform_args] once [runBinaryBenchmark] is through with it. *)
Definition consumed (pa : gmap string PyVal) : gmap string PyVal :=
  let rest := delete "sleep_before_run" (delete "taskset" pa) in
  if wants_power pa then delete "power" (<["non_blocking" := VBool true]> rest)
  else rest.

(** What a standard run adds to the trace. *)
Definition standard_calls (log_to_screen_only : bool) (cmd : list PyVal)
    (pa : gmap string PyVal) : list PhoneAction :=
  UtilShell cmd pa :: (if log_to_screen_only then [] else [UtilLogcat ["-d"]]).

(** Arguments of a power measurement on a processor set after a pause. *)
Definition power_args : gmap string PyVal :=
  <["taskset" := VStr "c0"]> (<["sleep_before_run" := VInt 5]>
    (<["power" := VBool true]> (<["timeout" := VInt 300]> ∅))).

Definition no_profiler : Profiler := fun _ _ => NoProfiler.

(** ** [visualize_utils]: from a filter dict to a query *)

Local Unset Elimination Schemes.

(** A value of a parsed JSON document. *)
Inductive Json :=
| JNull
| JBool (b : bool)
| JNum (n : Z)
| JStr (s : string)
| JList (items : list Json)
| JDict (items : list (string * Json)).

(** A filter dict as the query builder sends it.  A dict without the key
    [condition] is a rule, of which [operator], [id] and [value] are read;
    a dict with that key is a group, of which [rules] is read.  A key that
    the dict does not have is [None]; operators and ids are strings, and
    [rules] is a list of filter dicts. *)
Inductive Filters :=
| Rule (operator : option string) (id : option string) (value : option Json)
| Group (condition : Json) (rules : option (list Filters)).

Local Set Elimination Schemes.

(** The right-hand side of a lookup: the value of the rule, or the tuple
    made of it for a range. *)
Inductive QValue :=
| Single (value : Json)
| Tuple (items : list Json).

(** [django.db.models.Q] is a class of the Django library: a query object
    is kept as the term that built it, [Q(keyword=value)], [~q], [a & b] and
    [a | b]. *)
Inductive Q :=
| QLookup (keyword : string) (value : QValue)
| QNot (q : Q)
| QAnd (a b : Q)
| QOr (a b : Q).

Inductive QueryError :=
| KeyError (key : string)
| TypeErrorNotIterable
| TypeErrorEmptyReduce.

(** The dict literal of [construct_single_q]. *)
Definition conditions : list (string * string) :=
  [("equal", "exact"); ("begins_with", "istartswith"); ("contains", "icontains");
   ("ends_with", "iendswith"); ("less", "lt"); ("less_or_equal", "lte");
   ("greater", "gt"); ("greater_or_equal", "gte"); ("between", "range")].

(** [d[key]] in a dict given by its items. *)
Fixpoint dict_get {A} (key : string) (d : list (string * A)) : option A :=
  match d with
  | [] => None
  | (k, v) :: d => if String.eqb k key then Some v else dict_get key d
  end.

(** [s[n:]] *)
Fixpoint str_from (n : nat) (s : string) : string :=
  match n, s with
  | O, _ => s
  | S n, String _ r => str_from n r
  | S _, EmptyString => EmptyString
  end.

Fixpoint chars (s : string) : list Json :=
  match s with
  | EmptyString => []
  | String c r => JStr (String c EmptyString) :: chars r
  end.

(** [tuple(v)]: the items of a list, the characters of a string, the keys
    of a dict; the other values are not iterable. *)
Definition py_tuple (v : Json) : option (list Json) :=
  match v with
  | JList items => Some items
  | JStr s => Some (chars s)
  | JDict items => Some (JStr <$> (fst <$> items))
  | _ => None
  end.

(** [construct_single_q(rule)] for the rule with these three keys. *)
Definition construct_single_q (operator id : option string) (value : option Json)
    : QueryError + Q :=
  match operator with
  | None => inl (KeyError "operator")
  | Some operator =>
      let neg := String.prefix "not_" operator in
      let operator := if neg then str_from 4 operator else operator in
      match dict_get operator conditions with
      | None => inl (KeyError operator)
      | Some cond =>
          match id, value with
          | None, _ => inl (KeyError "id")
          | Some _, None => inl (KeyError "value")
          | Some id, Some value =>
              let keyword := (id ++ "__" ++ cond)%string in
              let built :=
                if negb (String.eqb cond "range") then Some (QLookup keyword (Single value))
                else match py_tuple value with
                     | Some items => Some (QLookup keyword (Tuple items))
                     | None => None
                     end in
              match built with
              | None => inl TypeErrorNotIterable
              | Some q_obj => inr (if neg then QNot q_obj else q_obj)
              end
          end
      end
  end.

(** [reduce(op, q_list)] with no initial value. *)
Definition reduce (op : Q -> Q -> Q) (q_list : list Q) : QueryError + Q :=
  match q_list with
  | [] => inl TypeErrorEmptyReduce
  | q :: rest => inr (fold_left op rest q)
  end.

(** [filters["condition"] == "AND"] *)
Definition is_AND (condition : Json) : bool :=
  match condition with
  | JStr s => String.eqb s "AND"
  | _ => false
  end.

(** [construct_q(filters)]; the list comprehension builds the queries of
    the rules in order and stops at the first that raises. *)
Fixpoint construct_q (filters : Filters) : QueryError + Q :=
  match filters with
  | Rule operator id value => construct_single_q operator id value
  | Group condition rules =>
      match rules with
      | None => inl (KeyError "rules")
      | Some rules =>
          let q_list :=
            (fix each (l : list Filters) : QueryError + list Q :=
               match l with
               | [] => inr []
               | rule :: l =>
                   match construct_q rule with
                   | inl e => inl e
                   | inr q =>
                       match each l with
                       | inl e => inl e
                       | inr qs => inr (q :: qs)
                       end
                   end
               end) rules in
          match q_list with
          | inl e => inl e
          | inr q_list => reduce (if is_AND condition then QAnd else QOr) q_list
          end
      end
  end.

(** The list comprehension of [construct_q] on its own. *)
Fixpoint construct_each (rules : list Filters) : QueryError + list Q :=
  match rules with
  | [] => inr []
  | rule :: rules =>
      match construct_q rule with
      | inl e => inl e
      | inr q =>
          match construct_each rules with
          | inl e => inl e
          | inr qs => inr (q :: qs)
          end
      end
  end.

(** Whether a query selects a row, given the lookups that select it:
    [~] is the complement, [&] the intersection and [|] the union. *)
Fixpoint selects (lookup : string -> QValue -> bool) (q : Q) : bool :=
  match q with
  | QLookup keyword value => lookup keyword value
  | QNot q => negb (selects lookup q)
  | QAnd a b => selects lookup a && selects lookup b
  | QOr a b => selects lookup a || selects lookup b
  end.

(** ** [USBController]: switching the port of a device *)

(** [brainstem.result.Result]: [NO_ERROR] or an error code. *)
Inductive HubResult :=
| NO_ERROR
| HubError (code : Z).

(** What the controller does to a hub through [brainstem]. *)
Inductive HubAction :=
| DiscoverAndConnect (serial : Z)
| SetPortEnable (port : Z)
| SetPortDisable (port : Z)
| StemDisconnect.

(** [brainstem] is a library that drives the hardware: a hub is known by
    the result it gives to a request, given the requests made before. *)
Definition Hub : Type := list HubAction -> HubAction -> HubResult.

(** The controller object, with the requests made to the hubs so far. *)
Record USBController := mkUSBController {
  device_map : gmap string (Z * string);
  active : gmap string bool;
  hub_trace : list HubAction
}.

Inductive USBError :=
| NotConnected (device_hash : string)
| SerialNotAnInt (hub_serial : string)
| CouldNotConnect (hub_serial : string) (result : HubResult)
| CouldNotSwitch (port_number : Z) (result : HubResult).

Definition hub_request (hub : Hub) (a : HubAction) (c : USBController)
    : HubResult * USBController :=
  (hub (hub_trace c) a,
   mkUSBController (device_map c) (active c) (hub_trace c ++ [a])).

Definition set_active (device_hash : string) (on : bool) (c : USBController)
    : USBController :=
  mkUSBController (device_map c) (<[device_hash := on]> (active c)) (hub_trace c).

(** [connect] ([on] true) and [disconnect] ([on] false), which differ in
    the port request and in the flag they store.  [int] is Python's
    conversion of the serial number, a parameter here; it gives [None] where
    Python raises [ValueError]. *)
Definition switch (int : string -> option Z) (hub : Hub) (on : bool)
    (device_hash : string) (c : USBController) : (USBError + unit) * USBController :=
  match device_map c !! device_hash with
  | None => (inl (NotConnected device_hash), c)
  | Some (port_number, hub_serial) =>
      match int hub_serial with
      | None => (inl (SerialNotAnInt hub_serial), c)
      | Some serial =>
          let (result, c) := hub_request hub (DiscoverAndConnect serial) c in
          match result with
          | HubError _ => (inl (CouldNotConnect hub_serial result), c)
          | NO_ERROR =>
              let request := if on then SetPortEnable port_number
                             else SetPortDisable port_number in
              let (result, c) := hub_request hub request c in
              let outcome :=
                match result with
                | NO_ERROR => (inr tt, set_active device_hash on c)
                | HubError _ => (inl (CouldNotSwitch port_number result), c)
                end in
              (* finally *)
              (fst outcome, snd (hub_request hub StemDisconnect (snd outcome)))
          end
      end
  end.

(** [USBController.connect(device_hash)] *)
Definition connect (int : string -> option Z) (hub : Hub) := switch int hub true.

(** [USBController.disconnect(device_hash)] *)
Definition disconnect (int : string -> option Z) (hub : Hub) := switch int hub false.

(** A lab with one hub and two phones. *)
Definition lab : USBController :=
  mkUSBController
    (<["0A1B" := (3, "42")]> (<["2C3D" := (1, "42")]> ∅))
    (<["0A1B" := true]> (<["2C3D" := true]> ∅))
    [].

Definition int_42 (s : string) : option Z :=
  if String.eqb s "42" then Some 42 else None.

Definition good_hub : Hub := fun _ _ => NO_ERROR.

(** A hub on which no port can be switched. *)
Definition stuck_hub : Hub :=
  fun _ a => match a with
             | SetPortEnable _ | SetPortDisable _ => HubError 11
             | _ => NO_ERROR
             end.

(** ** [build_program]: building with Buck *)

(** [s.split()]: the words between runs of blanks. *)
Fixpoint py_split (s : string) : list string :=
  match s with
  | EmptyString => []
  | String c r =>
      if PyStr.isspace c then py_split r
      else
        match r with
        | EmptyString => [String c EmptyString]
        | String c' _ =>
            if PyStr.isspace c' then String c EmptyString :: py_split r
            else match py_split r with
                 | word :: words => String c word :: words
                 | [] => [String c EmptyString]
                 end
        end
  end.

Definition is_slash (c : ascii) : bool := Ascii.eqb c "/".

Fixpoint has_slash (p : string) : bool :=
  match p with
  | EmptyString => false
  | String c r => is_slash c || has_slash r
  end.

(** [p[:p.rfind("/") + 1]] *)
Fixpoint up_to_last_slash (p : string) : string :=
  match p with
  | EmptyString => EmptyString
  | String c r => if has_slash p then String c (up_to_last_slash r) else EmptyString
  end.

(** [head.rstrip("/")] *)
Fixpoint rstrip_slashes (s : string) : string :=
  match s with
  | EmptyString => EmptyString
  | String c r =>
      match rstrip_slashes r with
      | EmptyString => if is_slash c then EmptyString else String c EmptyString
      | r' => String c r'
      end
  end.

Fixpoint all_slashes (s : string) : bool :=
  match s with
  | EmptyString => true
  | String c r => is_slash c && all_slashes r
  end.

(** [os.path.dirname(p)] of [posixpath]. *)
Definition os_path_dirname (p : string) : string :=
  let head := up_to_last_slash p in
  if PyStr.truthy head && negb (all_slashes head) then rstrip_slashes head else head.

(** The file system is the operating system's: its state is of a type
    [FS], and the calls of [os] and [os.path] that [build_program] makes
    are parameters.  A call that changes the files may raise. *)
Record OS (FS : Type) := mkOS {
  os_path_isfile : string -> FS -> bool;
  os_path_isdir : string -> FS -> bool;
  os_remove : string -> FS -> Exn + FS;
  os_makedirs : string -> FS -> Exn + FS;
  os_chmod : string -> Z -> FS -> Exn + FS
}.
Arguments mkOS {FS} _ _ _ _ _.
Arguments os_path_isfile {FS} _ _ _.
Arguments os_path_isdir {FS} _ _ _.
Arguments os_remove {FS} _ _ _.
Arguments os_makedirs {FS} _ _ _.
Arguments os_chmod {FS} _ _ _ _.

(** [_setUpTempDirectory(dst)] *)
Definition _setUpTempDirectory {FS} (os : OS FS) (dst : string) (fs : FS) : Exn + FS :=
  let dst_dir := os_path_dirname dst in
  if os_path_isfile os dst fs then os_remove os dst fs
  else if negb (os_path_isdir os dst_dir fs) then os_makedirs os dst_dir fs
  else inr fs.

(** What the build functions log. *)
Inductive BuildLog :=
| LogResult (text : string)
| LogBuildFailed (script : string).

(** [_isBuildSuccessful(dst, platform, script)], without its log. *)
Definition _isBuildSuccessful {FS} (os : OS FS) (dst platform : string) (fs : FS)
    : bool :=
  if negb (os_path_isfile os dst fs)
     && negb (os_path_isdir os dst fs && String.prefix "ios" platform)
  then false else true.

(** The files after the children of the attempts [0 .. n-1] have run, where
    [effect i] is what the child of attempt [i] does to the files. *)
Fixpoint after_attempts {FS} (effect : nat -> FS -> FS) (n : nat) (fs : FS) : FS :=
  match n with
  | O => fs
  | S n => effect n (after_attempts effect n fs)
  end.

(** [f"{buck_target} --out {dst}"] *)
Definition final_command (buck_target dst : string) : string :=
  (buck_target ++ " --out " ++ dst)%string.

(** [final_command.split()], the command that is run. *)
Definition buck_command (buck_target dst : string) : list string :=
  py_split (final_command buck_target dst).

(** The state a build works on: the supervisor's world, the files and the
    log of the build. *)
Record BuildState (FS : Type) := mkBuildState {
  bs_world : World;
  bs_files : FS;
  bs_log : list BuildLog
}.
Arguments mkBuildState {FS} _ _ _.
Arguments bs_world {FS} _.
Arguments bs_files {FS} _.
Arguments bs_log {FS} _.

(** [buildUsingBuck(dst, platform, buck_target)].  The build command runs
    under [processRun] with no keyword argument; [scripts] and [effect]
    tell what its attempts do. *)
Definition buildUsingBuck {FS} (os : OS FS) (scripts : nat -> Script)
    (effect : nat -> FS -> FS) (dst platform buck_target : string)
    (s : BuildState FS) : (Exn + bool) * BuildState FS :=
  match _setUpTempDirectory os dst (bs_files s) with
  | inl e => (inl e, s)
  | inr fs =>
      let (ran, w) := processRun (buck_command buck_target dst) default_config scripts
                        (bs_world s) in
      let fs := after_attempts effect (attempts (bs_world s) w) fs in
      match ran with
      | inl e => (inl e, mkBuildState w fs (bs_log s))
      | inr (Handle _, _) => (inl TypeError, mkBuildState w fs (bs_log s))
      | inr (Lines result, _) =>
          let log := bs_log s ++ [LogResult (PyStr.join PyStr.newline result)] in
          if _isBuildSuccessful os dst platform fs then
            match os_chmod os dst 320 fs with
            | inl e => (inl e, mkBuildState w fs log)
            | inr fs => (inr true, mkBuildState w fs log)
            end
          else (inr false,
                mkBuildState w fs (log ++ [LogBuildFailed (final_command buck_target dst)]))
      end
  end.

(** A value that is a pair of lines and an error, not a handle. *)
Definition is_lines (r : Result) : Prop := exists lines err, r = (Lines lines, err).

(** [m] returns only values that satisfy [P]. *)
Definition returns_only {A} (P : A -> Prop) (m : M A) : Prop :=
  forall w a w', m w = (inr a, w') -> P a.

(** The value of the variable [ret] is such a pair, if there is one. *)
Definition opt_lines (last : option Result) : Prop :=
  forall r, last = Some r -> is_lines r.

(** A toy file system: the paths that are files. *)
Definition toy_os : OS (list string) :=
  mkOS (fun p fs => bool_decide (p ∈ fs)) (fun _ _ => true)
       (fun p fs => inr (List.filter (fun q => negb (String.eqb p q)) fs))
       (fun _ fs => inr fs)
       (fun _ _ fs => inr fs).

(** A build command that fails. *)
Definition sc_fails : Script := mkScript None [ReadLine "error: no such target"] [] 1.

(** The child of the first attempt writes the destination. *)
Definition writes_at_first (i : nat) (fs : list string) : list string :=
  if (i =? 0)%nat then "out/bench" :: fs else fs.

(** ** [GlowFramework]: collecting the latencies of the net runner *)

(** A result record as the methods of the class create it: the dict with
    the keys [type], [metric], [unit] and [values]. *)
Record ResultRecord (V : Type) := mkResultRecord {
  r_type : string;
  r_metric : string;
  r_unit : string;
  r_values : list V
}.
Arguments mkResultRecord {V} _ _ _ _.
Arguments r_type {V} _.
Arguments r_metric {V} _.
Arguments r_unit {V} _.
Arguments r_values {V} _.

(** [_addOrAppendResult(results, key, value, record)]: the dict [results]
    after the call.  Every call site makes a new [record], with a new empty
    list of values. *)
Definition _addOrAppendResult {V} (results : gmap string (ResultRecord V))
    (key : string) (value : V) (record : ResultRecord V)
    : gmap string (ResultRecord V) :=
  let results :=
    match results !! key with
    | Some _ => results
    | None => <[key := record]> results
    end in
  match results !! key with
  | Some r =>
      <[key := mkResultRecord (r_type r) (r_metric r) (r_unit r) (r_values r ++ [value])]>
        results
  | None => results
  end.

(** The class [\w] on the ASCII range. *)
Definition isword (c : ascii) : bool :=
  let n := nat_of_ascii c in
  isdigit c || ((65 <=? n)%nat && (n <=? 90)%nat)
  || ((97 <=? n)%nat && (n <=? 122)%nat) || (n =? 95)%nat.

(** [$] without [re.MULTILINE]: the end of the string, or the newline that
    ends it. *)
Definition at_end (s : string) : bool :=
  match s with
  | EmptyString => true
  | String c EmptyString => (nat_of_ascii c =? 10)%nat
  | _ => false
  end.

(** [re.match(r"^individual inference latency \[(\w+)\]: ([0-9]+) us$", row)],
    giving the two groups.  Neither class holds the character that follows
    its group, so the greedy runs are the only way to match. *)
Definition latency_pattern (row : string) : option (string * string) :=
  match strip_prefix "individual inference latency [" row with
  | None => None
  | Some rest =>
      let (name, rest) := span isword rest in
      match name, strip_prefix "]: " rest with
      | String _ _, Some rest =>
          let (digits, rest) := span isdigit rest in
          match digits, strip_prefix " us" rest with
          | String _ _, Some rest => if at_end rest then Some (name, digits) else None
          | _, _ => None
          end
      | _, _ => None
      end
  end.

(** The number a run of ASCII digits stands for. *)
Fixpoint digits_value (acc : Z) (digits : string) : Z :=
  match digits with
  | EmptyString => acc
  | String c r => digits_value (10 * acc + (Z.of_nat (nat_of_ascii c) - 48)) r
  end.

(** [int(digits)] for a run of ASCII digits: CPython refuses, with
    [ValueError], more digits than [sys.int_info.default_max_str_digits]. *)
Definition int_of_digits (digits : string) : Exn + Z :=
  if 4300 <? Z.of_nat (String.length digits) then inl ValueError
  else inr (digits_value 0 digits).

Definition mtype_of (name : string) : string :=
  if String.eqb name "glow" then "NET" else "SECONDARY".

Definition latency_key (name : string) : string :=
  (mtype_of name ++ " " ++ name ++ " net_runner inference")%string.

Definition latency_record {V} (name : string) : ResultRecord V :=
  mkResultRecord (mtype_of name) (name ++ " net_runner inference")%string
    "microsecond" [].

(** The [while i < len(rows)] loop of [_maybeAddNetRunnerStats]; [of_int]
    tells how an [int] stands among the values of the records. *)
Fixpoint _maybeAddNetRunnerStats_loop {V} (of_int : Z -> V) (rows : list string)
    (results : gmap string (ResultRecord V))
    : Exn + gmap string (ResultRecord V) :=
  match rows with
  | [] => inr results
  | row :: rows =>
      match latency_pattern row with
      | Some (name, digits) =>
          match int_of_digits digits with
          | inl e => inl e
          | inr value =>
              _maybeAddNetRunnerStats_loop of_int rows
                (_addOrAppendResult results (latency_key name) (of_int value)
                   (latency_record name))
          end
      | None => _maybeAddNetRunnerStats_loop of_int rows results
      end
  end.

(** The [output] a framework method is given: [None], one string, or a
    list of strings. *)
Inductive GlowOutput :=
| NoOutput
| OutputStr (s : string)
| OutputRows (rows : list string).

(** [rows], when [output] is not [None]: the lines of a string, or the
    list itself. *)
Definition rows_of (output : GlowOutput) : option (list string) :=
  match output with
  | NoOutput => None
  | OutputStr s => Some (split_on (ascii_of_nat 10) s)
  | OutputRows rows => Some rows
  end.

(** [_maybeAddNetRunnerStats(output, results)]: what is returned ([False]
    or [None]) and the dict [results] after the call. *)
Definition _maybeAddNetRunnerStats {V} (of_int : Z -> V) (output : GlowOutput)
    (results : gmap string (ResultRecord V))
    : Exn + (PyVal * gmap string (ResultRecord V)) :=
  match rows_of output with
  | None => inr (VBool false, results)
  | Some rows =>
      match _maybeAddNetRunnerStats_loop of_int rows results with
      | inl e => inl e
      | inr results => inr (VNone, results)
      end
  end.

(** The values recorded under [key]. *)
Definition values_at {V} (key : string) (results : gmap string (ResultRecord V))
    : list V :=
  match results !! key with
  | Some r => r_values r
  | None => []
  end.

(** The latencies that the rows give for [key], in the order of the rows. *)
Definition latencies_for (key : string) (rows : list string) : list Z :=
  omap (fun row =>
          match latency_pattern row with
          | Some (name, digits) =>
              if String.eqb (latency_key name) key then Some (digits_value 0 digits)
              else None
          | None => None
          end) rows.

(** No row carries a number of more digits than [int] accepts. *)
Definition short_numbers (rows : list string) : Prop :=
  Forall (fun row =>
            match latency_pattern row with
            | Some (_, digits) => Z.of_nat (String.length digits) <= 4300
            | None => True
            end) rows.

(** What the net runner prints for two back ends. *)
Definition runner_rows : list string :=
  ["individual inference latency [glow]: 1200 us";
   "Total inference duration (ms): 12";
   "individual inference latency [onnx]: 3400 us";
   "individual inference latency [glow]: 0099 us";
   "individual inference latency [glow]: 7 ms";
   " individual inference latency [glow]: 8 us"].

(** * Properties *)

(** ** [_filterOutput] *)

Section FilterOutput.

Variable match_list : list string.

Lemma py_del_middle (pre : list string) (x : string) (suf : list string) :
  py_del (Z.of_nat (length pre)) (pre ++ x :: suf) = Some (pre ++ suf).
Proof.
  unfold py_del.
  assert (Hlen : (length pre < length (pre ++ x :: suf))%nat).
  { rewrite length_app. simpl. lia. }
  destruct (Z.ltb_spec (Z.of_nat (length pre)) 0) as [Hneg|_]; [lia|].
  destruct (Z.leb_spec 0 (Z.of_nat (length pre))) as [_|Hneg]; [|lia].
  destruct (Z.ltb_spec (Z.of_nat (length pre)) (Z.of_nat (length (pre ++ x :: suf))))
    as [_|Hge]; [|lia].
  simpl. rewrite Nat2Z.id. by rewrite delete_middle.
Qed.

(** Loop invariant: with [pre] still to visit (from its end) and [suf]
    visited, the list under deletion is [pre] followed by what is kept of
    [suf], and the index never leaves the list. *)
Lemma _filterOutput_loop_inv (pre suf : list string) :
  _filterOutput_loop match_list (Z.of_nat (length (pre ++ suf)))
    (Z.of_nat (length suf)) (rev pre) (pre ++ keep_unmatched suf match_list)
  = Some (keep_unmatched (pre ++ suf) match_list).
Proof.
  revert suf. induction pre as [|x pre IH] using rev_ind; intros suf.
  - reflexivity.
  - specialize (IH (x :: suf)).
    set (kept := keep_unmatched suf match_list) in *.
    assert (Hkeep : keep_unmatched (x :: suf) match_list
                    = if line_matches match_list x then kept else x :: kept).
    { subst kept. unfold keep_unmatched. simpl.
      by destruct (line_matches match_list x). }
    rewrite Hkeep in IH.
    replace ((pre ++ [x]) ++ suf) with (pre ++ x :: suf)
      by (by rewrite <- app_assoc).
    replace ((pre ++ [x]) ++ kept) with (pre ++ x :: kept)
      by (by rewrite <- app_assoc).
    rewrite rev_app_distr. cbn [rev app _filterOutput_loop].
    replace (Z.of_nat (length (pre ++ x :: suf)) - Z.of_nat (length suf) - 1)
      with (Z.of_nat (length pre)) by (rewrite length_app; simpl; lia).
    replace (Z.of_nat (length suf) + 1) with (Z.of_nat (length (x :: suf)))
      by (simpl length; lia).
    destruct (line_matches match_list x).
    + rewrite py_del_middle. exact IH.
    + exact IH.
Qed.

End FilterOutput.

Lemma _filterOutput_keep_unmatched (output match_list : list string) :
  _filterOutput output match_list = Some (keep_unmatched output match_list).
Proof.
  unfold _filterOutput.
  pose proof (_filterOutput_loop_inv match_list output []) as H.
  simpl in H. rewrite app_nil_r in H. exact H.
Qed.

(** C3, amended.  [_filterOutput] never raises and removes every line that
    contains one of the filter substrings, wherever the line stands; the
    lines without such a substring are kept, in their order. *)
Theorem filterOutput_removes_every_match (output match_list : list string) :
  _filterOutput output match_list
  = Some (List.filter (fun line => negb (line_matches match_list line)) output).
Proof. apply _filterOutput_keep_unmatched. Qed.

(** C3 as stated fails: a line with "DEBUG" followed by a line without it is
    removed, where stripping only the trailing matches keeps both lines. *)
Lemma filterOutput_not_trailing_only :
  _filterOutput ["DEBUG start"; "result: 1"] ["DEBUG"] = Some ["result: 1"]
  /\ strip_trailing_matches ["DEBUG start"; "result: 1"] ["DEBUG"]
     = ["DEBUG start"; "result: 1"]
  /\ _filterOutput ["DEBUG start"; "result: 1"] ["DEBUG"]
     <> Some (strip_trailing_matches ["DEBUG start"; "result: 1"] ["DEBUG"]).
Proof. repeat split; vm_compute; congruence. Qed.

(** ** Reasoning about monadic code *)

Lemma bind_run {A B} (m : M A) (k : A -> M B) w a w1 :
  m w = (inr a, w1) -> bind m k w = k a w1.
Proof. intros E. unfold bind. by rewrite E. Qed.

Lemma bind_raise {A B} (m : M A) (k : A -> M B) w e w1 :
  m w = (inl e, w1) -> bind m k w = (inl e, w1).
Proof. intros E. unfold bind. by rewrite E. Qed.

Lemma bind_assoc {A B C} (m : M A) (k : A -> M B) (h : B -> M C) w :
  bind (bind m k) h w = bind m (fun a => bind (k a) h) w.
Proof. unfold bind. by destruct (m w) as [[e|a] w1]. Qed.

Lemma total_ret {A} (a : A) : total (ret a).
Proof. intros w. by exists a, w. Qed.

Lemma total_bind {A B} (m : M A) (k : A -> M B) :
  total m -> (forall a, total (k a)) -> total (bind m k).
Proof.
  intros Hm Hk w. destruct (Hm w) as (a & w1 & E).
  destruct (Hk a w1) as (b & w2 & E2).
  exists b, w2. unfold bind. by rewrite E.
Qed.

Lemma total_emit a : total (emit a).
Proof. intros w. by eexists _, _. Qed.

Lemma total_gets {A} (f : Registry -> A) : total (gets f).
Proof. intros w. by eexists _, _. Qed.

Lemma total_modify f : total (modify f).
Proof. intros w. by eexists _, _. Qed.

Lemma total_when b m : total m -> total (when b m).
Proof. destruct b; [done|]. intros _. apply total_ret. Qed.

Lemma total_try_except {A} (m : M A) h :
  (forall e, total (h e)) -> total (try_except m h).
Proof.
  intros Hh w. unfold try_except.
  destruct (m w) as [[e|a] w1].
  - apply Hh.
  - by exists a, w1.
Qed.

Section Frame.

Variable R : World -> World -> Prop.
Hypothesis R_refl : forall w, R w w.
Hypothesis R_trans : forall w1 w2 w3, R w1 w2 -> R w2 w3 -> R w1 w3.

Lemma preserves_ret {A} (a : A) : preserves R (ret a).
Proof. intros w. apply R_refl. Qed.

Lemma preserves_raise {A} e : preserves R (@raise A e).
Proof. intros w. apply R_refl. Qed.

Lemma preserves_gets {A} (f : Registry -> A) : preserves R (gets f).
Proof. intros w. apply R_refl. Qed.

Lemma preserves_bind {A B} (m : M A) (k : A -> M B) :
  preserves R m -> (forall a, preserves R (k a)) -> preserves R (bind m k).
Proof.
  intros Hm Hk w. specialize (Hm w). unfold bind.
  destruct (m w) as [[e|a] w1]; simpl in *; [done|].
  eapply R_trans; [exact Hm|apply Hk].
Qed.

Lemma preserves_try_except {A} (m : M A) h :
  preserves R m -> (forall e, preserves R (h e)) -> preserves R (try_except m h).
Proof.
  intros Hm Hh w. specialize (Hm w). unfold try_except.
  destruct (m w) as [[e|a] w1]; simpl in *; [|done].
  eapply R_trans; [exact Hm|apply Hh].
Qed.

Lemma preserves_when b m : preserves R m -> preserves R (when b m).
Proof. destruct b; [done|]. intros _. apply preserves_ret. Qed.

Lemma preserves_kwargs_process_key cfg : preserves R (kwargs_process_key cfg).
Proof. unfold kwargs_process_key. destruct (kw_process_key cfg); intros w; apply R_refl. Qed.

(** What the relation must allow for the supervisor to respect it;
    [allowed] tells which moves of the environment it allows, [own] the run
    keys whose status it lets the main thread write. *)
Variable allowed : EnvEvent -> bool.
Variable own : RunKey -> Prop.
Hypothesis R_emit : forall a, preserves R (emit a).
Hypothesis R_cancel : preserves R (set_timer None).
Hypothesis R_arm : forall t, preserves R (set_timer (Some t)).
Hypothesis R_status : forall s o k, own k -> preserves R (modify (setRunStatus s o k)).
Hypothesis R_env : forall e, allowed e = true -> preserves R (env_step e).

Ltac frame :=
  repeat first
    [ apply preserves_ret | apply preserves_raise | apply preserves_gets
    | apply preserves_kwargs_process_key
    | apply R_emit | apply R_cancel | apply R_arm
    | apply R_status; assumption
    | apply preserves_when
    | apply preserves_bind; [|intros ?]
    | match goal with
      | |- preserves R (if ?b then _ else _) => destruct b
      | |- preserves R (match ?x with _ => _ end) => destruct x
      end ].

Lemma preserves_getOutput_loop patterns process_key events lines :
  forallb (read_allowed allowed) events = true ->
  preserves R (_getOutput_loop patterns process_key events lines).
Proof using R_refl R_trans R_env.
  revert lines. induction events as [|ev rest IH]; intros lines Hall.
  - apply preserves_ret.
  - cbn [forallb] in Hall. apply andb_prop in Hall as [Hev Hrest].
    destruct ev; cbn [_getOutput_loop]; frame;
      try (apply R_env; exact Hev); by apply IH.
Qed.

Lemma preserves_wait_loop exit events :
  forallb (wait_allowed allowed) events = true ->
  preserves R (wait_loop exit events).
Proof using R_refl R_trans R_env R_emit.
  induction events as [|ev rest IH]; intros Hall; cbn [wait_loop].
  - frame.
  - cbn [forallb] in Hall. apply andb_prop in Hall as [Hev Hrest].
    destruct ev; frame; try (apply R_env; exact Hev); by apply IH.
Qed.

Lemma preserves_settle matched sc :
  forallb (wait_allowed allowed) (wait_events sc) = true ->
  preserves R (settle matched sc).
Proof using R_refl R_trans R_env R_emit.
  intros Hall. unfold settle. destruct matched; frame.
  by apply preserves_wait_loop.
Qed.

Lemma preserves_apply_filter cfg output : preserves R (apply_filter cfg output).
Proof using R_refl. unfold apply_filter. frame. Qed.

Lemma preserves_processWait t cfg sc :
  own (key_of cfg) ->
  script_allowed allowed sc = true -> preserves R (processWait t cfg sc).
Proof.
  intros Hown Hall. apply andb_prop in Hall as [Hr Hw].
  unfold processWait. apply preserves_try_except.
  - unfold processWait_try, _getOutput.
    apply preserves_bind; [by apply preserves_getOutput_loop|intros [output matched]].
    apply preserves_bind; [apply R_emit|intros _].
    apply preserves_bind; [by apply preserves_settle|intros status].
    apply preserves_bind; [frame|intros _].
    apply preserves_bind; [unfold deref; frame|intros st].
    apply preserves_bind.
    { unfold report. frame; apply preserves_apply_filter. }
    intros out. unfold conclude. frame.
  - intros e. unfold processWait_except. frame.
Qed.

(** [kwargs["process_key"]], when it is there, is the key [processWait]
    reads with [kwargs.get("process_key", "")]. *)
Lemma preserves_with_key {A} cfg (k : RunKey -> M A) :
  (forall key, kw_process_key cfg = Some key -> preserves R (k key)) ->
  preserves R (bind (kwargs_process_key cfg) k).
Proof using R_refl.
  intros Hk w. unfold bind, kwargs_process_key.
  destruct (kw_process_key cfg) as [key|] eqn:E; [by apply Hk|apply R_refl].
Qed.

Lemma preserves_processRun1 cmd cfg sc :
  own (key_of cfg) ->
  script_allowed allowed sc = true -> preserves R (_processRun cmd cfg sc).
Proof.
  intros Hown Hall. unfold _processRun. apply preserves_bind; [frame|intros _].
  apply preserves_try_except.
  - unfold _processRun_try, _Popen.
    destruct (kw_non_blocking cfg); [frame|].
    apply preserves_bind; [frame|intros _].
    apply preserves_bind.
    { destruct (truthy_duration (kw_timeout cfg)); [|frame].
      apply preserves_with_key. intros key _. frame. }
    intros t. destruct (kw_async cfg); [frame|]. by apply preserves_processWait.
  - intros e. unfold _processRun_except.
    apply preserves_bind; [frame|intros err].
    apply preserves_with_key. intros key Hkey.
    assert (Hk : own key).
    { unfold key_of in Hown. by rewrite Hkey in Hown. }
    frame.
Qed.

End Frame.

(** ** The supervisor returns, and leaves the ghost history alone *)

Lemma total_processWait t cfg sc : total (processWait t cfg sc).
Proof.
  apply total_try_except. intros [err|cls]; cbn [processWait_except];
    (apply total_bind; [apply total_emit|intros _; apply total_ret]).
Qed.

Lemma keyed_with_process_key cfg : keyed (with_process_key cfg).
Proof. reflexivity. Qed.

Lemma kwargs_process_key_run cfg w :
  keyed cfg -> kwargs_process_key cfg w = (inr (key_of cfg), w).
Proof. unfold keyed, kwargs_process_key. by intros ->. Qed.

Lemma kwargs_process_key_raises cfg w :
  kw_process_key cfg = None -> kwargs_process_key cfg w = (inl KeyError_process_key, w).
Proof. unfold kwargs_process_key. by intros ->. Qed.

Lemma total_kwargs_process_key cfg : keyed cfg -> total (kwargs_process_key cfg).
Proof. intros Hk w. eexists _, _. by apply kwargs_process_key_run. Qed.

(** Line 87 finds the key: with it a single attempt always returns. *)
Lemma total_processRun1 cmd cfg sc : keyed cfg -> total (_processRun cmd cfg sc).
Proof.
  intros Hk. unfold _processRun. apply total_bind.
  { apply total_when, total_emit. }
  intros _. apply total_try_except. intros e. unfold _processRun_except.
  apply total_bind.
  { destruct e; (apply total_bind; [apply total_emit|intros _; apply total_ret]). }
  intros err. apply total_bind; [by apply total_kwargs_process_key|intros key].
  apply total_bind; [apply total_modify|intros _; apply total_ret].
Qed.

Lemma same_history_env e : preserves same_history (env_step e).
Proof.
  intros w. destruct e as [key| |cmd key]; cbn; [done| |done].
  by destruct (timer w) as [[cmd k]|].
Qed.

Lemma any_event_script sc : script_allowed any_event sc = true.
Proof.
  unfold script_allowed. apply andb_true_intro. split; apply forallb_forall.
  - by intros [e| | |].
  - by intros [e| |].
Qed.

Lemma processRun1_history cmd cfg sc w :
  history (snd (_processRun cmd cfg sc w)) = history w.
Proof.
  revert w. change (preserves same_history (_processRun cmd cfg sc)).
  apply preserves_processRun1 with (allowed := any_event) (own := fun _ => True);
    unfold same_history.
  - done.
  - intros w1 w2 w3 H1 H2. by rewrite H2.
  - by intros a w0.
  - by intros w0.
  - by intros t w0.
  - by intros s o k _ w0.
  - intros e _. apply same_history_env.
  - done.
  - apply any_event_script.
Qed.

(** ** The retry loop, one turn at a time *)

Lemma sleep_ok_dec cfg : {sleep_ok cfg} + {~ sleep_ok cfg}.
Proof. unfold sleep_ok. apply Z_le_dec. Qed.

Lemma open_attempt_run cfg w :
  sleep_ok cfg -> open_attempt cfg w = (inr tt, before_attempt cfg w).
Proof.
  unfold before_attempt, open_attempt, sleep_ok, time_sleep, truthy_duration.
  intros Hs. destruct (kw_retry_sleep cfg) as [d|]; cbn [default from_option id] in *; [|done].
  assert (Hd : (d <? 0) = false) by lia.
  destruct (d =? 0); cbn; [done|]. unfold bind; cbn. by rewrite Hd.
Qed.

Lemma open_attempt_raises cfg w :
  ~ sleep_ok cfg -> open_attempt cfg w = (inl ValueError, before_attempt cfg w).
Proof.
  unfold before_attempt, open_attempt, sleep_ok, time_sleep, truthy_duration.
  intros Hs. destruct (kw_retry_sleep cfg) as [d|]; cbn [default from_option id] in *; [|lia].
  assert (Hd : (d <? 0) = true) by lia.
  assert (H0 : (d =? 0) = false) by lia.
  rewrite H0. unfold bind; cbn. by rewrite Hd.
Qed.

Lemma before_attempt_history cfg w : history (before_attempt cfg w) = history w.
Proof.
  unfold before_attempt, open_attempt, time_sleep.
  destruct (truthy_duration (kw_retry_sleep cfg)); [|done].
  unfold bind; cbn. by destruct (default 0 (kw_retry_sleep cfg) <? 0).
Qed.

Lemma before_attempt_registry cfg w :
  registry (before_attempt cfg w) = setRunStatus 0 true (key_of cfg) (registry w).
Proof.
  unfold before_attempt, open_attempt, time_sleep.
  destruct (truthy_duration (kw_retry_sleep cfg)); [|done].
  unfold bind; cbn. by destruct (default 0 (kw_retry_sleep cfg) <? 0).
Qed.

(** A turn of the loop is [open_attempt], then the rest. *)
Lemma retry_loop_open cmd cfg scripts n i prev w :
  retry_loop cmd cfg scripts (S n) i prev w
  = (open_attempt cfg >>
     let! r := _processRun cmd cfg (scripts i) in
     let! status := gets (getRunStatus (key_of cfg)) in
     let! timedout := gets (getRunTimeout default_key) in
     record (mkAttempt r status timedout) >>
     if status =? 0 then
       when (negb (kw_silent cfg)) (emit (LogSucceeded (PyStr.join " " cmd))) >>
       ret (Some r)
     else if timedout : bool then
       emit (LogFailed (PyStr.join " " cmd)) >> ret (Some r)
     else
       emit (LogWillRetry (Z.of_nat n) (PyStr.join " " cmd)) >>
       retry_loop cmd cfg scripts n (S i) (Some r)) w.
Proof. cbn [retry_loop]. unfold open_attempt. by rewrite bind_assoc. Qed.

(** A negative [retry_sleep] ends the call in its first turn, before any
    attempt: [time.sleep] raises and nothing catches it. *)
Lemma retry_loop_sleep_raises cmd cfg scripts n i prev w :
  ~ sleep_ok cfg ->
  retry_loop cmd cfg scripts (S n) i prev w = (inl ValueError, before_attempt cfg w).
Proof.
  intros Hs. rewrite retry_loop_open.
  by apply bind_raise, open_attempt_raises.
Qed.

Lemma retry_loop_turn cmd cfg scripts n i prev w r w2 :
  sleep_ok cfg ->
  _processRun cmd cfg (scripts i) (before_attempt cfg w) = (inr r, w2) ->
  let a := observe cfg r w2 in
  let w3 := recorded a w2 in
  retry_loop cmd cfg scripts (S n) i prev w =
    if att_status a =? 0 then
      (inr (Some r),
       if kw_silent cfg then w3 else logged (LogSucceeded (PyStr.join " " cmd)) w3)
    else if att_timedout a then
      (inr (Some r), logged (LogFailed (PyStr.join " " cmd)) w3)
    else
      retry_loop cmd cfg scripts n (S i) (Some r)
        (logged (LogWillRetry (Z.of_nat n) (PyStr.join " " cmd)) w3).
Proof.
  intros Hs E a w3. subst a w3.
  rewrite retry_loop_open, (bind_run _ _ _ _ _ (open_attempt_run cfg w Hs)).
  rewrite (bind_run _ _ _ _ _ E).
  unfold observe, recorded, logged. cbn.
  destruct (getRunStatus (key_of cfg) (registry w2) =? 0);
    destruct (kw_silent cfg); cbn; try reflexivity;
    destruct (getRunTimeout default_key (registry w2)); reflexivity.
Qed.

Lemma last_ret_cons prev a new :
  last_ret prev (a :: new) = last_ret (Some (att_ret a)) new.
Proof. unfold last_ret. rewrite last_cons. by destruct (last new). Qed.

(** What every run of the loop looks like in the ghost history: at most [n]
    attempts, all but the last one retried, and when turns are left over the
    last one was final. *)
Lemma retry_loop_spec cmd cfg scripts n :
  keyed cfg -> sleep_ok cfg ->
  forall i prev w, exists new w',
    retry_loop cmd cfg scripts n i prev w = (inr (last_ret prev new), w')
    /\ history w' = history w ++ new
    /\ (length new <= n)%nat
    /\ (forall j a, new !! j = Some a -> (S j < length new)%nat -> retried a)
    /\ ((length new < n)%nat -> exists a, last new = Some a /\ final a).
Proof.
  intros Hk Hso. induction n as [|n IH]; intros i prev w.
  - exists [], w. cbn. rewrite app_nil_r.
    split; [done|]. split; [done|]. split; [lia|]. split.
    + intros j a Hj. by rewrite lookup_nil in Hj.
    + lia.
  - destruct (total_processRun1 cmd cfg (scripts i) Hk (before_attempt cfg w))
      as (r & w2 & E).
    pose proof (processRun1_history cmd cfg (scripts i) (before_attempt cfg w)) as Hh.
    rewrite E, before_attempt_history in Hh. cbn in Hh.
    rewrite (retry_loop_turn _ _ _ _ _ _ _ _ _ Hso E).
    set (a := observe cfg r w2).
    destruct (att_status a =? 0) eqn:Hs; [|destruct (att_timedout a) eqn:Ht].
    + exists [a]. eexists. split; [reflexivity|].
      split; [by destruct (kw_silent cfg); cbn; rewrite Hh|].
      split; [cbn; lia|]. split.
      * intros j b _ Hlt. cbn in Hlt. lia.
      * intros _. exists a. split; [done|]. left. by apply Z.eqb_eq.
    + exists [a]. eexists. split; [reflexivity|].
      split; [by cbn; rewrite Hh|].
      split; [cbn; lia|]. split.
      * intros j b _ Hlt. cbn in Hlt. lia.
      * intros _. exists a. split; [done|]. by right.
    + match goal with
      | |- context [retry_loop _ _ _ n (S i) (Some r) ?w3] =>
          destruct (IH (S i) (Some r) w3) as (new & w' & E' & Hh' & Hlen & Hmid & Hlast)
      end.
      exists (a :: new), w'. rewrite last_ret_cons. split; [exact E'|].
      split; [rewrite Hh'; cbn; rewrite Hh; by rewrite <- app_assoc|].
      split; [cbn; lia|]. split.
      * intros [|j] b Hj Hlt; cbn in Hj, Hlt.
        -- injection Hj as <-. split; [by apply Z.eqb_neq|done].
        -- apply (Hmid j b Hj). lia.
      * intros Hlt. cbn in Hlt. destruct Hlast as (b & Hb & Hfin); [lia|].
        exists b. split; [|done]. destruct new as [|c new]; [done|].
        by rewrite last_cons_cons.
Qed.

(** With a negative [retry_sleep] the call makes no attempt and returns
    nothing: it raises [ValueError] from its first turn, or
    [UnboundLocalError] when it has no turn. *)
Lemma processRun_sleep_raises cmd cfg scripts w :
  ~ sleep_ok cfg ->
  exists e w', processRun cmd cfg scripts w = (inl e, w') /\ history w' = history w.
Proof.
  intros Hs. unfold processRun.
  destruct (Z.to_nat (default 3 (kw_retry (with_process_key cfg)))) as [|n].
  - by exists UnboundLocalError, w.
  - exists ValueError, (before_attempt (with_process_key cfg) w). split.
    + by apply bind_raise, retry_loop_sleep_raises.
    + apply before_attempt_history.
Qed.

(** What every call looks like in the ghost history. *)
Lemma processRun_spec cmd cfg scripts w :
  exists new w' res,
    processRun cmd cfg scripts w = (res, w')
    /\ history w' = history w ++ new
    /\ (length new <= Z.to_nat (default 3%Z (kw_retry cfg)))%nat
    /\ (forall j a, new !! j = Some a -> (S j < length new)%nat -> retried a)
    /\ ((length new < Z.to_nat (default 3%Z (kw_retry cfg)))%nat -> new <> [] ->
        exists a, last new = Some a /\ final a)
    /\ match last new with
       | Some a => res = inr (att_ret a)
       | None => exists e, res = inl e
       end.
Proof.
  destruct (sleep_ok_dec cfg) as [Hs|Hs].
  - unfold processRun.
    destruct (retry_loop_spec cmd (with_process_key cfg) scripts
                (Z.to_nat (default 3 (kw_retry (with_process_key cfg))))
                (keyed_with_process_key cfg) Hs 0%nat None w)
      as (new & w' & E & Hh & Hlen & Hmid & Hlast).
    rewrite (bind_run _ _ _ _ _ E). unfold last_ret.
    exists new, w'.
    exists (match last new with
            | Some a => inr (att_ret a)
            | None => inl UnboundLocalError
            end).
    split; [by destruct (last new)|]. split; [exact Hh|]. split; [exact Hlen|].
    split; [exact Hmid|]. split; [intros Hlt _; by apply Hlast|].
    destruct (last new); [done|by eexists].
  - destruct (processRun_sleep_raises cmd cfg scripts w Hs) as (e & w' & E & Hh).
    exists [], w', (inl e). rewrite app_nil_r.
    split; [exact E|]. split; [exact Hh|]. split; [cbn; lia|].
    split; [intros j a Hj; by rewrite lookup_nil in Hj|].
    split; [done|by eexists].
Qed.

(** ** C2: a timeout ends the call *)

(** C2.  In every call to [processRun], an attempt after which
    [getRunTimeout()] reads true is the last attempt of the call, and the
    call returns the pair that attempt returned, however many retries were
    left. *)
Theorem processRun_timeout_is_final cmd cfg scripts w res w' new j a :
  processRun cmd cfg scripts w = (res, w') ->
  history w' = history w ++ new ->
  new !! j = Some a ->
  att_timedout a = true ->
  S j = length new /\ res = inr (att_ret a).
Proof.
  intros Hrun Hhist Hj Ht.
  destruct (processRun_spec cmd cfg scripts w)
    as (new0 & w0 & res0 & E & Hh0 & _ & Hmid & _ & Hres).
  rewrite E in Hrun. injection Hrun as -> ->.
  rewrite Hhist in Hh0. apply app_inv_head in Hh0. subst new0.
  assert (Hlt : (j < length new)%nat) by (eapply lookup_lt_Some; eauto).
  assert (Hlast : S j = length new).
  { destruct (decide (S j < length new)%nat) as [Hlt'|]; [|lia].
    destruct (Hmid j a Hj Hlt') as [_ Hf]. congruence. }
  split; [exact Hlast|].
  assert (Ha : last new = Some a).
  { rewrite last_lookup. replace (pred (length new)) with j by lia. exact Hj. }
  by rewrite Ha in Hres.
Qed.

Lemma processRun_timeout_is_final_witness :
  1%nat = length [att_timeout]
  /\ fst (processRun ["sleep"; "99"] cfg_timeout (fun _ => sc_timeout) init_world)
     = inr (att_ret att_timeout).
Proof.
  apply (processRun_timeout_is_final ["sleep"; "99"] cfg_timeout
           (fun _ => sc_timeout) init_world _
           (snd (processRun ["sleep"; "99"] cfg_timeout (fun _ => sc_timeout) init_world))
           [att_timeout] 0%nat att_timeout).
  - apply surjective_pairing.
  - vm_compute. reflexivity.
  - reflexivity.
  - reflexivity.
Defined.

(** ** Registry reads after registry writes *)

Lemma getRunStatus_setRunStatus s o k r :
  getRunStatus k (setRunStatus s o k r)
  = if o then s else Z.lor (getRunStatus k r) s.
Proof. unfold getRunStatus, setRunStatus. cbn. by rewrite lookup_insert_eq. Qed.

Lemma getRunStatus_setRunStatus_ne s o k k' r :
  k <> k' -> getRunStatus k' (setRunStatus s o k r) = getRunStatus k' r.
Proof. intros Hne. unfold getRunStatus, setRunStatus. cbn. by rewrite lookup_insert_ne. Qed.

(** ** C1: retries are used up by a command that keeps failing *)

Section AlwaysFailing.

Variables (cmd : list string) (cfg : Config) (scripts : nat -> Script).

Hypothesis cfg_keyed : keyed cfg.
Hypothesis cfg_sleep_ok : sleep_ok cfg.

(** A condition on the registry that holds when the call starts and that
    each attempt hands on, such as: no kill was requested. *)
Variable Inv : Registry -> Prop.

Hypothesis attempts_fail : forall i w0,
  Inv (registry w0) ->
  let w1 := snd (_processRun cmd cfg (scripts i) (before_attempt cfg w0)) in
  Inv (registry w1)
  /\ getRunStatus (key_of cfg) (registry w1) <> 0
  /\ getRunTimeout default_key (registry w1) = false.

Lemma retry_loop_all_fail n :
  forall i prev w, Inv (registry w) -> exists new w',
    retry_loop cmd cfg scripts n i prev w = (inr (last_ret prev new), w')
    /\ history w' = history w ++ new
    /\ length new = n
    /\ Forall retried new.
Proof.
  induction n as [|n IH]; intros i prev w HI.
  - exists [], w. cbn. by rewrite app_nil_r.
  - destruct (total_processRun1 cmd cfg (scripts i) cfg_keyed (before_attempt cfg w))
      as (r & w2 & E).
    pose proof (processRun1_history cmd cfg (scripts i) (before_attempt cfg w)) as Hh.
    pose proof (attempts_fail i w HI) as (HI2 & Hs & Ht).
    rewrite E in Hh, HI2, Hs, Ht. cbn in Hh, HI2, Hs, Ht.
    rewrite before_attempt_history in Hh.
    rewrite (retry_loop_turn _ _ _ _ _ _ _ _ _ cfg_sleep_ok E).
    set (a := observe cfg r w2).
    assert (Hsa : (att_status a =? 0) = false) by (by apply Z.eqb_neq).
    assert (Hta : att_timedout a = false) by exact Ht.
    rewrite Hsa, Hta.
    match goal with
    | |- context [retry_loop _ _ _ n (S i) (Some r) ?w3] =>
        destruct (IH (S i) (Some r) w3 HI2) as (new & w' & E' & Hh' & Hlen & Hall)
    end.
    exists (a :: new), w'. rewrite last_ret_cons. split; [exact E'|].
    split; [rewrite Hh'; cbn; rewrite Hh; by rewrite <- app_assoc|].
    split; [cbn; lia|].
    constructor; [|done]. split; [by apply Z.eqb_neq|done].
Qed.

End AlwaysFailing.


Lemma sc_exit1_fails (w0 : World) :
  fresh_or_failed (registry w0) ->
  let w1 := snd (_processRun ["false"] (with_process_key cfg_two_retries) sc_exit1
                   (before_attempt (with_process_key cfg_two_retries) w0)) in
  fresh_or_failed (registry w1)
  /\ getRunStatus (key_of cfg_two_retries) (registry w1) <> 0
  /\ getRunTimeout default_key (registry w1) = false.
Proof.
  destruct w0 as [r t tr h]. cbn [registry]. intros [->| ->].
  - split; [right; vm_compute; reflexivity|]. split; vm_compute; congruence.
  - split; [right; vm_compute; reflexivity|]. split; vm_compute; congruence.
Defined.


Example processRun_two_failures :
  fst (processRun ["false"] cfg_two_retries (fun _ => sc_exit1) init_world)
    = inr (Lines [], Some "boom")
  /\ history (snd (processRun ["false"] cfg_two_retries (fun _ => sc_exit1) init_world))
     = [att_boom; att_boom].
Proof. split; vm_compute; reflexivity. Qed.


(** ** What the loop itself writes *)

Section RetryFrame.

Variables (cmd : list string) (cfg : Config) (scripts : nat -> Script).

Variable R : World -> World -> Prop.
Hypothesis R_refl : forall w, R w w.
Hypothesis R_trans : forall w1 w2 w3, R w1 w2 -> R w2 w3 -> R w1 w3.
Hypothesis R_emit : forall a, preserves R (emit a).
Hypothesis R_record : forall a, preserves R (record a).
Hypothesis R_reset : preserves R (modify (setRunStatus 0 true (key_of cfg))).
Hypothesis R_attempt : forall i, preserves R (_processRun cmd cfg (scripts i)).

Lemma preserves_retry_loop n :
  forall i prev, preserves R (retry_loop cmd cfg scripts n i prev).
Proof.
  induction n as [|n IH]; intros i prev; cbn [retry_loop].
  - by apply preserves_ret.
  - repeat first
      [ apply IH | apply R_attempt | apply R_reset | apply R_emit | apply R_record
      | apply (preserves_ret R R_refl) | apply (preserves_gets R R_refl)
      | apply (preserves_raise R R_refl)
      | apply (preserves_when R R_refl)
      | apply (preserves_bind R R_trans); [|intros ?]
      | match goal with
        | |- preserves R (time_sleep _) => unfold time_sleep
        | |- preserves R (if ?b then _ else _) => destruct b
        end ].
Qed.

End RetryFrame.

Lemma same_flags_refl w : same_flags w w.
Proof. by split. Qed.

Lemma same_flags_trans w1 w2 w3 : same_flags w1 w2 -> same_flags w2 w3 -> same_flags w1 w3.
Proof. intros [H1 H2] [H3 H4]. split; congruence. Qed.

(** With no other thread at work, an attempt leaves both tables alone. *)
Lemma processRun1_same_flags cmd cfg sc :
  script_allowed no_event sc = true ->
  preserves same_flags (_processRun cmd cfg sc).
Proof.
  intros Hq.
  apply preserves_processRun1 with (allowed := no_event) (own := fun _ => True);
    try done; try (by intros ? w0); try (by intros ? ? ? ? w0).
  apply same_flags_trans.
Qed.

Lemma flags_kept_refl w : flags_kept w w.
Proof. by split. Qed.

Lemma flags_kept_trans w1 w2 w3 : flags_kept w1 w2 -> flags_kept w2 w3 -> flags_kept w1 w3.
Proof. intros [H1 H2] [H3 H4]. split; intros k Hk; auto. Qed.

Lemma getRunKilled_setRunKilled k k' r :
  getRunKilled k' (setRunKilled true k r)
  = if decide (k = k') then true else getRunKilled k' r.
Proof.
  unfold getRunKilled, setRunKilled. cbn. rewrite lookup_insert.
  by destruct (decide (k = k')).
Qed.

Lemma getRunTimeout_setRunTimeout k k' r :
  getRunTimeout k' (setRunTimeout true k r)
  = if decide (k = k') then true else getRunTimeout k' r.
Proof.
  unfold getRunTimeout, setRunTimeout. cbn. rewrite lookup_insert.
  by destruct (decide (k = k')).
Qed.

Lemma flags_kept_env e : preserves flags_kept (env_step e).
Proof.
  intros w. destruct e as [key| |c k0]; unfold env_step.
  - unfold modify. cbn [snd]. split; cbn [registry]; intros k Hk; [exact Hk|].
    rewrite getRunKilled_setRunKilled. by destruct (decide (key = k)).
  - destruct (timer w) as [[c k0]|]; [|apply flags_kept_refl].
    unfold _kill, bind, set_timer, emit, modify. cbn [snd registry].
    split; cbn [registry]; intros k Hk; [|exact Hk].
    rewrite getRunTimeout_setRunTimeout. by destruct (decide (default_key = k)).
  - unfold _kill, bind, emit, modify. cbn [snd registry].
    split; cbn [registry]; intros k Hk; [|exact Hk].
    rewrite getRunTimeout_setRunTimeout. by destruct (decide (default_key = k)).
Qed.

Lemma preserves_flags_kept_processRun1 cmd cfg sc :
  preserves flags_kept (_processRun cmd cfg sc).
Proof.
  apply preserves_processRun1 with (allowed := any_event) (own := fun _ => True).
  - apply flags_kept_refl.
  - apply flags_kept_trans.
  - by intros a w0.
  - by intros w0.
  - by intros t w0.
  - by intros s o k _ w0.
  - intros e _. apply flags_kept_env.
  - done.
  - apply any_event_script.
Qed.

(** Nothing in a call to [processRun], the timer and the other threads
    included, clears a timeout flag or a kill flag. *)
Lemma processRun_flags_never_cleared cmd cfg scripts w :
  flags_kept w (snd (processRun cmd cfg scripts w)).
Proof.
  unfold processRun.
  assert (Hloop : forall n i prev,
            preserves flags_kept (retry_loop cmd (with_process_key cfg) scripts n i prev)).
  { intros n. apply preserves_retry_loop.
    - apply flags_kept_refl.
    - apply flags_kept_trans.
    - by intros a w0.
    - by intros a w0.
    - by intros w0.
    - intros i. apply preserves_flags_kept_processRun1. }
  specialize (Hloop (Z.to_nat (default 3 (kw_retry (with_process_key cfg)))) 0%nat None w).
  unfold bind.
  destruct (retry_loop _ _ _ _ _ _ w) as [[e|[r|]] w0]; exact Hloop.
Qed.

(** ** C7: the timeout flag is shared by all run keys *)

(** C7, the code at the failing input.  A run with key "k2", three retries
    and no timeout of its own, whose command exits with status 1 each time:
    on a fresh registry it makes three attempts; after a run with key "k1"
    timed out it makes one, because [_kill] and [processRun] call
    [setRunTimeout()] and [getRunTimeout()] without the key. *)
Theorem timeout_of_other_key_stops_retries :
  attempts init_world
    (snd (processRun ["false"] cfg_k2 (fun _ => sc_exit1) init_world)) = 3%nat
  /\ getRunTimeout "k2" (registry after_k1_timeout) = false
  /\ getRunTimeout default_key (registry after_k1_timeout) = true
  /\ attempts after_k1_timeout
       (snd (processRun ["false"] cfg_k2 (fun _ => sc_exit1) after_k1_timeout)) = 1%nat.
Proof. repeat split; vm_compute; reflexivity. Qed.

(** The same for every later call, whatever its key: once the timeout flag
    of the default key is up, a call makes one attempt and no more. *)
Lemma stale_timeout_allows_one_attempt cmd cfg scripts w :
  getRunTimeout default_key (registry w) = true ->
  1 <= default 3 (kw_retry cfg) ->
  sleep_ok cfg ->
  attempts w (snd (processRun cmd cfg scripts w)) = 1%nat.
Proof.
  intros Hto Hretry Hsleep. unfold processRun, attempts.
  set (cfg' := with_process_key cfg).
  destruct (Z.to_nat (default 3 (kw_retry cfg'))) as [|n] eqn:Hn.
  { cbn [kw_retry cfg' with_process_key] in Hn. lia. }
  destruct (total_processRun1 cmd cfg' (scripts 0%nat) (keyed_with_process_key cfg)
              (before_attempt cfg' w))
    as (r & w2 & E).
  pose proof (processRun1_history cmd cfg' (scripts 0%nat) (before_attempt cfg' w)) as Hh.
  rewrite E, before_attempt_history in Hh. cbn [snd] in Hh.
  assert (Hto2 : getRunTimeout default_key (registry w2) = true).
  { pose proof (preserves_flags_kept_processRun1 cmd cfg' (scripts 0%nat)) as Hkept.
    specialize (Hkept (before_attempt cfg' w)). rewrite E in Hkept.
    apply Hkept. by rewrite before_attempt_registry. }
  assert (Hloop : exists wF a,
            retry_loop cmd cfg' scripts (S n) 0%nat None w = (inr (Some r), wF)
            /\ history wF = history w2 ++ [a]).
  { rewrite (retry_loop_turn cmd cfg' scripts _ _ _ _ _ _ Hsleep E).
    unfold observe. cbn [att_status att_timedout]. rewrite Hto2.
    destruct (getRunStatus (key_of cfg') (registry w2) =? 0);
      [destruct (kw_silent cfg')|]; eexists _, _; split; reflexivity. }
  destruct Hloop as (wF & a & EF & HF).
  rewrite (bind_run _ _ _ _ _ EF). cbn [snd ret].
  rewrite HF, Hh, length_app. cbn [length]. lia.
Qed.

(** ** Running [processWait] *)

Lemma apply_filter_run cfg output w :
  apply_filter cfg output w = (inr (filtered cfg output), w).
Proof.
  unfold apply_filter, filtered. destruct (kw_filter cfg) as [ml|]; [|done].
  by rewrite _filterOutput_keep_unmatched.
Qed.

Lemma report_value cfg status output w :
  fst (report cfg status output w) = inr (returned cfg status output).
Proof.
  unfold report, returned.
  destruct (kw_log_output cfg); destruct (status =? 0); cbn [orb negb when];
    unfold bind; cbn; rewrite ?apply_filter_run; reflexivity.
Qed.

Lemma conclude_total cfg status output : total (conclude cfg status output).
Proof.
  unfold conclude. destruct ((status =? 0) || kw_ignore_status cfg);
    (apply total_bind; [apply total_modify|intros _; apply total_ret]).
Qed.

Lemma env_step_run e w : env_step e w = (inr tt, snd (env_step e w)).
Proof.
  destruct e as [k| |c k0]; [done| |done]. unfold env_step.
  by destruct (timer w) as [[c k0]|].
Qed.

Lemma env_step_killed e key w :
  passes [] key (REnv e) = true ->
  getRunKilled key (registry (snd (env_step e w))) = getRunKilled key (registry w).
Proof.
  destruct e as [k| |c k0]; cbn [passes]; intros Hp.
  - unfold env_step, modify. cbn [snd registry]. rewrite getRunKilled_setRunKilled.
    destruct (decide (k = key)) as [->|]; [|done].
    by rewrite String.eqb_refl in Hp.
  - unfold env_step. by destruct (timer w) as [[c k0]|].
  - done.
Qed.

Lemma getOutput_loop_passes patterns key pre rest :
  forall lines w,
    forallb (passes patterns key) pre = true ->
    getRunKilled key (registry w) = false ->
    exists w1,
      _getOutput_loop patterns key (pre ++ rest) lines w
      = _getOutput_loop patterns key rest (lines ++ lines_of pre) w1
      /\ getRunKilled key (registry w1) = false.
Proof.
  induction pre as [|ev pre IH]; intros lines w Hall Hk.
  - exists w. cbn. by rewrite app_nil_r.
  - cbn [forallb] in Hall. apply andb_prop in Hall as [Hev Hrest].
    destruct ev as [e| |line|x]; cbn [app _getOutput_loop lines_of flat_map].
    + rewrite (bind_run _ _ _ _ _ (env_step_run e w)).
      apply IH; [done|]. rewrite env_step_killed; [done|].
      by destruct e.
    + unfold bind at 1, gets at 1. cbn [fst snd]. rewrite Hk. by apply IH.
    + unfold bind at 1, gets at 1. cbn [fst snd]. rewrite Hk.
      cbn [passes] in Hev. apply andb_prop in Hev as [Ht Hm].
      rewrite Ht. cbn [negb]. apply negb_true_iff in Hm. rewrite Hm.
      destruct (IH (lines ++ [PyStr.rstrip line]) w Hrest Hk) as (w1 & E & Hk1).
      exists w1. split; [|done]. rewrite E. by rewrite <- app_assoc.
    + discriminate.
Qed.

(** ** C4: a pattern match ends the reading *)

Lemma getOutput_first_match sc patterns key w pre line post :
  out_events sc = pre ++ ReadLine line :: post ->
  forallb (passes (pattern_list patterns) key) pre = true ->
  getRunKilled key (registry w) = false ->
  PyStr.truthy line = true ->
  any_match (pattern_list patterns) (PyStr.rstrip line) = true ->
  exists w1,
    _getOutput sc patterns key w
    = (inr (lines_of pre ++ [PyStr.rstrip line], true), w1).
Proof.
  intros Hev Hpre Hk Ht Hm. unfold _getOutput. rewrite Hev.
  destruct (getOutput_loop_passes (pattern_list patterns) key pre
              (ReadLine line :: post) [] w Hpre Hk) as (w1 & E & Hk1).
  exists w1. rewrite E. cbn [_getOutput_loop app].
  unfold bind, gets. cbn [fst snd]. rewrite Hk1, Ht, Hm. reflexivity.
Qed.

(** The tail of [processWait] once the status is known to be 0. *)
Lemma processWait_tail_ok t cfg output w :
  exists w',
    (when t (set_timer None >> emit CancelTimer) >>
     let! status := deref (Some 0) in
     let! output := report cfg status output in
     conclude cfg status output) w
    = (inr (Lines (returned cfg 0 output), None), w')
    /\ trace w' = trace w
                  ++ (if t then [CancelTimer] else [])
                  ++ (if kw_log_output cfg
                      then [program_output (filtered cfg output)] else [])
    /\ registry w' = setRunStatus 0 false (key_of cfg) (registry w).
Proof.
  unfold returned, report, conclude, deref.
  destruct t; destruct (kw_log_output cfg);
    cbn [when orb negb Z.eqb]; unfold bind; cbn;
    rewrite ?apply_filter_run; cbn; eexists; (split; [reflexivity|]); cbn;
    rewrite <- ?app_assoc, ?app_nil_r; split; reflexivity.
Qed.

(** C4, amended.  When the read loop meets, before any kill request for the
    run key and before any exception or end of file, a first line whose
    right-trimmed text matches a pattern, [_getOutput] returns the
    right-trimmed lines read up to and including that line with the match
    flag set; [processWait] then closes the stream, terminates the child
    without waiting for it, cancels the timer, calls [setRunStatus(0, key)]
    without [overwrite] and returns these lines and no error, the lines
    having gone through the filter when [log_output] is set.  The status of
    the run key reads 0 afterwards when it read 0 at the end of the reading;
    a failure recorded during the reading, as by a timer that fired before
    the match, is kept. *)
Theorem processWait_stops_at_first_match t cfg sc w pre line post :
  out_events sc = pre ++ ReadLine line :: post ->
  forallb (passes (pattern_list (kw_patterns cfg)) (key_of cfg)) pre = true ->
  getRunKilled (key_of cfg) (registry w) = false ->
  PyStr.truthy line = true ->
  any_match (pattern_list (kw_patterns cfg)) (PyStr.rstrip line) = true ->
  let captured := lines_of pre ++ [PyStr.rstrip line] in
  exists w1 w',
    _getOutput sc (kw_patterns cfg) (key_of cfg) w = (inr (captured, true), w1)
    /\ processWait t cfg sc w
       = (inr (Lines (if kw_log_output cfg then filtered cfg captured else captured),
               None), w')
    /\ trace w' = trace w1 ++ [CloseStdout; Terminate]
                  ++ (if t then [CancelTimer] else [])
                  ++ (if kw_log_output cfg
                      then [program_output (filtered cfg captured)] else [])
    /\ registry w' = setRunStatus 0 false (key_of cfg) (registry w1)
    /\ (getRunStatus (key_of cfg) (registry w1) = 0 ->
        getRunStatus (key_of cfg) (registry w') = 0).
Proof.
  intros Hev Hpre Hk Ht Hm captured.
  destruct (getOutput_first_match sc (kw_patterns cfg) (key_of cfg) w pre line post
              Hev Hpre Hk Ht Hm) as (w1 & Hread).
  fold captured in Hread.
  set (w2 := logged Terminate (logged CloseStdout w1)).
  destruct (processWait_tail_ok t cfg captured w2) as (w' & E & Htr & Hreg).
  exists w1, w'. split; [exact Hread|]. split; [|split; [|split]].
  - unfold processWait, try_except, processWait_try.
    rewrite (bind_run _ _ _ _ _ Hread).
    rewrite (bind_run (emit CloseStdout) _ w1 tt (logged CloseStdout w1) eq_refl).
    rewrite (bind_run (settle true sc) _ _ (Some 0) w2 eq_refl).
    rewrite E. unfold returned. cbn [Z.eqb negb]. by rewrite orb_false_r.
  - rewrite Htr. subst w2. cbn [trace logged]. by rewrite <- !app_assoc.
  - rewrite Hreg. reflexivity.
  - intros H0. rewrite Hreg. subst w2. cbn [registry logged].
    rewrite getRunStatus_setRunStatus, H0. reflexivity.
Qed.

Lemma processWait_stops_at_first_match_witness :
  exists w1 w',
    _getOutput sc_match (kw_patterns cfg_match) (key_of cfg_match) init_world
    = (inr (["DEBUG warming up"; "done 42"], true), w1)
    /\ processWait false cfg_match sc_match init_world
       = (inr (Lines ["DEBUG warming up"; "done 42"], None), w')
    /\ trace w' = trace w1 ++ [CloseStdout; Terminate] ++ [] ++ []
    /\ registry w' = setRunStatus 0 false (key_of cfg_match) (registry w1)
    /\ (getRunStatus (key_of cfg_match) (registry w1) = 0 ->
        getRunStatus (key_of cfg_match) (registry w') = 0).
Proof.
  apply (processWait_stops_at_first_match false cfg_match sc_match init_world
           [ReadLine "DEBUG warming up "; PollEmpty] "done 42 " [ReadLine "late"]);
    reflexivity.
Defined.

(** C4 as stated fails when [log_output] and [filter] are both given: the
    lines produced up to the match are "DEBUG warming up" and "done 42", the
    returned list has lost the first. *)
Lemma processWait_match_returns_filtered_lines :
  fst (_getOutput sc_match (kw_patterns cfg_match_logged) (key_of cfg_match_logged)
         init_world)
  = inr (["DEBUG warming up"; "done 42"], true)
  /\ fst (processWait false cfg_match_logged sc_match init_world)
     = inr (Lines ["done 42"], None)
  /\ fst (processRun ["bench"] cfg_match_logged (fun _ => sc_match) init_world)
     = inr (Lines ["done 42"], None).
Proof. repeat split; vm_compute; reflexivity. Qed.

(** The caveat of C4 at work: the timer fires, then the child prints a
    matching line.  [processWait] returns the line and no error, but the
    status [_kill] wrote stays, and [processRun] logs a failure. *)
Example processWait_match_after_timer_fired :
  fst (processRun ["bench"] cfg_match_timed (fun _ => sc_timer_then_match) init_world)
  = inr (Lines ["done 1"], None)
  /\ history (snd (processRun ["bench"] cfg_match_timed (fun _ => sc_timer_then_match)
                    init_world))
     = [mkAttempt (Lines ["done 1"], None) 1 true]
  /\ trace (snd (processRun ["bench"] cfg_match_timed (fun _ => sc_timer_then_match)
                  init_world))
     = [LogRunning "bench"; Popen ["bench"]; StartTimer 30; KillPg; LogTimedOut "bench";
        CloseStdout; Terminate; CancelTimer; LogFailed "bench"].
Proof. repeat split; vm_compute; reflexivity. Qed.

(** ** C5: a kill request is a success *)

Lemma env_step_keeps_killed e key w :
  getRunKilled key (registry w) = true ->
  getRunKilled key (registry (snd (env_step e w))) = true.
Proof. intros Hk. by apply (flags_kept_env e w). Qed.

(** The read loop stops at the first test of a raised kill flag. *)
Lemma getOutput_loop_killed patterns key events :
  forall lines w,
    getRunKilled key (registry w) = true ->
    fst (_getOutput_loop patterns key events lines w) = inr (lines, false).
Proof.
  induction events as [|ev rest IH]; intros lines w Hk; [done|].
  destruct ev as [e| |line|x]; cbn [_getOutput_loop].
  - rewrite (bind_run _ _ _ _ _ (env_step_run e w)).
    apply IH. by apply env_step_keeps_killed.
  - unfold bind, gets. cbn [fst snd]. by rewrite Hk.
  - unfold bind, gets. cbn [fst snd]. by rewrite Hk.
  - unfold bind, gets. cbn [fst snd]. by rewrite Hk.
Qed.

(** So does the loop around [ps.wait]: [status] stays unassigned. *)
Lemma wait_loop_killed exit events :
  forall w,
    getRunKilled default_key (registry w) = true ->
    fst (wait_loop exit events w) = inr None.
Proof.
  induction events as [|ev rest IH]; intros w Hk; cbn [wait_loop].
  - unfold bind, gets. cbn [fst snd]. by rewrite Hk.
  - destruct ev as [e| |x].
    + rewrite (bind_run _ _ _ _ _ (env_step_run e w)).
      apply IH. by apply env_step_keeps_killed.
    + unfold bind, gets. cbn [fst snd]. by rewrite Hk.
    + unfold bind, gets. cbn [fst snd]. by rewrite Hk.
Qed.

(** A kill request for the default key.  Both loops stop at their first
    test of a raised kill flag: the read loop tests the flag of the run key,
    the wait loop and the test after it the flag of the default key.  When
    reading ended without a match, no exception was raised and the kill flag
    of the default key is up after the wait loop, [processWait] logs the
    kill, terminates the child, writes status 0 for the run key and returns
    the captured lines and no error, the lines having gone through the
    filter when [log_output] is set. *)
Lemma processWait_default_key_kill_is_success t cfg sc w captured w1 st w2 :
  _getOutput sc (kw_patterns cfg) (key_of cfg) w = (inr (captured, false), w1) ->
  wait_loop (exit_status sc) (wait_events sc) (logged CloseStdout w1) = (inr st, w2) ->
  getRunKilled default_key (registry w2) = true ->
  (exists w',
     processWait t cfg sc w
     = (inr (Lines (if kw_log_output cfg then filtered cfg captured else captured),
             None), w')
     /\ trace w' = trace w2 ++ [LogKilledAtUserRequest; Terminate]
                   ++ (if t then [CancelTimer] else [])
                   ++ (if kw_log_output cfg
                       then [program_output (filtered cfg captured)] else [])
     /\ registry w' = setRunStatus 0 false (key_of cfg) (registry w2)
     /\ (getRunStatus (key_of cfg) (registry w2) = 0 ->
         getRunStatus (key_of cfg) (registry w') = 0))
  /\ (forall patterns events lines w0,
        getRunKilled (key_of cfg) (registry w0) = true ->
        fst (_getOutput_loop patterns (key_of cfg) events lines w0) = inr (lines, false))
  /\ (forall exit events w0,
        getRunKilled default_key (registry w0) = true ->
        fst (wait_loop exit events w0) = inr None).
Proof.
  intros Hread Hwait Hk.
  split; [|split; [intros; by apply getOutput_loop_killed
                  |intros; by apply wait_loop_killed]].
  set (w3 := logged Terminate (logged LogKilledAtUserRequest w2)).
  destruct (processWait_tail_ok t cfg captured w3) as (w' & E & Htr & Hreg).
  exists w'. split; [|split; [|split]].
  - unfold processWait, try_except, processWait_try.
    rewrite (bind_run _ _ _ _ _ Hread).
    rewrite (bind_run (emit CloseStdout) _ w1 tt (logged CloseStdout w1) eq_refl).
    assert (Hsettle : settle false sc (logged CloseStdout w1) = (inr (Some 0), w3)).
    { unfold settle. rewrite (bind_run _ _ _ _ _ Hwait).
      unfold bind at 1, gets at 1. cbn [fst snd]. rewrite Hk. reflexivity. }
    rewrite (bind_run _ _ _ _ _ Hsettle).
    rewrite E. unfold returned. cbn [Z.eqb negb]. by rewrite orb_false_r.
  - rewrite Htr. subst w3. cbn [trace logged]. by rewrite <- !app_assoc.
  - exact Hreg.
  - intros H0. rewrite Hreg. subst w3. cbn [registry logged].
    rewrite getRunStatus_setRunStatus, H0. reflexivity.
Qed.

(** Even then the captured lines are not always the returned ones: with
    [log_output] and [filter] the line captured before the kill request is
    filtered away. *)
Example processWait_kill_returns_filtered_lines :
  fst (_getOutput sc_killed (kw_patterns cfg_logged_filter) (key_of cfg_logged_filter)
         init_world)
  = inr (["DEBUG step 1"], false)
  /\ fst (processWait false cfg_logged_filter sc_killed init_world)
     = inr (Lines [], None)
  /\ fst (processRun ["bench"] cfg_logged_filter (fun _ => sc_killed) init_world)
     = inr (Lines [], None).
Proof. repeat split; vm_compute; reflexivity. Qed.

(** A kill request for any other key does not end the wait: the loop around
    [ps.wait] goes on until the child exits by itself and hands back its
    exit status, and the test after the loop finds no kill. *)
Lemma settle_overlooks_keyed_kill sc w :
  getRunKilled default_key (registry w) = false ->
  forallb unseen_by_wait (wait_events sc) = true ->
  exists w',
    settle false sc w = (inr (Some (exit_status sc)), w')
    /\ getRunKilled default_key (registry w') = false.
Proof.
  intros Hk Hall. unfold settle.
  assert (Hloop : forall events w0 exit,
            getRunKilled default_key (registry w0) = false ->
            forallb unseen_by_wait events = true ->
            exists w',
              wait_loop exit events w0 = (inr (Some exit), w')
              /\ getRunKilled default_key (registry w') = false).
  { clear. induction events as [|ev rest IH]; intros w0 exit Hk Hall; cbn [wait_loop].
    - unfold bind, gets. cbn [fst snd]. rewrite Hk. by eexists.
    - cbn [forallb] in Hall. apply andb_prop in Hall as [Hev Hrest].
      destruct ev as [[k| |c k]| |x]; try discriminate.
      + rewrite (bind_run _ _ _ _ _ (env_step_run (RequestKill k) w0)).
        apply IH; [|done].
        cbn [env_step modify snd registry]. rewrite getRunKilled_setRunKilled.
        cbn [unseen_by_wait] in Hev. apply negb_true_iff in Hev.
        destruct (decide (k = default_key)) as [->|]; [|done].
        by rewrite String.eqb_refl in Hev.
      + unfold bind at 1, gets at 1. cbn [fst snd]. rewrite Hk.
        rewrite (bind_run (emit PsWait) _ _ tt _ eq_refl).
        by apply IH. }
  destruct (Hloop (wait_events sc) w (exit_status sc) Hk Hall) as (w' & E & Hk').
  exists w'. rewrite (bind_run _ _ _ _ _ E). unfold bind, gets. cbn [fst snd].
  by rewrite Hk'.
Qed.

(** C5, the code at the failing input.  The same child and the same kill
    request, once for the default key and once for the key "k1" of the run.
    With the default key the call does what the claim says: the kill is
    logged, the child terminated, the captured line returned, one attempt.
    With "k1" the read loop stops ([getRunKilled(process_key)]) but the loop
    around [ps.wait] and the test after it read [getRunKilled()], the flag
    of the default key: nothing is logged, the child is not terminated but
    waited for, its exit status 1 makes the attempt a failure, the attempt
    is retried twice (each time the read loop stops at once and the child is
    waited for again), and the call returns no line and an error.  And when
    the flag of the default key is raised during the run with key "k1", it
    is the read loop that does not stop: the line printed after the request
    is read and returned too. *)
Theorem kill_request_for_keyed_run_is_overlooked :
  fst (processRun ["bench"] default_config (fun _ => sc_killed) init_world)
  = inr (Lines ["DEBUG step 1"], None)
  /\ trace (snd (processRun ["bench"] default_config (fun _ => sc_killed) init_world))
     = [LogRunning "bench"; Popen ["bench"]; CloseStdout;
        LogKilledAtUserRequest; Terminate; LogSucceeded "bench"]
  /\ _getOutput sc_killed_k1 (kw_patterns cfg_k1_plain) "k1" init_world
     = (inr (["DEBUG step 1"], false),
        mkWorld (setRunKilled true "k1" empty_registry) None [] [])
  /\ fst (processRun ["bench"] cfg_k1_plain (fun _ => sc_killed_k1) init_world)
     = inr (Lines [], Some "")
  /\ history (snd (processRun ["bench"] cfg_k1_plain (fun _ => sc_killed_k1) init_world))
     = [mkAttempt (Lines [], Some "DEBUG step 1") 1 false;
        mkAttempt (Lines [], Some "") 1 false;
        mkAttempt (Lines [], Some "") 1 false]
  /\ trace (snd (processRun ["bench"] cfg_k1_plain (fun _ => sc_killed_k1) init_world))
     = [LogRunning "bench"; Popen ["bench"]; CloseStdout; PsWait; PsWait;
        LogExitStatus 1; LogProgramOutput "DEBUG step 1"; LogWillRetry 2 "bench";
        LogRunning "bench"; Popen ["bench"]; CloseStdout; PsWait; PsWait;
        LogExitStatus 1; LogProgramOutput ""; LogWillRetry 1 "bench";
        LogRunning "bench"; Popen ["bench"]; CloseStdout; PsWait; PsWait;
        LogExitStatus 1; LogProgramOutput ""; LogWillRetry 0 "bench"]
  /\ fst (processRun ["bench"] cfg_k1_plain (fun _ => sc_killed) init_world)
     = inr (Lines ["DEBUG step 1"; "never read"], None).
Proof. repeat split; vm_compute; reflexivity. Qed.

(** ** C10: an exception inside [processWait] leaves the status alone *)

Lemma same_statuses_trans w1 w2 w3 :
  same_statuses w1 w2 -> same_statuses w2 w3 -> same_statuses w1 w3.
Proof. unfold same_statuses. congruence. Qed.

Lemma same_statuses_env e : timer_quiet e = true -> preserves same_statuses (env_step e).
Proof. destruct e; [by intros _ w|discriminate|discriminate]. Qed.

Lemma processWait_except_run e w :
  processWait_except e w = (inr (Lines [], Some (exn_text e)), logged (exn_log e) w).
Proof. by destruct e. Qed.

(** When the [try] block of [processWait] raises, the main thread has
    written no status yet: every [setRunStatus] of [processWait] comes after
    the last statement that can raise. *)
Lemma processWait_try_raise_statuses t cfg sc w e w_e :
  script_allowed timer_quiet sc = true ->
  processWait_try t cfg sc w = (inl e, w_e) ->
  same_statuses w w_e.
Proof.
  intros Hq Hraise. apply andb_prop in Hq as [Hr Hw].
  unfold processWait_try in Hraise.
  pose proof (preserves_getOutput_loop same_statuses (fun _ => eq_refl)
                same_statuses_trans timer_quiet same_statuses_env
                (pattern_list (kw_patterns cfg)) (key_of cfg) (out_events sc) [] Hr w)
    as H1.
  fold (_getOutput sc (kw_patterns cfg) (key_of cfg)) in H1.
  destruct (_getOutput sc (kw_patterns cfg) (key_of cfg) w) as [[e1|[out m]] w1] eqn:E1.
  { rewrite (bind_raise _ _ _ _ _ E1) in Hraise. by injection Hraise as _ <-. }
  rewrite (bind_run _ _ _ _ _ E1) in Hraise.
  rewrite (bind_run (emit CloseStdout) _ w1 tt (logged CloseStdout w1) eq_refl) in Hraise.
  pose proof (preserves_settle same_statuses (fun _ => eq_refl) same_statuses_trans
                timer_quiet (fun _ _ => eq_refl) same_statuses_env m sc Hw
                (logged CloseStdout w1)) as H2.
  destruct (settle m sc (logged CloseStdout w1)) as [[e2|st] w2] eqn:E2.
  { rewrite (bind_raise _ _ _ _ _ E2) in Hraise. injection Hraise as _ <-.
    unfold same_statuses in *. cbn in *. congruence. }
  rewrite (bind_run _ _ _ _ _ E2) in Hraise.
  assert (Hw3 : exists w3, when t (set_timer None >> emit CancelTimer) w2 = (inr tt, w3)
                           /\ registry w3 = registry w2).
  { destruct t; eexists; split; reflexivity. }
  destruct Hw3 as (w3 & E3 & Hreg3).
  rewrite (bind_run _ _ _ _ _ E3) in Hraise.
  destruct st as [s|].
  - exfalso. cbn [deref] in Hraise.
    rewrite (bind_run (ret s) _ w3 s w3 eq_refl) in Hraise.
    pose proof (report_value cfg s out w3) as Hrep.
    destruct (report cfg s out w3) as [[e4|out'] w4] eqn:E4; [discriminate|].
    rewrite (bind_run _ _ _ _ _ E4) in Hraise.
    destruct (conclude_total cfg s out' w4) as (r & w5 & E5). congruence.
  - cbn [deref] in Hraise. unfold bind at 1, raise at 1 in Hraise.
    injection Hraise as _ <-.
    unfold same_statuses in *. cbn in *. congruence.
Qed.

Lemma spawn_prefix_run cmd cfg w :
  keyed cfg ->
  spawn_prefix cmd cfg w
  = (inr (truthy_duration (kw_timeout cfg)), snd (spawn_prefix cmd cfg w))
  /\ registry (snd (spawn_prefix cmd cfg w)) = registry w
  /\ history (snd (spawn_prefix cmd cfg w)) = history w.
Proof.
  intros Hk. unfold spawn_prefix, kwargs_process_key. rewrite Hk.
  by destruct (kw_silent cfg); destruct (truthy_duration (kw_timeout cfg)).
Qed.

Lemma processRun1_blocking cmd cfg sc w :
  keyed cfg ->
  kw_non_blocking cfg = false ->
  kw_async cfg = false ->
  spawn_raises sc = None ->
  _processRun cmd cfg sc w
  = processWait (truthy_duration (kw_timeout cfg)) cfg sc (snd (spawn_prefix cmd cfg w)).
Proof.
  intros Hk Hnb Has Hsp.
  unfold _processRun, _processRun_try, _Popen, spawn_prefix, try_except,
    kwargs_process_key.
  rewrite Hnb, Has, Hsp, Hk.
  destruct (kw_silent cfg); destruct (truthy_duration (kw_timeout cfg));
    cbn [negb when]; unfold bind; cbn;
    match goal with
    | |- context [processWait ?t cfg sc ?w0] =>
        destruct (total_processWait t cfg sc w0) as (r & w' & E); rewrite E
    end; reflexivity.
Qed.




(** ** C6: exceptions are turned into error texts *)

Lemma processRun1_spawn_raises cmd cfg sc w e :
  keyed cfg ->
  spawn_raises sc = Some e ->
  fst (_processRun cmd cfg sc w) = inr (Lines [], Some (exn_text e))
  /\ registry (snd (_processRun cmd cfg sc w))
     = setRunStatus 1 false (key_of cfg) (registry w).
Proof.
  intros Hk Hsp.
  unfold _processRun, _processRun_try, _Popen, _processRun_except, try_except,
    kwargs_process_key.
  rewrite Hsp, Hk.
  by destruct (kw_silent cfg); destruct (kw_non_blocking cfg); destruct e.
Qed.

(** [_processRun] called on its own, without [process_key]: when the spawn
    raises, the handler logs the exception and line 87 raises [KeyError]
    to the caller.  [processRun] never calls it so. *)
Lemma processRun1_needs_process_key cmd cfg sc w e :
  kw_process_key cfg = None ->
  spawn_raises sc = Some e ->
  fst (_processRun cmd cfg sc w) = inl KeyError_process_key.
Proof.
  intros Hk Hsp.
  unfold _processRun, _processRun_try, _Popen, _processRun_except, try_except,
    kwargs_process_key.
  rewrite Hsp, Hk.
  by destruct (kw_silent cfg); destruct (kw_non_blocking cfg); destruct e.
Qed.

Lemma processWait_raise_text t cfg sc w e w_e :
  processWait_try t cfg sc w = (inl e, w_e) ->
  fst (processWait t cfg sc w) = inr (Lines [], Some (exn_text e)).
Proof.
  intros Hraise. unfold processWait, try_except. rewrite Hraise.
  by rewrite processWait_except_run.
Qed.

Lemma last_ret_nonempty prev new :
  new <> [] -> exists a, last new = Some a /\ last_ret prev new = Some (att_ret a).
Proof.
  intros Hne. unfold last_ret. destruct (last new) as [a|] eqn:E.
  - by exists a.
  - by apply last_None in E.
Qed.

Lemma processRun_returns_pair cmd cfg scripts w :
  1 <= default 3 (kw_retry cfg) ->
  sleep_ok cfg ->
  exists r w', processRun cmd cfg scripts w = (inr r, w').
Proof.
  intros Hretry Hsleep. unfold processRun.
  destruct (retry_loop_spec cmd (with_process_key cfg) scripts
              (Z.to_nat (default 3 (kw_retry (with_process_key cfg))))
              (keyed_with_process_key cfg) Hsleep 0%nat None w)
    as (new & w' & E & _ & Hlen & _ & Hlast).
  cbn [kw_retry with_process_key] in *.
  assert (Hne : new <> []).
  { intros ->. destruct Hlast as (a & Ha & _); [cbn; lia|]. done. }
  destruct (last_ret_nonempty None new Hne) as (a & _ & Hret).
  rewrite Hret in E. exists (att_ret a), w'. by rewrite (bind_run _ _ _ _ _ E).
Qed.

Lemma processRun_no_turn cmd cfg scripts w :
  default 3 (kw_retry cfg) <= 0 ->
  processRun cmd cfg scripts w = (inl UnboundLocalError, w).
Proof.
  intros Hretry. unfold processRun. cbn [kw_retry with_process_key].
  replace (Z.to_nat (default 3 (kw_retry cfg))) with 0%nat by lia.
  reflexivity.
Qed.

Lemma processRun_negative_sleep cmd cfg scripts w :
  1 <= default 3 (kw_retry cfg) ->
  default 0 (kw_retry_sleep cfg) < 0 ->
  processRun cmd cfg scripts w
  = (inl ValueError, before_attempt (with_process_key cfg) w).
Proof.
  intros Hretry Hsleep. unfold processRun.
  destruct (Z.to_nat (default 3 (kw_retry (with_process_key cfg)))) as [|n] eqn:Hn.
  { cbn [kw_retry with_process_key] in Hn. lia. }
  apply bind_raise, retry_loop_sleep_raises. unfold sleep_ok.
  cbn [kw_retry_sleep with_process_key]. lia.
Qed.



(** ** C8: the loop resets the status of its key and writes nothing else *)

Lemma same_but_status_registry key w w' :
  registry w' = registry w -> same_but_status key w w'.
Proof. intros H. unfold same_but_status, same_flags. by rewrite H. Qed.

Lemma same_but_status_refl key w : same_but_status key w w.
Proof. by apply same_but_status_registry. Qed.

Lemma same_but_status_trans key w1 w2 w3 :
  same_but_status key w1 w2 -> same_but_status key w2 w3 -> same_but_status key w1 w3.
Proof.
  intros [F1 S1] [F2 S2]. split; [by eapply same_flags_trans|].
  intros k Hk. by rewrite S2, S1.
Qed.

Lemma same_but_status_write key s o :
  preserves (same_but_status key) (modify (setRunStatus s o key)).
Proof.
  intros w. split; [by split|]. intros k Hk. cbn [snd modify registry].
  by apply getRunStatus_setRunStatus_ne.
Qed.

Lemma no_event_timer_quiet sc :
  script_allowed no_event sc = true -> script_allowed timer_quiet sc = true.
Proof.
  unfold script_allowed. intros H. apply andb_prop in H as [Hr Hw].
  apply andb_true_intro. split.
  - rewrite forallb_forall in Hr |- *. intros ev Hev. specialize (Hr ev Hev).
    by destruct ev.
  - rewrite forallb_forall in Hw |- *. intros ev Hev. specialize (Hw ev Hev).
    by destruct ev.
Qed.

(** With no other thread at work, a call writes the status of its own key
    and nothing else in the registry. *)
Lemma processRun_same_but_status cmd cfg scripts w :
  (forall i, script_allowed no_event (scripts i) = true) ->
  same_but_status (key_of cfg) w (snd (processRun cmd cfg scripts w)).
Proof.
  intros Hq. unfold processRun.
  assert (Hloop : forall n i prev,
            preserves (same_but_status (key_of cfg))
              (retry_loop cmd (with_process_key cfg) scripts n i prev)).
  { intros n. apply preserves_retry_loop.
    - apply same_but_status_refl.
    - apply same_but_status_trans.
    - intros a w0. by apply same_but_status_registry.
    - intros a w0. by apply same_but_status_registry.
    - apply same_but_status_write.
    - intros i.
      apply preserves_processRun1
        with (allowed := no_event) (own := fun k => k = key_of cfg).
      + apply same_but_status_refl.
      + apply same_but_status_trans.
      + intros a w0. by apply same_but_status_registry.
      + intros w0. by apply same_but_status_registry.
      + intros t w0. by apply same_but_status_registry.
      + intros s o k ->. apply same_but_status_write.
      + discriminate.
      + reflexivity.
      + apply Hq. }
  specialize (Hloop (Z.to_nat (default 3 (kw_retry (with_process_key cfg)))) 0%nat None w).
  unfold bind.
  destruct (retry_loop _ _ _ _ _ _ w) as [[e|[r|]] w0]; exact Hloop.
Qed.

(** [ps.wait] hands back the exit status of the child and nothing else. *)
Lemma wait_loop_status exit events :
  forall w st w', wait_loop exit events w = (inr (Some st), w') -> st = exit.
Proof.
  induction events as [|ev rest IH]; intros w st w' H; cbn [wait_loop] in H.
  - unfold bind, gets in H. cbn [fst snd] in H.
    destruct (getRunKilled default_key (registry w)); [discriminate|].
    cbn in H. by injection H as <- _.
  - destruct ev as [e| |x].
    + rewrite (bind_run _ _ _ _ _ (env_step_run e w)) in H. by apply IH in H.
    + unfold bind at 1, gets at 1 in H. cbn [fst snd] in H.
      destruct (getRunKilled default_key (registry w)); [discriminate|].
      rewrite (bind_run (emit PsWait) _ _ tt _ eq_refl) in H. by apply IH in H.
    + unfold bind at 1, gets at 1 in H. cbn [fst snd] in H.
      destruct (getRunKilled default_key (registry w)); discriminate.
Qed.

Lemma settle_status matched sc w st w' :
  settle matched sc w = (inr (Some st), w') -> st = 0 \/ st = exit_status sc.
Proof.
  unfold settle. destruct matched.
  - intros H. left. cbn in H. by injection H as <- _.
  - destruct (wait_loop (exit_status sc) (wait_events sc) w) as [[e|o] w1] eqn:E.
    + rewrite (bind_raise _ _ _ _ _ E). discriminate.
    + rewrite (bind_run _ _ _ _ _ E). unfold bind at 1, gets at 1. cbn [fst snd].
      destruct (getRunKilled default_key (registry w1)).
      * intros H. left. cbn in H. by injection H as <- _.
      * intros H. right. cbn in H. injection H as -> _.
        by apply wait_loop_status in E.
Qed.

(** A wait that no timer disturbs and whose child exits with status 0 keeps
    a status that reads success: it writes 0 without [overwrite], or
    nothing. *)
Lemma processWait_clean_status t cfg sc w :
  script_allowed timer_quiet sc = true ->
  exit_status sc = 0 ->
  getRunStatus (key_of cfg) (registry w) = 0 ->
  getRunStatus (key_of cfg) (registry (snd (processWait t cfg sc w))) = 0.
Proof.
  intros Hq Hexit H0. unfold processWait, try_except.
  destruct (processWait_try t cfg sc w) as [[e|r] w1] eqn:E.
  - pose proof (processWait_try_raise_statuses _ _ _ _ _ _ Hq E) as Hsame.
    rewrite processWait_except_run. cbn [snd registry logged].
    unfold getRunStatus in *. by rewrite Hsame.
  - cbn [snd]. apply andb_prop in Hq as [Hr Hw]. unfold processWait_try in E.
    pose proof (preserves_getOutput_loop same_statuses (fun _ => eq_refl)
                  same_statuses_trans timer_quiet same_statuses_env
                  (pattern_list (kw_patterns cfg)) (key_of cfg) (out_events sc) [] Hr w)
      as H1.
    fold (_getOutput sc (kw_patterns cfg) (key_of cfg)) in H1.
    destruct (_getOutput sc (kw_patterns cfg) (key_of cfg) w) as [[e1|[out m]] w2] eqn:E1.
    { rewrite (bind_raise _ _ _ _ _ E1) in E. discriminate. }
    rewrite (bind_run _ _ _ _ _ E1) in E.
    rewrite (bind_run (emit CloseStdout) _ w2 tt (logged CloseStdout w2) eq_refl) in E.
    pose proof (preserves_settle same_statuses (fun _ => eq_refl) same_statuses_trans
                  timer_quiet (fun _ _ => eq_refl) same_statuses_env m sc Hw
                  (logged CloseStdout w2)) as H2.
    destruct (settle m sc (logged CloseStdout w2)) as [[e2|st] w3] eqn:E2.
    { rewrite (bind_raise _ _ _ _ _ E2) in E. discriminate. }
    rewrite (bind_run _ _ _ _ _ E2) in E.
    assert (H3 : getRunStatus (key_of cfg) (registry w3) = 0).
    { unfold getRunStatus, same_statuses in *. cbn in *. congruence. }
    destruct st as [s|].
    + assert (s = 0) as -> by (destruct (settle_status _ _ _ _ _ E2); lia).
      destruct (processWait_tail_ok t cfg out w3) as (w' & Et & _ & Hreg).
      rewrite Et in E. injection E as _ <-.
      by rewrite Hreg, getRunStatus_setRunStatus, H3.
    + exfalso. destruct t; cbn in E; discriminate.
Qed.

Lemma processRun1_clean_status cmd cfg sc w :
  keyed cfg ->
  spawn_raises sc = None ->
  script_allowed timer_quiet sc = true ->
  exit_status sc = 0 ->
  getRunStatus (key_of cfg) (registry w) = 0 ->
  getRunStatus (key_of cfg) (registry (snd (_processRun cmd cfg sc w))) = 0.
Proof.
  intros Hk Hsp Hq Hexit H0.
  destruct (kw_non_blocking cfg) eqn:Hnb; [|destruct (kw_async cfg) eqn:Has].
  - unfold _processRun, _processRun_try, _Popen, try_except. rewrite Hnb, Hsp.
    by destruct (kw_silent cfg).
  - unfold _processRun, _processRun_try, _Popen, try_except, kwargs_process_key.
    rewrite Hnb, Has, Hsp, Hk.
    by destruct (kw_silent cfg); destruct (truthy_duration (kw_timeout cfg)).
  - rewrite processRun1_blocking by done. apply processWait_clean_status; try done.
    by destruct (spawn_prefix_run cmd cfg w Hk) as (_ & -> & _).
Qed.

Lemma processRun1_spawn_raises_fails cmd cfg sc w e :
  keyed cfg ->
  spawn_raises sc = Some e ->
  getRunStatus (key_of cfg) (registry (snd (_processRun cmd cfg sc w))) <> 0.
Proof.
  intros Hk Hsp. destruct (processRun1_spawn_raises cmd cfg sc w e Hk Hsp) as [_ ->].
  rewrite getRunStatus_setRunStatus. intros H. apply Z.lor_eq_0_iff in H. lia.
Qed.

Section ResetPerAttempt.

Variables (cmd : list string) (cfg : Config) (scripts : nat -> Script).

Hypothesis cfg_keyed : keyed cfg.
Hypothesis cfg_sleep_ok : sleep_ok cfg.
Hypothesis scripts_quiet : forall i, script_allowed no_event (scripts i) = true.

(** After [k] failed attempts, an attempt that exits cleanly is recorded
    with status 0, which takes the reset at the start of its turn: the
    attempt itself writes no status with [overwrite]. *)
Lemma retry_loop_reset k :
  forall n i prev w,
    (k < n)%nat ->
    getRunTimeout default_key (registry w) = false ->
    (forall j w0, (j < k)%nat ->
       getRunStatus (key_of cfg)
         (registry (snd (_processRun cmd cfg (scripts (i + j)%nat)
                           (before_attempt cfg w0)))) <> 0) ->
    spawn_raises (scripts (i + k)%nat) = None ->
    exit_status (scripts (i + k)%nat) = 0 ->
    exists new a w',
      retry_loop cmd cfg scripts n i prev w = (inr (Some (att_ret a)), w')
      /\ history w' = history w ++ new ++ [a]
      /\ length new = k
      /\ Forall retried new
      /\ att_status a = 0
      /\ getRunStatus (key_of cfg) (registry w') = 0.
Proof.
  induction k as [|k IH]; intros n i prev w Hn Hto Hfail Hsp Hexit;
    (destruct n as [|n]; [lia|]);
    destruct (total_processRun1 cmd cfg (scripts i) cfg_keyed (before_attempt cfg w))
      as (r & w2 & E);
    pose proof (processRun1_history cmd cfg (scripts i) (before_attempt cfg w)) as Hh;
    rewrite E, before_attempt_history in Hh; cbn [snd] in Hh;
    rewrite (retry_loop_turn _ _ _ _ _ _ _ _ _ cfg_sleep_ok E);
    set (a := observe cfg r w2).
  - rewrite Nat.add_0_r in Hsp, Hexit.
    assert (Hs : getRunStatus (key_of cfg) (registry w2) = 0).
    { pose proof (processRun1_clean_status cmd cfg (scripts i) (before_attempt cfg w)
                    cfg_keyed Hsp (no_event_timer_quiet _ (scripts_quiet i)) Hexit)
        as H.
      rewrite E in H. apply H. rewrite before_attempt_registry.
      by rewrite getRunStatus_setRunStatus. }
    assert (Hsa : (att_status a =? 0) = true) by (by apply Z.eqb_eq).
    rewrite Hsa. exists [], a. eexists. split; [reflexivity|].
    split; [by destruct (kw_silent cfg); cbn; rewrite Hh|].
    split; [done|]. split; [done|]. split; [exact Hs|].
    by destruct (kw_silent cfg).
  - assert (Hs : getRunStatus (key_of cfg) (registry w2) <> 0).
    { pose proof (Hfail 0%nat w ltac:(lia)) as H.
      rewrite Nat.add_0_r, E in H. exact H. }
    assert (Hto2 : getRunTimeout default_key (registry w2) = false).
    { pose proof (processRun1_same_flags cmd cfg (scripts i) (scripts_quiet i)
                    (before_attempt cfg w)) as [Hf _].
      rewrite E in Hf. cbn [snd] in Hf. unfold getRunTimeout. rewrite Hf.
      by rewrite before_attempt_registry. }
    assert (Hsa : (att_status a =? 0) = false) by (by apply Z.eqb_neq).
    assert (Hta : att_timedout a = false) by exact Hto2.
    rewrite Hsa, Hta.
    match goal with
    | |- context [retry_loop _ _ _ n (S i) (Some r) ?w3] =>
        destruct (IH n (S i) (Some r) w3) as (new & b & w' & E' & Hh' & Hlen & Hall & Hb & Hst)
    end.
    + lia.
    + exact Hto2.
    + intros j w0 Hj. replace (S i + j)%nat with (i + S j)%nat by lia.
      apply Hfail. lia.
    + by replace (S i + k)%nat with (i + S k)%nat by lia.
    + by replace (S i + k)%nat with (i + S k)%nat by lia.
    + exists (a :: new), b, w'. split; [exact E'|].
      split; [rewrite Hh'; cbn; rewrite Hh; by rewrite <- app_assoc|].
      split; [cbn; lia|]. split; [|done].
      constructor; [|done]. split; [exact Hs|exact Hto2].
Qed.

End ResetPerAttempt.



(** The run of the witness, attempt by attempt. *)
Example processRun_fail_then_pass :
  history (snd (processRun ["bench"] cfg_two_retries fail_then_pass world_failed))
  = [att_no_such_file; att_pass]
  /\ fst (processRun ["bench"] cfg_two_retries fail_then_pass world_failed)
     = inr (att_ret att_pass).
Proof. split; vm_compute; reflexivity. Qed.

(** * [WatchDog] *)

Lemma _runWatchdog_no_trigger once polls :
  existsb id polls = false ->
  _runWatchdog once polls = idle_turns (length polls).
Proof.
  induction polls as [|b polls IH]; [done|].
  cbn [existsb]. intros H. apply orb_false_elim in H as [Hb Hrest].
  unfold id in Hb. subst b. cbn [_runWatchdog length].
  by rewrite IH.
Qed.

Lemma _runWatchdog_first_trigger pre post :
  existsb id pre = false ->
  _runWatchdog true (pre ++ true :: post)
  = idle_turns (length pre) ++ [Condition true; ActionCall].
Proof.
  induction pre as [|b pre IH]; [done|].
  cbn [existsb]. intros H. apply orb_false_elim in H as [Hb Hrest].
  unfold id in Hb. subst b. cbn [_runWatchdog length app].
  by rewrite IH.
Qed.

Lemma action_calls_idle n : action_calls (idle_turns n) = 0%nat.
Proof. induction n as [|n IH]; [done|]. exact IH. Qed.

Lemma existsb_split (polls : list bool) :
  existsb id polls = true ->
  exists pre post, polls = pre ++ true :: post /\ existsb id pre = false.
Proof.
  induction polls as [|b polls IH]; [done|].
  destruct b.
  - intros _. by exists [], polls.
  - cbn [existsb]. intros H. destruct (IH H) as (pre & post & -> & Hpre).
    by exists (false :: pre), post.
Qed.

Lemma existsb_map {A} (f : A -> bool) (l : list A) :
  existsb id (map f l) = existsb f l.
Proof. induction l as [|x l IH]; [done|]. cbn. by rewrite IH. Qed.




(** * Further properties of the supervisor *)

(** ** A child that is left alone *)

Lemma getOutput_loop_plain patterns key events :
  forall lines w,
    forallb (plain_read patterns) events = true ->
    getRunKilled key (registry w) = false ->
    _getOutput_loop patterns key events lines w
    = (inr (lines ++ lines_of events, false), w).
Proof.
  induction events as [|ev rest IH]; intros lines w Hall Hk.
  - cbn. by rewrite app_nil_r.
  - cbn [forallb] in Hall. apply andb_prop in Hall as [Hev Hrest].
    destruct ev as [e| |line|x]; try discriminate;
      cbn [_getOutput_loop lines_of flat_map app];
      unfold bind at 1, gets at 1; cbn [fst snd]; rewrite Hk.
    + by apply IH.
    + cbn [plain_read] in Hev. apply andb_prop in Hev as [Ht Hm].
      apply negb_true_iff in Hm. rewrite Ht, Hm. cbn [negb].
      rewrite IH by done. by rewrite <- app_assoc.
Qed.

Lemma waited_logged n w : waited n (logged PsWait w) = waited (S n) w.
Proof. unfold waited, logged. cbn. by rewrite <- app_assoc. Qed.

Lemma wait_loop_plain exit events :
  forall w,
    forallb plain_wait events = true ->
    getRunKilled default_key (registry w) = false ->
    wait_loop exit events w = (inr (Some exit), waited (S (length events)) w).
Proof.
  induction events as [|ev rest IH]; intros w Hall Hk.
  - cbn [wait_loop]. unfold bind, gets. cbn [fst snd]. rewrite Hk. reflexivity.
  - cbn [forallb] in Hall. apply andb_prop in Hall as [Hev Hrest].
    destruct ev as [e| |x]; try discriminate.
    cbn [wait_loop]. unfold bind at 1, gets at 1. cbn [fst snd]. rewrite Hk.
    rewrite (bind_run (emit PsWait) _ w tt (logged PsWait w) eq_refl).
    rewrite IH by done. by rewrite waited_logged.
Qed.

Lemma report_run cfg status output w :
  exists w',
    report cfg status output w = (inr (returned cfg status output), w')
    /\ registry w'
       = (if status =? 0 then registry w
          else setRunStatus 1 false (key_of cfg) (registry w))
    /\ timer w' = timer w
    /\ history w' = history w.
Proof.
  unfold report, returned.
  destruct (kw_log_output cfg); destruct (status =? 0); cbn [orb negb when];
    unfold bind; cbn; rewrite ?apply_filter_run; cbn; eexists;
    (split; [reflexivity|]); by cbn.
Qed.

Lemma conclude_run cfg status output w :
  exists w',
    conclude cfg status output w
    = (inr (if (status =? 0) || kw_ignore_status cfg
            then (Lines output, None)
            else (Lines [], Some (PyStr.join PyStr.newline output))), w')
    /\ registry w'
       = setRunStatus (if (status =? 0) || kw_ignore_status cfg then 0 else 1)
           false (key_of cfg) (registry w)
    /\ timer w' = timer w
    /\ history w' = history w.
Proof.
  unfold conclude. destruct ((status =? 0) || kw_ignore_status cfg);
    eexists; (split; [reflexivity|]); by cbn.
Qed.

(** The run of [processWait] on a child that is left alone, with the
    registry and the timer it leaves. *)
Lemma processWait_plain_run t cfg sc w :
  forallb (plain_read (pattern_list (kw_patterns cfg))) (out_events sc) = true ->
  forallb plain_wait (wait_events sc) = true ->
  no_kill (key_of cfg) (registry w) ->
  exists w',
    processWait t cfg sc w = (inr (plain_result cfg sc), w')
    /\ registry w'
       = setRunStatus (if (exit_status sc =? 0) || kw_ignore_status cfg then 0 else 1)
           false (key_of cfg)
           (if exit_status sc =? 0 then registry w
            else setRunStatus 1 false (key_of cfg) (registry w))
    /\ timer w' = (if t then None else timer w)
    /\ history w' = history w.
Proof.
  intros Hr Hw [Hk Hk0].
  pose proof (getOutput_loop_plain _ (key_of cfg) _ [] w Hr Hk) as Hread.
  cbn [app] in Hread.
  set (w1 := logged CloseStdout w).
  pose proof (wait_loop_plain (exit_status sc) (wait_events sc) w1 Hw Hk0) as Hwait.
  set (w2 := waited (S (length (wait_events sc))) w1) in *.
  assert (Hsettle : settle false sc w1 = (inr (Some (exit_status sc)), w2)).
  { unfold settle. rewrite (bind_run _ _ _ _ _ Hwait).
    unfold bind, gets. cbn [fst snd]. subst w2. cbn [registry waited].
    subst w1. cbn [registry logged]. rewrite Hk0. reflexivity. }
  assert (Hcancel : exists w3,
            when t (set_timer None >> emit CancelTimer) w2 = (inr tt, w3)
            /\ registry w3 = registry w /\ timer w3 = (if t then None else timer w)
            /\ history w3 = history w).
  { destruct t; eexists; (split; [reflexivity|]); by cbn. }
  destruct Hcancel as (w3 & E3 & Hreg3 & Ht3 & Hh3).
  destruct (report_run cfg (exit_status sc) (lines_of (out_events sc)) w3)
    as (w4 & E4 & Hreg4 & Ht4 & Hh4).
  destruct (conclude_run cfg (exit_status sc)
              (returned cfg (exit_status sc) (lines_of (out_events sc))) w4)
    as (w5 & E5 & Hreg5 & Ht5 & Hh5).
  exists w5. split; [|split; [|split]].
  - unfold processWait, try_except, processWait_try, _getOutput.
    rewrite (bind_run _ _ _ _ _ Hread).
    rewrite (bind_run (emit CloseStdout) _ w tt w1 eq_refl).
    rewrite (bind_run _ _ _ _ _ Hsettle).
    rewrite (bind_run _ _ _ _ _ E3).
    cbn [deref]. rewrite (bind_run (ret (exit_status sc)) _ w3 _ w3 eq_refl).
    rewrite (bind_run _ _ _ _ _ E4). rewrite E5. reflexivity.
  - rewrite Hreg5, Hreg4, Hreg3. reflexivity.
  - by rewrite Ht5, Ht4.
  - by rewrite Hh5, Hh4.
Qed.

(** X1.  For a child that nothing matches, kills or interrupts,
    [processWait] returns every line it printed, right-trimmed and in order,
    and no error when the exit status is 0 or [ignore_status] is set, and
    the empty list with the lines joined by newlines as the error
    otherwise.  The filter has been applied to the lines when [log_output]
    is set or the exit status is not 0. *)
Theorem processWait_plain_child t cfg sc w :
  forallb (plain_read (pattern_list (kw_patterns cfg))) (out_events sc) = true ->
  forallb plain_wait (wait_events sc) = true ->
  no_kill (key_of cfg) (registry w) ->
  let output := lines_of (out_events sc) in
  let seen := if kw_log_output cfg || negb (exit_status sc =? 0)
              then filtered cfg output else output in
  fst (processWait t cfg sc w)
  = inr (if (exit_status sc =? 0) || kw_ignore_status cfg
         then (Lines seen, None)
         else (Lines [], Some (PyStr.join PyStr.newline seen))).
Proof.
  intros Hr Hw Hk output seen.
  destruct (processWait_plain_run t cfg sc w Hr Hw Hk) as (w' & E & _).
  rewrite E. reflexivity.
Qed.

Lemma processWait_plain_child_witness :
  fst (processWait false cfg_two_retries sc_exit1 init_world)
  = inr (Lines [], Some "boom").
Proof.
  apply (processWait_plain_child false cfg_two_retries sc_exit1 init_world);
    [reflexivity|reflexivity|by split].
Defined.

(** ** Calls whose first attempt succeeds, calls whose attempts all fail *)

Lemma spawn_prefix_no_kill cmd cfg key w :
  keyed cfg ->
  no_kill key (registry w) ->
  no_kill key (registry (snd (spawn_prefix cmd cfg (before_attempt cfg w)))).
Proof.
  intros Hkey Hk.
  destruct (spawn_prefix_run cmd cfg (before_attempt cfg w) Hkey) as (_ & -> & _).
  by rewrite before_attempt_registry.
Qed.

(** One attempt of a blocking run on a child that is left alone. *)
Lemma processRun1_plain cmd cfg sc w :
  keyed cfg ->
  kw_non_blocking cfg = false ->
  kw_async cfg = false ->
  plain_script (kw_patterns cfg) sc = true ->
  no_kill (key_of cfg) (registry w) ->
  exists w',
    _processRun cmd cfg sc (before_attempt cfg w) = (inr (plain_result cfg sc), w')
    /\ registry w'
       = setRunStatus (if (exit_status sc =? 0) || kw_ignore_status cfg then 0 else 1)
           false (key_of cfg)
           (if exit_status sc =? 0
            then setRunStatus 0 true (key_of cfg) (registry w)
            else setRunStatus 1 false (key_of cfg)
                   (setRunStatus 0 true (key_of cfg) (registry w))).
Proof.
  intros Hkey Hnb Has Hplain Hk. unfold plain_script in Hplain.
  apply andb_prop in Hplain as [Hplain Hw]. apply andb_prop in Hplain as [Hsp Hr].
  assert (Hsp' : spawn_raises sc = None) by (by destruct (spawn_raises sc)).
  rewrite processRun1_blocking by done.
  destruct (processWait_plain_run (truthy_duration (kw_timeout cfg)) cfg sc
              (snd (spawn_prefix cmd cfg (before_attempt cfg w))) Hr Hw
              (spawn_prefix_no_kill cmd cfg _ w Hkey Hk)) as (w' & E & Hreg & _).
  exists w'. split; [exact E|]. rewrite Hreg.
  destruct (spawn_prefix_run cmd cfg (before_attempt cfg w) Hkey) as (_ & -> & _).
  by rewrite before_attempt_registry.
Qed.



Section FailingRuns.

Variables (cmd : list string) (cfg : Config) (scripts : nat -> Script).
Variable Inv : Registry -> Prop.
Variable result : nat -> Result.

Hypothesis cfg_sleep_ok : sleep_ok cfg.
Hypothesis attempt_fails : forall i w0,
  Inv (registry w0) ->
  exists w1,
    _processRun cmd cfg (scripts i) (before_attempt cfg w0) = (inr (result i), w1)
    /\ Inv (registry w1)
    /\ getRunStatus (key_of cfg) (registry w1) = 1
    /\ getRunTimeout default_key (registry w1) = false.

Lemma retry_loop_failed_attempts n :
  forall i prev w,
    Inv (registry w) ->
    exists w',
      retry_loop cmd cfg scripts n i prev w
      = (inr (last_ret prev (failed_attempts result i n)), w')
      /\ history w' = history w ++ failed_attempts result i n.
Proof.
  induction n as [|n IH]; intros i prev w HI.
  - exists w. cbn. by rewrite app_nil_r.
  - destruct (attempt_fails i w HI) as (w2 & E & HI2 & Hs & Ht).
    pose proof (processRun1_history cmd cfg (scripts i) (before_attempt cfg w)) as Hh.
    rewrite E, before_attempt_history in Hh. cbn [snd] in Hh.
    rewrite (retry_loop_turn _ _ _ _ _ _ _ _ _ cfg_sleep_ok E).
    unfold observe. cbn [att_status att_timedout]. rewrite Hs, Ht. cbn [Z.eqb].
    match goal with
    | |- context [retry_loop _ _ _ n (S i) (Some (result i)) ?w3] =>
        destruct (IH (S i) (Some (result i)) w3 HI2) as (w' & E' & Hh')
    end.
    exists w'. unfold failed_attempts. cbn [seq map]. rewrite last_ret_cons.
    split; [exact E'|]. rewrite Hh'. cbn [history logged recorded].
    rewrite Hh. by rewrite <- app_assoc.
Qed.

End FailingRuns.

Lemma last_ret_failed_attempts prev result n :
  last_ret prev (failed_attempts result 0 (S n)) = Some (result n).
Proof.
  unfold last_ret, failed_attempts. rewrite seq_S, map_app. cbn [map].
  by rewrite last_snoc.
Qed.

Lemma processRun_failed_attempts cmd cfg scripts (Inv : Registry -> Prop) result w n :
  Z.to_nat (default 3 (kw_retry cfg)) = S n ->
  sleep_ok cfg ->
  Inv (registry w) ->
  (forall i w0,
     Inv (registry w0) ->
     exists w1,
       _processRun cmd (with_process_key cfg) (scripts i)
         (before_attempt (with_process_key cfg) w0) = (inr (result i), w1)
       /\ Inv (registry w1)
       /\ getRunStatus (key_of cfg) (registry w1) = 1
       /\ getRunTimeout default_key (registry w1) = false) ->
  exists w',
    processRun cmd cfg scripts w = (inr (result n), w')
    /\ history w' = history w ++ failed_attempts result 0 (S n).
Proof.
  intros Hn Hsleep HI Hfail. unfold processRun. cbn [kw_retry with_process_key]. rewrite Hn.
  destruct (retry_loop_failed_attempts cmd (with_process_key cfg) scripts Inv result
              Hsleep Hfail (S n) 0%nat None w HI) as (w' & E & Hh).
  rewrite last_ret_failed_attempts in E.
  exists w'. by rewrite (bind_run _ _ _ _ _ E).
Qed.





(** ** The shape of every call *)

(** X5.  No call makes more attempts than [retry] allows (none when [retry]
    is 0 or negative), and a call that returns has made at least one. *)
Theorem processRun_attempts_bounded cmd cfg scripts w :
  (attempts w (snd (processRun cmd cfg scripts w))
   <= Z.to_nat (default 3%Z (kw_retry cfg)))%nat
  /\ (forall r, fst (processRun cmd cfg scripts w) = inr r ->
                (1 <= attempts w (snd (processRun cmd cfg scripts w)))%nat).
Proof.
  unfold attempts.
  destruct (processRun_spec cmd cfg scripts w)
    as (new & w' & res & E & Hh & Hlen & _ & _ & Hres).
  rewrite E. cbn [fst snd]. rewrite Hh, length_app. split; [lia|].
  intros r ->. destruct new as [|a new]; [|cbn [length]; lia].
  by destruct Hres as [e He].
Qed.

(** X6.  In every call, an attempt after which the status of the run key
    reads 0 is the last attempt of the call, and the call returns the pair
    that attempt returned: a success is never retried. *)
Theorem processRun_success_is_final cmd cfg scripts w res w' new j a :
  processRun cmd cfg scripts w = (res, w') ->
  history w' = history w ++ new ->
  new !! j = Some a ->
  att_status a = 0 ->
  S j = length new /\ res = inr (att_ret a).
Proof.
  intros Hrun Hhist Hj Hs.
  destruct (processRun_spec cmd cfg scripts w)
    as (new0 & w0 & res0 & E & Hh0 & _ & Hmid & _ & Hres).
  rewrite E in Hrun. injection Hrun as -> ->.
  rewrite Hhist in Hh0. apply app_inv_head in Hh0. subst new0.
  assert (Hlt : (j < length new)%nat) by (eapply lookup_lt_Some; eauto).
  assert (Hlast : S j = length new).
  { destruct (decide (S j < length new)%nat) as [Hlt'|]; [|lia].
    destruct (Hmid j a Hj Hlt') as [Hne _]. congruence. }
  split; [exact Hlast|].
  assert (Ha : last new = Some a).
  { rewrite last_lookup. replace (pred (length new)) with j by lia. exact Hj. }
  by rewrite Ha in Hres.
Qed.

Lemma processRun_success_is_final_witness :
  1%nat = length [mkAttempt (Lines ["step 1"; "step 2"], None) 0 false]
  /\ fst (processRun ["bench"] cfg_two_retries (fun _ => sc_clean) init_world)
     = inr (Lines ["step 1"; "step 2"], None).
Proof.
  apply (processRun_success_is_final ["bench"] cfg_two_retries
           (fun _ => sc_clean) init_world _
           (snd (processRun ["bench"] cfg_two_retries (fun _ => sc_clean) init_world))
           [mkAttempt (Lines ["step 1"; "step 2"], None) 0 false] 0%nat
           (mkAttempt (Lines ["step 1"; "step 2"], None) 0 false)).
  - apply surjective_pairing.
  - vm_compute. reflexivity.
  - reflexivity.
  - reflexivity.
Defined.

Lemma processRun_attempts_bounded_witness :
  (attempts init_world
     (snd (processRun ["bench"] cfg_two_retries (fun _ => sc_clean) init_world))
   <= 2)%nat
  /\ (1 <= attempts init_world
             (snd (processRun ["bench"] cfg_two_retries (fun _ => sc_clean) init_world)))%nat.
Proof.
  destruct (processRun_attempts_bounded ["bench"] cfg_two_retries
              (fun _ => sc_clean) init_world) as [Hle Hge].
  split; [exact Hle|].
  apply (Hge (Lines ["step 1"; "step 2"], None)). vm_compute. reflexivity.
Defined.

(** ** Runs that do not wait: [async] and [non_blocking] *)

(** X7.  With its run key among the keyword arguments, as inside
    [processRun], an [async] run returns the handle as soon as the child is
    spawned and the timer armed, leaving the registry as it was; calling
    [processWait] on that handle then does and returns exactly what the
    same run without [async] does and returns. *)
Theorem async_then_wait_is_blocking cmd cfg sc w :
  kw_process_key cfg = Some (key_of cfg) ->
  kw_non_blocking cfg = false ->
  spawn_raises sc = None ->
  let t := truthy_duration (kw_timeout cfg) in
  exists w1,
    _processRun cmd (with_async true cfg) sc w = (inr (Handle t, None), w1)
    /\ registry w1 = registry w
    /\ timer w1 = (if t then Some (PyStr.join " " cmd, key_of cfg) else timer w)
    /\ processWait t cfg sc w1 = _processRun cmd (with_async false cfg) sc w.
Proof.
  intros Hkey Hnb Hsp t.
  exists (snd (spawn_prefix cmd cfg w)). split; [|split; [|split]].
  - unfold _processRun, _processRun_try, _Popen, spawn_prefix, try_except,
      kwargs_process_key.
    cbn [kw_silent kw_non_blocking kw_async kw_timeout kw_process_key with_async].
    rewrite Hnb, Hsp, Hkey. subst t.
    by destruct (kw_silent cfg); destruct (truthy_duration (kw_timeout cfg)).
  - by destruct (spawn_prefix_run cmd cfg w Hkey) as (_ & -> & _).
  - unfold spawn_prefix, kwargs_process_key. rewrite Hkey. subst t.
    by destruct (kw_silent cfg); destruct (truthy_duration (kw_timeout cfg)).
  - rewrite (processRun1_blocking cmd (with_async false cfg) sc w Hkey Hnb eq_refl Hsp).
    reflexivity.
Qed.

Lemma async_then_wait_is_blocking_witness :
  exists w1,
    _processRun ["bench"] (with_async true cfg_k1) sc_clean init_world
    = (inr (Handle true, None), w1)
    /\ registry w1 = registry init_world
    /\ timer w1 = Some ("bench", "k1")
    /\ processWait true cfg_k1 sc_clean w1
       = _processRun ["bench"] (with_async false cfg_k1) sc_clean init_world.
Proof.
  apply (async_then_wait_is_blocking ["bench"] cfg_k1 sc_clean init_world);
    reflexivity.
Defined.



(** ** What [_getOutput] returns *)

Lemma match_shape_cons patterns nline lines matched :
  any_match patterns nline = false ->
  match_shape patterns lines matched ->
  match_shape patterns (nline :: lines) matched.
Proof.
  intros Hn. unfold match_shape. destruct matched.
  - intros (init & l & -> & Hl & Hinit). exists (nline :: init), l.
    split; [done|]. split; [done|]. cbn [forallb]. unfold unmatched at 1.
    by rewrite Hn.
  - intros Hall. cbn [forallb]. unfold unmatched at 1. by rewrite Hn.
Qed.

Lemma getOutput_loop_shape patterns key events :
  forall acc w lines matched w1,
    _getOutput_loop patterns key events acc w = (inr (lines, matched), w1) ->
    exists pre post,
      events = pre ++ post
      /\ lines = acc ++ lines_of pre
      /\ match_shape patterns (lines_of pre) matched.
Proof.
  induction events as [|ev rest IH]; intros acc w lines matched w1 E.
  - cbn in E. injection E as <- <- _. exists [], []. cbn. by rewrite app_nil_r.
  - destruct ev as [e| |line|x]; cbn [_getOutput_loop] in E.
    + rewrite (bind_run _ _ _ _ _ (env_step_run e w)) in E.
      destruct (IH _ _ _ _ _ E) as (pre & post & -> & -> & Hshape).
      by exists (REnv e :: pre), post.
    + unfold bind at 1, gets at 1 in E. cbn [fst snd] in E.
      destruct (getRunKilled key (registry w)).
      * injection E as <- <- _. exists [], (PollEmpty :: rest). cbn.
        by rewrite app_nil_r.
      * destruct (IH _ _ _ _ _ E) as (pre & post & -> & -> & Hshape).
        by exists (PollEmpty :: pre), post.
    + unfold bind at 1, gets at 1 in E. cbn [fst snd] in E.
      destruct (getRunKilled key (registry w)).
      { injection E as <- <- _. exists [], (ReadLine line :: rest). cbn.
        by rewrite app_nil_r. }
      destruct (PyStr.truthy line); cbn [negb] in E.
      2:{ injection E as <- <- _. exists [], (ReadLine line :: rest). cbn.
          by rewrite app_nil_r. }
      destruct (any_match patterns (PyStr.rstrip line)) eqn:Hm.
      * injection E as <- <- _. exists [ReadLine line], rest. cbn.
        split; [done|]. split; [done|]. by exists [], (PyStr.rstrip line).
      * destruct (IH _ _ _ _ _ E) as (pre & post & -> & -> & Hshape).
        exists (ReadLine line :: pre), post. split; [done|].
        split; [cbn; by rewrite <- app_assoc|].
        cbn [lines_of flat_map app]. by apply match_shape_cons.
    + unfold bind at 1, gets at 1 in E. cbn [fst snd] in E.
      destruct (getRunKilled key (registry w)); [|discriminate].
      injection E as <- <- _. exists [], (ReadRaises x :: rest). cbn.
      by rewrite app_nil_r.
Qed.

(** X9.  Whenever [_getOutput] returns, the lines it returns are the
    right-trimmed lines of an initial stretch of what the child printed, in
    the order printed, and the match flag tells exactly whether the last
    returned line matches a pattern: no earlier line does, and with the flag
    down no line does. *)
Theorem getOutput_lines_in_order sc patterns key w lines matched w1 :
  _getOutput sc patterns key w = (inr (lines, matched), w1) ->
  exists pre post,
    out_events sc = pre ++ post
    /\ lines = lines_of pre
    /\ match_shape (pattern_list patterns) lines matched.
Proof.
  intros E. unfold _getOutput in E.
  destruct (getOutput_loop_shape _ _ _ _ _ _ _ _ E) as (pre & post & Hev & -> & Hshape).
  by exists pre, post.
Qed.

Lemma getOutput_lines_in_order_witness :
  exists pre post,
    out_events sc_match = pre ++ post
    /\ ["DEBUG warming up"; "done 42"] = lines_of pre
    /\ match_shape (pattern_list (kw_patterns cfg_match))
         ["DEBUG warming up"; "done 42"] true.
Proof.
  apply (getOutput_lines_in_order sc_match (kw_patterns cfg_match) default_key
           init_world _ _ init_world).
  vm_compute. reflexivity.
Defined.

(** ** More on [_filterOutput] *)

Lemma contains_empty line : PyStr.contains "" line = true.
Proof. by destruct line. Qed.

(** X10.  The edges of the filter list: with no filter substring the
    output is returned as it is, and when the empty string is among the
    filter substrings every line is removed, since the empty string occurs
    in every line. *)
Theorem filterOutput_edge_lists (output match_list : list string) :
  _filterOutput output [] = Some output
  /\ (In "" match_list -> _filterOutput output match_list = Some []).
Proof.
  rewrite !_filterOutput_keep_unmatched. unfold keep_unmatched. split.
  - f_equal. induction output as [|x l IH]; [done|].
    cbn [List.filter]. unfold line_matches at 1. cbn [existsb negb].
    by rewrite IH.
  - intros Hin. f_equal.
    assert (Hall : forall line, line_matches match_list line = true).
    { intros line. unfold line_matches. apply existsb_exists.
      exists "". split; [exact Hin|apply contains_empty]. }
    induction output as [|x l IH]; [done|].
    cbn [List.filter]. rewrite Hall. cbn [negb]. exact IH.
Qed.

Lemma filterOutput_edge_lists_witness :
  _filterOutput ["a"; "b"] [] = Some ["a"; "b"]
  /\ _filterOutput ["a"; "b"] ["DEBUG"; ""] = Some [].
Proof.
  destruct (filterOutput_edge_lists ["a"; "b"] ["DEBUG"; ""]) as [H1 H2].
  split; [exact H1|]. apply H2. right. by left.
Defined.

(** X11.  Filtering is idempotent and only removes: what [_filterOutput]
    returns is a sublist of its input that contains no filter substring, and
    filtering it again returns it unchanged. *)
Theorem filterOutput_idempotent (output match_list out' : list string) :
  _filterOutput output match_list = Some out' ->
  _filterOutput out' match_list = Some out'
  /\ sublist out' output
  /\ Forall (fun line => line_matches match_list line = false) out'.
Proof.
  rewrite !_filterOutput_keep_unmatched. intros [= <-]. unfold keep_unmatched.
  split; [|split].
  - f_equal. induction output as [|x l IH]; [done|]. cbn [List.filter].
    destruct (line_matches match_list x) eqn:Hx; cbn [negb]; [exact IH|].
    cbn [List.filter]. rewrite Hx. cbn [negb]. by rewrite IH.
  - induction output as [|x l IH]; [done|]. cbn [List.filter].
    destruct (line_matches match_list x); cbn [negb]; by constructor.
  - induction output as [|x l IH]; [done|]. cbn [List.filter].
    destruct (line_matches match_list x) eqn:Hx; cbn [negb]; [exact IH|].
    by constructor.
Qed.

Lemma filterOutput_idempotent_witness :
  _filterOutput ["x"; "z"] ["DEBUG"] = Some ["x"; "z"]
  /\ sublist ["x"; "z"] ["DEBUG a"; "x"; "y DEBUG"; "z"]
  /\ Forall (fun line => line_matches ["DEBUG"] line = false) ["x"; "z"].
Proof.
  apply (filterOutput_idempotent ["DEBUG a"; "x"; "y DEBUG"; "z"] ["DEBUG"] ["x"; "z"]).
  vm_compute. reflexivity.
Defined.

(** ** The timer *)

Lemma same_timer_env e : timer_quiet e = true -> preserves same_timer (env_step e).
Proof. destruct e; [by intros _ w|discriminate|discriminate]. Qed.

(** X12.  [processWait] cancels the timer that came with the process on the
    path that returns from its [try] block, and only there.  After a return
    that timer is not pending, its expiry can no longer run [_kill]
    (other timers are not concerned).  But when reading from the child or
    waiting for it raises, [t.cancel()] is not reached: a timer that was
    pending when the wait began and has not fired is still pending when
    [processWait] has handled the exception, and when it fires then,
    [_kill] kills the process group, logs the timeout, records a failure
    for the key it was armed with and raises the timeout flag. *)
Theorem processWait_cancels_timer_unless_it_raises cfg sc w :
  (forall res w',
     processWait_try true cfg sc w = (inr res, w') ->
     timer w' = None /\ env_step TimerExpires w' = (inr tt, w'))
  /\ (forall t e w' cmd key,
        script_allowed timer_quiet sc = true ->
        timer w = Some (cmd, key) ->
        processWait_try t cfg sc w = (inl e, w') ->
        e <> UnboundLocalError ->
        let w2 := snd (processWait t cfg sc w) in
        timer w2 = Some (cmd, key)
        /\ registry (snd (env_step TimerExpires w2))
           = setRunTimeout true default_key (setRunStatus 1 false key (registry w2))
        /\ trace (snd (env_step TimerExpires w2)) = trace w2 ++ [KillPg; LogTimedOut cmd]).
Proof.
  split.
  - intros res w' E. unfold processWait_try in E.
    destruct (_getOutput sc (kw_patterns cfg) (key_of cfg) w) as [[e1|[out m]] w1] eqn:E1.
    { by rewrite (bind_raise _ _ _ _ _ E1) in E. }
    rewrite (bind_run _ _ _ _ _ E1) in E.
    rewrite (bind_run (emit CloseStdout) _ w1 tt (logged CloseStdout w1) eq_refl) in E.
    destruct (settle m sc (logged CloseStdout w1)) as [[e2|st] w2] eqn:E2.
    { by rewrite (bind_raise _ _ _ _ _ E2) in E. }
    rewrite (bind_run _ _ _ _ _ E2) in E.
    set (w3 := logged CancelTimer (mkWorld (registry w2) None (trace w2) (history w2))).
    rewrite (bind_run (when true (set_timer None >> emit CancelTimer)) _ w2 tt w3 eq_refl)
      in E.
    destruct st as [s|]; [|discriminate]. cbn [deref] in E.
    rewrite (bind_run (ret s) _ w3 s w3 eq_refl) in E.
    destruct (report_run cfg s out w3) as (w4 & E4 & _ & Ht4 & _).
    rewrite (bind_run _ _ _ _ _ E4) in E.
    destruct (conclude_run cfg s (returned cfg s out) w4) as (w5 & E5 & _ & Ht5 & _).
    rewrite E5 in E. injection E as _ <-.
    assert (Hnone : timer w5 = None) by (by rewrite Ht5, Ht4).
    split; [exact Hnone|]. unfold env_step. by rewrite Hnone.
  - intros t e w' cmd key Hq Htm E Hne. apply andb_prop in Hq as [Hr Hw].
    assert (Htimer : timer w' = timer w).
    { unfold processWait_try in E.
      pose proof (preserves_getOutput_loop same_timer (fun _ => eq_refl)
                    (fun w1 w2 w3 (H1 : same_timer w1 w2) (H2 : same_timer w2 w3) =>
                       eq_trans H2 H1)
                    timer_quiet same_timer_env
                    (pattern_list (kw_patterns cfg)) (key_of cfg) (out_events sc) [] Hr w)
        as H1.
      fold (_getOutput sc (kw_patterns cfg) (key_of cfg)) in H1.
      destruct (_getOutput sc (kw_patterns cfg) (key_of cfg) w)
        as [[e1|[out m]] w1] eqn:E1.
      { rewrite (bind_raise _ _ _ _ _ E1) in E. by injection E as _ <-. }
      rewrite (bind_run _ _ _ _ _ E1) in E.
      rewrite (bind_run (emit CloseStdout) _ w1 tt (logged CloseStdout w1) eq_refl) in E.
      pose proof (preserves_settle same_timer (fun _ => eq_refl)
                    (fun w1 w2 w3 (H1 : same_timer w1 w2) (H2 : same_timer w2 w3) =>
                       eq_trans H2 H1)
                    timer_quiet (fun _ _ => eq_refl) same_timer_env m sc Hw
                    (logged CloseStdout w1)) as H2.
      destruct (settle m sc (logged CloseStdout w1)) as [[e2|st] w2] eqn:E2.
      { rewrite (bind_raise _ _ _ _ _ E2) in E. injection E as _ <-.
        unfold same_timer in *. cbn in *. congruence. }
      rewrite (bind_run _ _ _ _ _ E2) in E.
      assert (Hw3 : exists w3, when t (set_timer None >> emit CancelTimer) w2
                               = (inr tt, w3)).
      { destruct t; eexists; reflexivity. }
      destruct Hw3 as (w3 & E3). rewrite (bind_run _ _ _ _ _ E3) in E.
      destruct st as [s|].
      - exfalso. cbn [deref] in E.
        rewrite (bind_run (ret s) _ w3 s w3 eq_refl) in E.
        destruct (report_run cfg s out w3) as (w4 & E4 & _).
        rewrite (bind_run _ _ _ _ _ E4) in E.
        destruct (conclude_total cfg s (returned cfg s out) w4) as (r & w5 & E5).
        congruence.
      - cbn [deref] in E. unfold bind at 1, raise at 1 in E.
        injection E as <- _. by destruct Hne. }
    intros w2.
    assert (Htm2 : timer w2 = Some (cmd, key)).
    { subst w2. unfold processWait, try_except. rewrite E, processWait_except_run.
      cbn [snd timer logged]. by rewrite Htimer. }
    split; [exact Htm2|]. clearbody w2.
    unfold env_step. rewrite Htm2.
    unfold _kill, bind, set_timer, emit, modify. cbn [fst snd registry trace].
    by rewrite <- app_assoc.
Qed.

Lemma processWait_cancels_timer_unless_it_raises_witness :
  let w := at_wait ["bench"] cfg_k1 init_world in
  let w2 := snd (processWait true cfg_k1 sc_read_raises w) in
  timer w = Some ("bench", "k1")
  /\ timer (snd (processWait_try true cfg_k1 sc_clean w)) = None
  /\ timer w2 = Some ("bench", "k1")
  /\ registry (snd (env_step TimerExpires w2))
     = setRunTimeout true default_key (setRunStatus 1 false "k1" (registry w2))
  /\ trace (snd (env_step TimerExpires w2)) = trace w2 ++ [KillPg; LogTimedOut "bench"].
Proof.
  intros w w2. split; [reflexivity|]. split.
  - apply (proj1 (processWait_cancels_timer_unless_it_raises cfg_k1 sc_clean w)
             (fst (plain_result cfg_k1 sc_clean), None)
             (snd (processWait_try true cfg_k1 sc_clean w))).
    reflexivity.
  - apply (proj2 (processWait_cancels_timer_unless_it_raises cfg_k1 sc_read_raises w)
             true value_error (snd (processWait_try true cfg_k1 sc_read_raises w))
             "bench" "k1").
    + reflexivity.
    + reflexivity.
    + reflexivity.
    + discriminate.
Defined.

(** ** A watchdog that keeps polling *)

Lemma runWatchdog_repeating polls :
  action_calls (_runWatchdog false polls) = length (List.filter id polls)
  /\ length (List.filter is_sleep (_runWatchdog false polls)) = length polls
  /\ length (List.filter is_condition (_runWatchdog false polls)) = length polls.
Proof.
  unfold action_calls.
  induction polls as [|b polls (IH1 & IH2 & IH3)]; [done|].
  destruct b; cbn; rewrite ?IH1, ?IH2, ?IH3; done.
Qed.

(** X13.  With [once] off, [start] returns what [main] returned, the
    poller makes every poll that [main]'s running time allows and sleeps
    after each, and the action runs once for every poll that finds the
    condition true. *)
Theorem start_repeating_triggers_on_every_true_poll {A R}
    (wd : WatchDog A R) args polls :
  once wd = false ->
  fst (start wd args polls) = main wd args
  /\ action_calls (snd (start wd args polls)) = length (List.filter id polls)
  /\ length (List.filter is_sleep (snd (start wd args polls))) = length polls
  /\ length (List.filter is_condition (snd (start wd args polls))) = length polls.
Proof.
  intros Honce. unfold start. cbn [fst snd]. rewrite Honce.
  split; [done|]. apply runWatchdog_repeating.
Qed.

Lemma start_repeating_triggers_on_every_true_poll_witness :
  fst (start wd_repeating 41%nat ten_polls) = 42%nat
  /\ action_calls (snd (start wd_repeating 41%nat ten_polls)) = 8%nat
  /\ length (List.filter is_sleep (snd (start wd_repeating 41%nat ten_polls))) = 10%nat
  /\ length (List.filter is_condition (snd (start wd_repeating 41%nat ten_polls)))
     = 10%nat.
Proof.
  apply (start_repeating_triggers_on_every_true_poll wd_repeating 41%nat ten_polls).
  reflexivity.
Defined.

(** * Properties of [AndroidPlatform] *)

Lemma asked_util_call u c p :
  is_util c = true -> asked (snd (util_call u c p)) = S (asked p).
Proof.
  intros Hc. unfold util_call, asked, note, with_registry. cbn.
  rewrite List.filter_app, length_app. cbn. rewrite Hc. cbn. lia.
Qed.

Lemma asked_note a p : is_util a = false -> asked (note a p) = asked p.
Proof.
  intros Ha. unfold asked, note. cbn.
  rewrite List.filter_app, length_app. cbn. rewrite Ha. cbn. lia.
Qed.

Lemma asked_with_registry f p : asked (with_registry f p) = asked p.
Proof. reflexivity. Qed.

(** ** [_setLogCatSize] *)

Lemma halving_logcat_sizes : halving 131072 logcat_sizes.
Proof. repeat split; by vm_compute. Qed.

Lemma setLogCatSize_loop_stopped u turns size p :
  _setLogCatSize_loop u turns false size p = Returned tt p.
Proof. by destruct turns. Qed.

Lemma setLogCatSize_loop_spec u sizes :
  forall turns size p,
    halving size sizes ->
    (length sizes <= turns)%nat ->
    exists n p',
      _setLogCatSize_loop u turns true size p = Returned tt p'
      /\ (n <= length sizes)%nat
      /\ (sizes <> [] -> (1 <= n)%nat)
      /\ ph_trace p' = ph_trace p ++ (logcat_G <$> take n sizes)
      /\ getRunStatus default_key (ph_registry p')
         = getRunStatus default_key (ph_registry p)
      /\ (forall j s, (S j < n)%nat -> sizes !! j = Some s ->
                      failed_to (answer u p j (logcat_G s)) = true)
      /\ ((n < length sizes)%nat ->
          forall s, sizes !! (n - 1)%nat = Some s ->
                    failed_to (answer u p (n - 1) (logcat_G s)) = false).
Proof.
  induction sizes as [|s rest IH]; intros turns size p Hh Hlen.
  - cbn in Hh. exists 0%nat, p.
    assert (Hc : (256 <? size) = false) by lia.
    destruct turns; cbn; rewrite Hc; cbn;
      (split; [reflexivity|]); (split; [lia|]); (split; [done|]);
      (split; [by rewrite app_nil_r|]); (split; [reflexivity|]);
      (split; [intros; lia|]); cbn; intros; lia.
  - destruct Hh as (-> & Hbig & Hh). cbn in Hlen.
    destruct turns as [|turns]; [lia|].
    assert (Hc : (256 <? size) = true) by lia.
    cbn [_setLogCatSize_loop andb]. rewrite Hc.
    set (c := UtilLogcat ["-G"; (str_of_int size ++ "K")%string]).
    change c with (logcat_G size) in *.
    unfold util_call at 1. cbn [fst snd].
    set (a := u (asked p) (logcat_G size)).
    set (p2 := with_registry _ (note _ (with_registry _ p))).
    assert (Hasked : asked p2 = S (asked p)).
    { unfold p2. rewrite asked_with_registry.
      apply (asked_util_call u (logcat_G size) p eq_refl). }
    assert (Htrace : ph_trace p2 = ph_trace p ++ [logcat_G size]) by reflexivity.
    assert (Hstatus : getRunStatus default_key (ph_registry p2)
                      = getRunStatus default_key (ph_registry p)).
    { unfold p2, with_registry. cbn. by rewrite getRunStatus_setRunStatus. }
    assert (Hfirst : ans_lines a = answer u p 0 (logcat_G size)).
    { unfold answer, a. by rewrite Nat.add_0_r. }
    destruct (failed_to (ans_lines a)) eqn:Hf.
    + destruct (IH turns (size / 2) p2 Hh ltac:(lia))
        as (n & p' & Hrun & Hn & Hpos & Htr & Hst & Hbefore & Hlast).
      exists (S n), p'. split; [exact Hrun|]. split; [cbn; lia|].
      split; [intros _; lia|]. split.
      { rewrite Htr, Htrace. cbn. by rewrite <- app_assoc. }
      split; [by rewrite Hst|]. split.
      * intros [|j] s' Hj Hs'; cbn in Hs'.
        -- injection Hs' as <-. by rewrite <- Hfirst.
        -- unfold answer. replace (asked p + S j)%nat with (asked p2 + j)%nat by lia.
           apply Hbefore; [lia|exact Hs'].
      * cbn [length]. intros Hlt s' Hs'.
        assert (Hn1 : (1 <= n)%nat).
        { apply Hpos. intros ->. cbn in Hn. cbn in Hlt. lia. }
        replace (S n - 1)%nat with (S (n - 1)) in * by lia. cbn in Hs'.
        unfold answer. replace (asked p + S (n - 1))%nat with (asked p2 + (n - 1))%nat by lia.
        apply Hlast; [lia|exact Hs'].
    + exists 1%nat, p2. split; [apply setLogCatSize_loop_stopped|].
      split; [cbn; lia|]. split; [intros _; lia|].
      split; [by rewrite Htrace|]. split; [exact Hstatus|]. split.
      * intros j s' Hj. lia.
      * intros _ s' Hs'. change (1 - 1)%nat with 0%nat in *. cbn in Hs'.
        injection Hs' as <-. by rewrite <- Hfirst.
Qed.

(** X14.  [_setLogCatSize] asks for 131072K and halves the size after each
    answer whose first line contains "failed to": it makes between one and
    nine requests, for the sizes 131072K down to 512K at the lowest, stops
    at the first answer that does not fail, and always returns; the run
    status of the default key is the same after it as before, whatever the
    requests did to it. *)
Theorem setLogCatSize_halves_until_accepted u p :
  exists n p',
    _setLogCatSize u p = Returned tt p'
    /\ (1 <= n <= 9)%nat
    /\ ph_trace p' = ph_trace p ++ (logcat_G <$> take n logcat_sizes)
    /\ getRunStatus default_key (ph_registry p')
       = getRunStatus default_key (ph_registry p)
    /\ (forall j size, (S j < n)%nat -> logcat_sizes !! j = Some size ->
                       failed_to (answer u p j (logcat_G size)) = true)
    /\ ((n < 9)%nat ->
        forall size, logcat_sizes !! (n - 1)%nat = Some size ->
                     failed_to (answer u p (n - 1) (logcat_G size)) = false).
Proof.
  destruct (setLogCatSize_loop_spec u logcat_sizes 18 131072 p
              halving_logcat_sizes ltac:(cbn; lia))
    as (n & p' & Hrun & Hn & Hpos & Htr & Hst & Hbefore & Hlast).
  exists n, p'. cbn [length logcat_sizes] in Hn.
  split; [exact Hrun|]. split; [split; [by apply Hpos|exact Hn]|].
  split; [exact Htr|]. split; [exact Hst|]. split; [exact Hbefore|exact Hlast].
Qed.

(** ** [int(a / b)] below [2 ^ 53] *)

Lemma binade_lower n d :
  0 < n -> 0 < d ->
  d * 2 ^ Z.max 0 (binade n d) <= n * 2 ^ Z.max 0 (- binade n d).
Proof.
  intros Hn Hd. unfold binade.
  set (k := Z.log2 n - Z.log2 d).
  destruct (Z.ltb_spec (n * 2 ^ Z.max 0 (- k)) (d * 2 ^ Z.max 0 k)) as [Hlt|Hge]; [|lia].
  pose proof (Z.log2_spec n Hn) as [Hn1 Hn2].
  pose proof (Z.log2_spec d Hd) as [Hd1 Hd2].
  pose proof (Z.log2_nonneg n) as Ha. pose proof (Z.log2_nonneg d) as Hb.
  destruct (Z_le_gt_dec 1 k) as [Hk|Hk].
  - replace (Z.max 0 (k - 1)) with (k - 1) by lia.
    replace (Z.max 0 (- (k - 1))) with 0 by lia.
    rewrite Z.pow_0_r, Z.mul_1_r.
    assert (E : 2 ^ Z.log2 n = 2 ^ Z.succ (Z.log2 d) * 2 ^ (k - 1)).
    { rewrite <- Z.pow_add_r by lia. f_equal. lia. }
    assert (0 < 2 ^ (k - 1)) by (apply Z.pow_pos_nonneg; lia).
    nia.
  - replace (Z.max 0 (k - 1)) with 0 by lia.
    replace (Z.max 0 (- (k - 1))) with (1 - k) by lia.
    rewrite Z.pow_0_r, Z.mul_1_r.
    assert (E : 2 ^ Z.succ (Z.log2 d) = 2 ^ Z.log2 n * 2 ^ (1 - k)).
    { rewrite <- Z.pow_add_r by lia. f_equal. lia. }
    assert (0 < 2 ^ (1 - k)) by (apply Z.pow_pos_nonneg; lia).
    nia.
Qed.

Lemma round_half_even_cases num den :
  0 < den ->
  round_half_even num den = num / den
  \/ (round_half_even num den = num / den + 1 /\ den <= 2 * (num mod den)).
Proof.
  intros Hden. unfold round_half_even.
  destruct (Z.ltb_spec (2 * (num mod den)) den); [by left|].
  destruct (Z.ltb_spec den (2 * (num mod den))); [right; lia|].
  destruct (Z.even (num / den)); [by left|right; lia].
Qed.

Lemma int_true_div_pos_small n d :
  0 < n < 2 ^ 53 -> 0 < d -> int_true_div_pos n d = inr (n / d).
Proof.
  intros [Hn Hn53] Hd. unfold int_true_div_pos.
  pose proof (binade_lower n d Hn Hd) as Hlow.
  set (k := binade n d) in *.
  assert (Hk : k <= 52).
  { destruct (Z_le_gt_dec k 52) as [|Hgt]; [done|exfalso].
    replace (Z.max 0 k) with k in Hlow by lia.
    replace (Z.max 0 (- k)) with 0 in Hlow by lia.
    rewrite Z.pow_0_r, Z.mul_1_r in Hlow.
    assert (2 ^ 53 <= 2 ^ k) by (apply Z.pow_le_mono_r; lia).
    nia. }
  replace (Z.max 0 (k - 52)) with 0 by lia. rewrite Z.pow_0_r, Z.mul_1_r.
  replace (Z.max 0 (52 - k)) with (52 - k) by lia.
  set (s := 52 - k) in *.
  assert (Hs : 0 <= s) by lia.
  assert (Hp : 0 < 2 ^ s) by (apply Z.pow_pos_nonneg; lia).
  (* d < 2 ^ (s + 1) *)
  assert (Hdlt : d < 2 * 2 ^ s).
  { destruct (Z_le_gt_dec 0 k) as [Hk0|Hk0].
    - replace (Z.max 0 k) with k in Hlow by lia.
      replace (Z.max 0 (- k)) with 0 in Hlow by lia.
      rewrite Z.pow_0_r, Z.mul_1_r in Hlow.
      assert (E : 2 ^ 53 = 2 * 2 ^ s * 2 ^ k).
      { replace 53 with (1 + s + k) by lia.
        rewrite !Z.pow_add_r by lia. reflexivity. }
      assert (0 < 2 ^ k) by (apply Z.pow_pos_nonneg; lia).
      nia.
    - replace (Z.max 0 k) with 0 in Hlow by lia.
      replace (Z.max 0 (- k)) with (- k) in Hlow by lia.
      rewrite Z.pow_0_r, Z.mul_1_r in Hlow.
      assert (E : 2 * 2 ^ s = 2 ^ 53 * 2 ^ (- k)).
      { replace s with (52 + - k) by lia.
        rewrite Z.pow_add_r by lia. change (2 ^ 53) with (2 * 2 ^ 52). ring. }
      assert (0 < 2 ^ (- k)) by (apply Z.pow_pos_nonneg; lia).
      nia. }
  set (m := round_half_even (n * 2 ^ s) d).
  assert (Hq0 : (n * 2 ^ s / d) / 2 ^ s = n / d).
  { rewrite Z.div_div by lia. rewrite Z.div_mul_cancel_r by lia. reflexivity. }
  pose proof (Z.div_mod (n * 2 ^ s) d ltac:(lia)) as Hdm.
  pose proof (Z.mod_pos_bound (n * 2 ^ s) d Hd) as Hr.
  pose proof (Z.div_mod n d ltac:(lia)) as Hdm2.
  pose proof (Z.mod_pos_bound n d Hd) as Hr2.
  assert (Hm : m / 2 ^ s = n / d /\ m <= n * 2 ^ s + 1 /\ (s = 0 -> m = n)).
  { destruct (round_half_even_cases (n * 2 ^ s) d Hd) as [E|[E Hhalf]]; fold m in E.
    - rewrite E, Hq0. split; [done|]. split.
      + assert (n * 2 ^ s / d <= n * 2 ^ s); [|lia].
        apply Z.div_le_upper_bound; nia.
      + intros ->. rewrite Z.pow_0_r, Z.mul_1_r in *.
        assert (d = 1) by lia. subst d. by rewrite Z.div_1_r.
    - assert (Hs1 : 1 <= s).
      { destruct (Z.eq_dec s 0) as [->|]; [|lia]. exfalso.
        rewrite Z.pow_0_r, Z.mul_1_r in *. assert (d = 1) by lia. subst d.
        rewrite Z.mod_1_r in Hhalf. lia. }
      split; [|split; [|lia]].
      + rewrite E. symmetry. apply Z.div_unique with (r := (n * 2 ^ s / d + 1) - (n / d) * 2 ^ s).
        2: lia.
        left. 
        set (q0 := n * 2 ^ s / d) in *. set (r0 := (n * 2 ^ s) mod d) in *.
        set (Q := n / d) in *. set (R := n mod d) in *.
        (* q0 = Q * 2^s + u with u < 2^s - 1 *)
        assert (Hq0' : Q * 2 ^ s <= q0).
        { rewrite <- Hq0. pose proof (Z.mul_div_le q0 (2 ^ s) Hp). lia. }
        assert (Hq0'' : q0 < (Q + 1) * 2 ^ s).
        { rewrite <- Hq0. pose proof (Z.mul_succ_div_gt q0 (2 ^ s) Hp). lia. }
        split; [lia|].
        destruct (Z_lt_le_dec (q0 + 1) ((Q + 1) * 2 ^ s)) as [|Hbad]; [lia|exfalso].
        assert (q0 = (Q + 1) * 2 ^ s - 1) by lia.
        (* n 2^s = q0 d + r0, n = Q d + R *)
        assert (2 ^ s * (d - R) = d - r0) by nia.
        assert (1 <= d - R) by lia.
        nia.
      + rewrite E. assert (n * 2 ^ s / d <= n * 2 ^ s); [|lia].
        apply Z.div_le_upper_bound; nia. }
  destruct Hm as (Hm1 & _ & _).
  assert (Hov : (1024 <=? (if m =? 2 ^ 53 then k + 1 else k)) = false).
  { destruct (m =? 2 ^ 53); lia. }
  rewrite Hov. f_equal.
  destruct (Z.leb_spec 52 k) as [Hk52|Hk52].
  - assert (s = 0) as Hs0 by lia. rewrite Hs0 in Hm1.
    rewrite Z.pow_0_r, Z.div_1_r in Hm1.
    replace (k - 52) with 0 by lia. rewrite Z.pow_0_r. lia.
  - exact Hm1.
Qed.

Lemma int_true_div_small a b :
  Z.abs a < 2 ^ 53 -> b <> 0 -> int_true_div a b = inr (Z.quot a b).
Proof.
  intros Ha Hb. unfold int_true_div.
  destruct (Z.eqb_spec b 0) as [|_]; [done|].
  destruct (Z.eqb_spec a 0) as [->|Ha0]; [by rewrite Z.quot_0_l|].
  rewrite int_true_div_pos_small by lia.
  f_equal. symmetry. by apply Z.quot_div.
Qed.

(** Beyond that the rounding shows, and far beyond the division raises. *)
Example int_true_div_large :
  int_true_div 90071992547409919 20 = inr 4503599627370496
  /\ Z.quot 90071992547409919 20 = 4503599627370495
  /\ int_true_div (10 ^ 400) 20 = inl OverflowError.
Proof. repeat split; vm_compute; reflexivity. Qed.

(** ** [waitForDevice] *)

(** For a timeout below [2 ^ 53] in size both divisions are exact enough:
    [int] finds the truncated quotient. *)
Lemma waitForDevice_small u self turns timeout p :
  Z.abs timeout < 2 ^ 53 ->
  waitForDevice u self turns timeout p
  = (let period := Z.quot timeout 20 + 1 in
     if period =? 0 then Raised ZeroDivisionError p
     else
       match waitForDevice_loop u self period (Z.quot timeout period) turns [] 0 p with
       | Returned ls p =>
           match ls with
           | [] => Returned tt (note (LogError (cannot_reach self timeout)) p)
           | _ => Returned tt p
           end
       | Raised e p => Raised e p
       | OutOfTurns p => OutOfTurns p
       end).
Proof.
  intros Ht. unfold waitForDevice. rewrite (int_true_div_small timeout 20) by lia.
  cbv zeta. destruct (Z.eqb_spec (Z.quot timeout 20 + 1) 0) as [->|Hne]; [done|].
  by rewrite int_true_div_small.
Qed.

Lemma waitForDevice_period timeout :
  1 <= timeout -> 1 <= Z.quot timeout 20 + 1 /\ 1 <= Z.quot timeout (Z.quot timeout 20 + 1).
Proof.
  intros Ht. rewrite (Z.quot_div_nonneg timeout 20) by lia.
  assert (H20 : 0 <= timeout / 20) by (apply Z.div_pos; lia).
  assert (Hle : timeout / 20 + 1 <= timeout).
  { assert (timeout / 20 <= timeout - 1); [|lia].
    destruct (Z.eq_dec timeout 1) as [->|]; [by vm_compute|].
    transitivity (timeout / 2); [|apply Z.div_le_upper_bound; lia].
    apply Z.div_le_lower_bound; [lia|].
    pose proof (Z.mul_div_le timeout 20 ltac:(lia)). lia. }
  split; [lia|].
  rewrite Z.quot_div_nonneg by lia.
  apply Z.div_le_lower_bound; lia.
Qed.

Lemma polls_S self period n :
  polls self period (S n) = poll self period ++ polls self period n.
Proof. reflexivity. Qed.

Lemma waitForDevice_loop_listing u self period num k :
  forall turns p,
    0 <= period -> 0 < num ->
    (forall j, (j < k)%nat -> answer u p j (shell ["ls"; tgt_dir self]) = []) ->
    answer u p k (shell ["ls"; tgt_dir self]) <> [] ->
    (k < turns)%nat ->
    exists p',
      waitForDevice_loop u self period num turns [] 0 p
      = Returned (answer u p k (shell ["ls"; tgt_dir self])) p'
      /\ ph_trace p' = ph_trace p ++ polls self period (S k).
Proof.
  induction k as [|k IH]; intros turns p Hperiod Hnum Hempty Hlast Hturns.
  - destruct turns as [|turns]; [lia|].
    cbn [waitForDevice_loop andb]. assert (Hc : (0 <? num) = true) by lia. rewrite Hc.
    unfold util_call at 1. assert (Hp : (period <? 0) = false) by lia. rewrite Hp.
    unfold answer in *. rewrite Nat.add_0_r in *.
    destruct (ans_lines (u (asked p) (shell ["ls"; tgt_dir self]))) as [|l ls] eqn:E;
      [done|].
    eexists. split; [by destruct turns|].
    cbn. by rewrite <- app_assoc.
  - destruct turns as [|turns]; [lia|].
    cbn [waitForDevice_loop andb]. assert (Hc : (0 <? num) = true) by lia. rewrite Hc.
    unfold util_call at 1. assert (Hp : (period <? 0) = false) by lia. rewrite Hp.
    pose proof (Hempty 0%nat ltac:(lia)) as H0. unfold answer in H0.
    rewrite Nat.add_0_r in H0. rewrite H0.
    set (p2 := note (TimeSleep period) (note _ (with_registry _ p))).
    assert (Hasked : asked p2 = S (asked p)).
    { unfold p2. rewrite asked_note by done.
      apply (asked_util_call u (shell ["ls"; tgt_dir self]) p eq_refl). }
    destruct (IH turns p2 Hperiod Hnum) as (p' & Hrun & Htr).
    + intros j Hj. unfold answer. rewrite Hasked.
      replace (S (asked p) + j)%nat with (asked p + S j)%nat by lia.
      apply Hempty. lia.
    + unfold answer in *. rewrite Hasked.
      by replace (S (asked p) + k)%nat with (asked p + S k)%nat by lia.
    + lia.
    + exists p'. split.
      { rewrite Hrun. unfold answer. rewrite Hasked.
        by replace (S (asked p) + k)%nat with (asked p + S k)%nat by lia. }
      rewrite Htr. unfold p2, note. cbn [ph_trace with_registry].
      rewrite (polls_S self period (S k)). unfold poll at 1.
      by rewrite <- !app_assoc.
Qed.



Lemma polls_no_error self period n : existsb is_error (polls self period n) = false.
Proof. induction n as [|n IH]; [done|]. rewrite polls_S. cbn. exact IH. Qed.

Lemma waitForDevice_loop_returned u self period num turns :
  forall ls p ls' p',
    waitForDevice_loop u self period num turns ls 0 p = Returned ls' p' ->
    exists n,
      ph_trace p' = ph_trace p ++ polls self period n
      /\ (ls' = [] -> n = 0%nat /\ num <= 0).
Proof.
  induction turns as [|turns IH]; intros ls p ls' p' Hrun.
  - cbn in Hrun. destruct ls as [|l ls]; cbn in Hrun.
    + destruct (0 <? num) eqn:Hc; [done|]. injection Hrun as <- <-.
      exists 0%nat. split; [by rewrite app_nil_r|]. intros _. split; [done|lia].
    + injection Hrun as <- <-. exists 0%nat. split; [by rewrite app_nil_r|done].
  - cbn [waitForDevice_loop] in Hrun. destruct ls as [|l ls]; cbn [andb] in Hrun.
    + destruct (0 <? num) eqn:Hc.
      * unfold util_call at 1 in Hrun.
        destruct (period <? 0); [done|].
        apply IH in Hrun as (n & Htr & Hnil).
        exists (S n). split.
        { rewrite Htr. cbn [note ph_trace with_registry]. rewrite polls_S.
          unfold poll at 1. by rewrite <- !app_assoc. }
        intros Hls. destruct (Hnil Hls) as [_ Hnum]. lia.
      * injection Hrun as <- <-. exists 0%nat.
        split; [by rewrite app_nil_r|]. intros _. split; [done|lia].
    + injection Hrun as <- <-. exists 0%nat. split; [by rewrite app_nil_r|done].
Qed.

Lemma waitForDevice_loop_silent u self period num turns :
  forall p,
    0 <= period -> 0 < num ->
    (forall j, answer u p j (shell ["ls"; tgt_dir self]) = []) ->
    exists p',
      waitForDevice_loop u self period num turns [] 0 p = OutOfTurns p'
      /\ ph_trace p' = ph_trace p ++ polls self period turns.
Proof.
  induction turns as [|turns IH]; intros p Hperiod Hnum Hempty.
  - exists p. cbn. assert (Hc : (0 <? num) = true) by lia. rewrite Hc.
    split; [done|by rewrite app_nil_r].
  - cbn [waitForDevice_loop andb]. assert (Hc : (0 <? num) = true) by lia. rewrite Hc.
    unfold util_call at 1. assert (Hp : (period <? 0) = false) by lia. rewrite Hp.
    pose proof (Hempty 0%nat) as H0. unfold answer in H0.
    rewrite Nat.add_0_r in H0. rewrite H0.
    set (p2 := note (TimeSleep period) (note _ (with_registry _ p))).
    assert (Hasked : asked p2 = S (asked p)).
    { unfold p2. rewrite asked_note by done.
      apply (asked_util_call u (shell ["ls"; tgt_dir self]) p eq_refl). }
    destruct (IH p2 Hperiod Hnum) as (p' & Hrun & Htr).
    { intros j. unfold answer. rewrite Hasked.
      replace (S (asked p) + j)%nat with (asked p + S j)%nat by lia. apply Hempty. }
    exists p'. split; [exact Hrun|].
    rewrite Htr. unfold p2, note. cbn [ph_trace with_registry].
    rewrite polls_S. unfold poll at 1. by rewrite <- !app_assoc.
Qed.



(** ** [killProgram] *)

Lemma append_cons a s t : (String a s ++ t)%string = String a (s ++ t)%string.
Proof. reflexivity. Qed.

Lemma strip_prefix_app pre s : strip_prefix pre (pre ++ s)%string = Some s.
Proof.
  induction pre as [|a pre IH]; [by destruct s|].
  change (strip_prefix (String a pre) (String a (pre ++ s)%string) = Some s).
  cbn. by rewrite Ascii.eqb_refl.
Qed.

Lemma strip_prefix_Some pre :
  forall s r, strip_prefix pre s = Some r -> s = (pre ++ r)%string.
Proof.
  induction pre as [|a pre IH]; intros s r H.
  - cbn in H. destruct s; by injection H as <-.
  - destruct s as [|b s]; [done|]. cbn in H.
    destruct (Ascii.eqb a b) eqn:E; [|done].
    apply Ascii.eqb_eq in E as <-. rewrite append_cons. f_equal. by apply IH.
Qed.

Lemma span_Some f :
  forall s pre post,
    span f s = (pre, post) ->
    s = (pre ++ post)%string
    /\ Forall (fun c => f c = true) (list_ascii_of_string pre)
    /\ stops f post.
Proof.
  induction s as [|c s IH]; intros pre post H; cbn in H.
  - injection H as <- <-. by repeat split.
  - destruct (f c) eqn:Hc.
    + destruct (span f s) as [pre' post'] eqn:E. injection H as <- <-.
      destruct (IH _ _ eq_refl) as (-> & Hall & Hstop).
      split; [done|]. split; [|done]. cbn. by constructor.
    + injection H as <- <-. by repeat split.
Qed.

Lemma span_app f pre post :
  Forall (fun c => f c = true) (list_ascii_of_string pre) ->
  stops f post ->
  span f (pre ++ post)%string = (pre, post).
Proof.
  induction pre as [|c pre IH]; intros Hall Hstop.
  - change (span f post = (EmptyString, post)).
    destruct post as [|c post]; [done|]. cbn in *. by rewrite Hstop.
  - cbn in Hall. apply Forall_cons in Hall as [Hc Hall].
    rewrite append_cons. cbn. rewrite Hc, IH; done.
Qed.

Lemma isspace_not_digit c : PyStr.isspace c = true -> isdigit c = false.
Proof.
  unfold PyStr.isspace, isdigit. cbn zeta.
  generalize (nat_of_ascii c). intros n H.
  destruct (48 <=? n)%nat eqn:E1; [|done].
  destruct (n <=? 57)%nat eqn:E2; [|done].
  apply Nat.leb_le in E1. apply Nat.leb_le in E2.
  apply orb_true_iff in H as [H|H]; apply andb_true_iff in H as [Ha Hb];
    apply Nat.leb_le in Ha; apply Nat.leb_le in Hb; lia.
Qed.

Lemma isdigit_not_space c : isdigit c = true -> PyStr.isspace c = false.
Proof.
  intros Hd. destruct (PyStr.isspace c) eqn:Hs; [|done].
  apply isspace_not_digit in Hs. congruence.
Qed.

(** X18.  The pattern with which [killProgram] reads a line of the process
    list finds a pid exactly in the lines that are made of the word
    [shell], one or more blanks, one or more digits and at least one more
    blank, whatever follows; the pid is the whole run of digits.  Lines of
    other users, lines that end with the pid, and lines that start with a
    blank give none. *)
Theorem kill_pattern_matches_shell_lines result pid :
  kill_pattern result = Some pid <-> shell_line result pid.
Proof.
  unfold kill_pattern, shell_line. split.
  - destruct (strip_prefix "shell" result) as [rest|] eqn:Hpre; [|done].
    apply strip_prefix_Some in Hpre as ->.
    destruct (span PyStr.isspace rest) as [blanks rest1] eqn:Hb.
    destruct (span isdigit rest1) as [digits rest2] eqn:Hd.
    apply span_Some in Hb as (-> & Hblank & _).
    apply span_Some in Hd as (-> & Hdigit & _).
    destruct blanks as [|b blanks]; [done|].
    destruct digits as [|d digits]; [done|].
    destruct rest2 as [|c tail]; [done|].
    destruct (PyStr.isspace c) eqn:Hc; [|done].
    intros [= <-]. by exists (String b blanks), c, tail.
  - intros (blanks & blank & tail & -> & Hne & Hblank & Hpid & Hdigit & Hc).
    rewrite strip_prefix_app.
    destruct pid as [|d digits]; [done|].
    assert (Hd : isdigit d = true) by (by apply Forall_cons in Hdigit as [? _]).
    rewrite (span_app PyStr.isspace blanks); [|done|by apply isdigit_not_space].
    rewrite (span_app isdigit (String d digits)); [|done|by apply isspace_not_digit].
    destruct blanks as [|b blanks]; [done|]. by rewrite Hc.
Qed.

Lemma killProgram_loop_trace u results :
  forall p,
    ph_trace (killProgram_loop u results p)
    = ph_trace p ++ (kill_call <$> pids results).
Proof.
  induction results as [|result results IH]; intros p; cbn.
  - by rewrite app_nil_r.
  - unfold pids. cbn. fold (pids results).
    destruct (kill_pattern result) as [pid|]; [|apply IH].
    rewrite IH. cbn. by rewrite <- app_assoc.
Qed.

Lemma killProgram_loop_none u results :
  forall p, pids results = [] -> killProgram_loop u results p = p.
Proof.
  induction results as [|result results IH]; intros p H; [done|].
  unfold pids in H. cbn in *. fold (pids results) in H.
  destruct (kill_pattern result); [done|]. by apply IH.
Qed.

(** X17.  [killProgram] lists the processes once, with the base name of
    the program, and then asks to kill, in order, the pid of every line of
    the first element of the answer that its pattern reads, and nothing
    else: the other elements of the answer are not looked at.  When there is
    nothing to kill, the run status of the default key is what it was before
    the call, whatever the listing did to it. *)
Theorem killProgram_kills_listed_pids u program p :
  let ask := shell ["ps"; "|"; "grep"; os_path_basename program] in
  let found := found_pids (answer u p 0 ask) in
  ph_trace (killProgram u program p) = ph_trace p ++ ask :: (kill_call <$> found)
  /\ (found = [] ->
      getRunStatus default_key (ph_registry (killProgram u program p))
      = getRunStatus default_key (ph_registry p)).
Proof.
  intros ask found. unfold killProgram. fold ask.
  unfold util_call at 1 2. unfold found, answer. rewrite Nat.add_0_r.
  destruct (ans_lines (u (asked p) ask)) as [|first rest] eqn:E.
  - split; [done|]. intros _. cbn. by rewrite getRunStatus_setRunStatus.
  - cbn [found_pids]. split.
    + rewrite killProgram_loop_trace. cbn. by rewrite <- app_assoc.
    + intros Hnone. rewrite killProgram_loop_none by done.
      cbn. by rewrite getRunStatus_setRunStatus.
Qed.

(** A process list in one piece, with two lines of the shell user and one
    of root, followed by a second piece: the two pids of the first piece
    are killed, the second piece is not read. *)
Lemma killProgram_kills_listed_pids_witness :
  ph_trace (killProgram ps_device "/data/local/tmp/bench" new_phone)
  = [shell ["ps"; "|"; "grep"; "bench"]; kill_call "4242"; kill_call "77"]
  /\ getRunStatus default_key
       (ph_registry (killProgram (device_up_after 0) "bench" new_phone))
     = 0.
Proof.
  split.
  - apply (proj1 (killProgram_kills_listed_pids ps_device "/data/local/tmp/bench"
                    new_phone)).
  - apply (proj2 (killProgram_kills_listed_pids (device_up_after 0) "bench" new_phone)).
    reflexivity.
Defined.

(** ** [runBinaryBenchmark] *)

Lemma join_vals_strings sep words :
  join_vals sep (VStr <$> words) = Some (PyStr.join sep words).
Proof.
  induction words as [|w words IH]; [done|].
  destruct words as [|w' words]; [done|].
  change (match join_vals sep (VStr <$> w' :: words) with
          | Some t => Some (w ++ sep ++ t)%string
          | None => None
          end = Some (PyStr.join sep (w :: w' :: words))).
  by rewrite IH.
Qed.

Lemma take_taskset_run cmd pa :
  taskset_is_str pa ->
  take_taskset (VStr <$> cmd) pa
  = (VStr <$> (taskset_words pa ++ cmd), delete "taskset" pa).
Proof.
  intros Hstr. unfold take_taskset, taskset_words.
  destruct (pa !! "taskset") as [v|] eqn:E.
  - destruct (Hstr v E) as [t ->]. done.
  - by rewrite delete_id.
Qed.

Lemma take_sleep_before_run_run cmd pa :
  take_sleep_before_run (VStr <$> cmd) pa
  = (VStr <$> (sleep_words pa ++ cmd), delete "sleep_before_run" pa).
Proof.
  unfold take_sleep_before_run, sleep_words.
  destruct (pa !! "sleep_before_run") as [v|] eqn:E; [done|].
  by rewrite delete_id.
Qed.

Lemma standard_run_trace u lso cmd pa meta p :
  ph_trace (snd (standard_run u lso cmd pa meta p))
  = ph_trace p ++ standard_calls lso cmd pa.
Proof.
  unfold standard_run, standard_calls, util_call. destruct lso; cbn; [done|].
  by rewrite <- app_assoc.
Qed.

Lemma wants_power_rest pa :
  wants_power (delete "sleep_before_run" (delete "taskset" pa)) = wants_power pa.
Proof. unfold wants_power. by rewrite !lookup_delete_ne. Qed.

Lemma wants_profiling_consumed pa :
  wants_profiling (consumed pa) = wants_profiling pa.
Proof.
  unfold wants_profiling, consumed. destruct (wants_power pa).
  - by rewrite lookup_delete_ne, lookup_insert_ne, !lookup_delete_ne.
  - by rewrite !lookup_delete_ne.
Qed.

Lemma sleep_words_delete_taskset pa :
  sleep_words (delete "taskset" pa) = sleep_words pa.
Proof. unfold sleep_words. by rewrite lookup_delete_ne. Qed.

Lemma take_taskset_snd cmd pa : snd (take_taskset cmd pa) = delete "taskset" pa.
Proof.
  unfold take_taskset. destruct (pa !! "taskset") eqn:E; [done|].
  cbn. by rewrite delete_id.
Qed.

Lemma take_sleep_before_run_snd cmd pa :
  snd (take_sleep_before_run cmd pa) = delete "sleep_before_run" pa.
Proof.
  unfold take_sleep_before_run. destruct (pa !! "sleep_before_run") eqn:E; [done|].
  cbn. by rewrite delete_id.
Qed.

(** X19.  Without profiling and with a command of strings,
    [runBinaryBenchmark] runs the command behind the words for the pause
    and then those for the processor set ([sleep n && taskset t cmd ...]);
    for a power measurement it first opens the settings page and sleeps one
    time unit, and then runs that whole command line, in single quotes,
    under [nohup sh -c] with the output thrown away.  The keyword arguments
    of the run are [platform_args] without the keys that were used up, and
    the log is fetched afterwards unless [log_to_screen_only] is set. *)
Theorem runBinaryBenchmark_wraps_command u prof words kwargs pa p :
  kw_platform_args kwargs = Some pa ->
  taskset_is_str pa ->
  wants_profiling pa = false ->
  let wrapped := sleep_words pa ++ taskset_words pa ++ words in
  let line := ("'" ++ PyStr.join " " wrapped ++ "'")%string in
  ph_trace (snd (runBinaryBenchmark u prof (VStr <$> words) kwargs p))
  = ph_trace p
    ++ (if wants_power pa
        then [shell ["am"; "start"; "-a"; "android.settings.SETTINGS"]; TimeSleep 1]
             ++ standard_calls (lso_truthy kwargs)
                  (VStr <$> ["nohup"; "sh"; "-c"; line; ">"; "/dev/null"; "2>&1"])
                  (consumed pa)
        else standard_calls (lso_truthy kwargs) (VStr <$> wrapped) (consumed pa)).
Proof.
  intros Hpa Hstr Hprof wrapped line. unfold runBinaryBenchmark. rewrite Hpa.
  rewrite take_taskset_run by done. rewrite take_sleep_before_run_run.
  rewrite sleep_words_delete_taskset. fold wrapped.
  rewrite wants_power_rest. unfold consumed.
  destruct (wants_power pa) eqn:Hpower.
  - rewrite join_vals_strings. fold line.
    pose proof (wants_profiling_consumed pa) as Hc. unfold consumed in Hc.
    rewrite Hpower in Hc. rewrite Hc, Hprof.
    destruct (standard_run _ _ _ _ _ _) as [r p1] eqn:E.
    cbn [snd]. apply (f_equal snd) in E. cbn [snd] in E. rewrite <- E.
    rewrite standard_run_trace. cbn [note ph_trace util_call snd with_registry].
    by rewrite <- !app_assoc.
  - pose proof (wants_profiling_consumed pa) as Hc. unfold consumed in Hc.
    rewrite Hpower in Hc. rewrite Hc, Hprof.
    destruct (standard_run _ _ _ _ _ _) as [r p1] eqn:E.
    cbn [snd]. apply (f_equal snd) in E. cbn [snd] in E. rewrite <- E.
    by rewrite standard_run_trace.
Qed.

(** A power measurement on core set [c0] after a pause of 5. *)
Lemma runBinaryBenchmark_wraps_command_witness :
  ph_trace (snd (runBinaryBenchmark silent_device no_profiler (VStr <$> ["./bench"; "--net"])
                   (mkBenchKwargs None (Some power_args)) new_phone))
  = [shell ["am"; "start"; "-a"; "android.settings.SETTINGS"]; TimeSleep 1;
     UtilShell (VStr <$> ["nohup"; "sh"; "-c"; "'sleep 5 && taskset c0 ./bench --net'";
                          ">"; "/dev/null"; "2>&1"])
       (<["non_blocking" := VBool true]> (<["timeout" := VInt 300]> ∅));
     UtilLogcat ["-d"]].
Proof.
  pose proof (runBinaryBenchmark_wraps_command silent_device no_profiler
                ["./bench"; "--net"] (mkBenchKwargs None (Some power_args)) power_args
                new_phone eq_refl) as H.
  cbn zeta in H. rewrite H.
  - by vm_compute.
  - intros v Hv. vm_compute in Hv. injection Hv as <-. by eexists.
  - by vm_compute.
Defined.

(** X20.  [runBinaryBenchmark] uses up the caller's [platform_args]: when
    it returns, the dict has lost [taskset] and [sleep_before_run], and
    after a power measurement it has lost [power] and gained
    [non_blocking]; every other key is as it was.  A second run with the
    same dict (without profiling) is therefore the standard run of the bare
    command: not pinned, not delayed, not under [nohup], and non-blocking
    if the first was a power measurement. *)
Theorem runBinaryBenchmark_consumes_platform_args u prof cmd kwargs pa p r :
  kw_platform_args kwargs = Some pa ->
  fst (fst (runBinaryBenchmark u prof cmd kwargs p)) = inr r ->
  let after := snd (fst (runBinaryBenchmark u prof cmd kwargs p)) in
  after = Some (consumed pa)
  /\ consumed pa !! "taskset" = None
  /\ consumed pa !! "sleep_before_run" = None
  /\ (wants_power pa = true ->
      consumed pa !! "power" = None
      /\ consumed pa !! "non_blocking" = Some (VBool true))
  /\ (forall k, k <> "taskset" -> k <> "sleep_before_run" -> k <> "power" ->
                k <> "non_blocking" -> consumed pa !! k = pa !! k)
  /\ (wants_profiling pa = false ->
      forall u2 p2,
        runBinaryBenchmark u2 prof cmd
          (mkBenchKwargs (kw_log_to_screen_only kwargs) after) p2
        = (inr (fst (standard_run u2 (lso_truthy kwargs) cmd (consumed pa) [] p2)),
           after,
           snd (standard_run u2 (lso_truthy kwargs) cmd (consumed pa) [] p2))).
Proof.
  intros Hpa Hrun after.
  assert (Hafter : after = Some (consumed pa)).
  { unfold after. clear after. unfold runBinaryBenchmark in Hrun |- *.
    rewrite Hpa in Hrun |- *.
    destruct (take_taskset cmd pa) as [cmd1 pa1] eqn:E1.
    apply (f_equal snd) in E1. rewrite take_taskset_snd in E1. cbn in E1. subst pa1.
    destruct (take_sleep_before_run cmd1 _) as [cmd2 pa2] eqn:E2.
    apply (f_equal snd) in E2. rewrite take_sleep_before_run_snd in E2. cbn in E2.
    subst pa2. rewrite wants_power_rest in Hrun |- *. unfold consumed.
    destruct (wants_power pa).
    - destruct (join_vals " " cmd2); [|done].
      repeat (match goal with
              | |- context [match ?x with _ => _ end] => destruct x
              | |- context [if ?x then _ else _] => destruct x
              end); done.
    - repeat (match goal with
              | |- context [match ?x with _ => _ end] => destruct x
              | |- context [if ?x then _ else _] => destruct x
              end); done. }
  split; [exact Hafter|].
  assert (Htask : consumed pa !! "taskset" = None).
  { unfold consumed. destruct (wants_power pa).
    - rewrite lookup_delete_ne, lookup_insert_ne, lookup_delete_ne by done.
      apply lookup_delete_eq.
    - rewrite lookup_delete_ne by done. apply lookup_delete_eq. }
  assert (Hsleep : consumed pa !! "sleep_before_run" = None).
  { unfold consumed. destruct (wants_power pa).
    - rewrite lookup_delete_ne, lookup_insert_ne by done. apply lookup_delete_eq.
    - apply lookup_delete_eq. }
  assert (Hpower : wants_power (consumed pa) = false).
  { unfold consumed. destruct (wants_power pa) eqn:E.
    - unfold wants_power. by rewrite lookup_delete_eq.
    - by rewrite wants_power_rest. }
  split; [exact Htask|]. split; [exact Hsleep|]. split; [|split].
  - intros Hp. unfold consumed. rewrite Hp. split; [apply lookup_delete_eq|].
    rewrite lookup_delete_ne by done. apply lookup_insert_eq.
  - intros k H1 H2 H3 H4. unfold consumed. destruct (wants_power pa).
    + by rewrite lookup_delete_ne, lookup_insert_ne, !lookup_delete_ne.
    + by rewrite !lookup_delete_ne.
  - intros Hprof u2 p2. rewrite Hafter. unfold runBinaryBenchmark.
    cbn [kw_platform_args kw_log_to_screen_only].
    unfold take_taskset. rewrite Htask. unfold take_sleep_before_run. rewrite Hsleep.
    rewrite Hpower, wants_profiling_consumed, Hprof.
    unfold lso_truthy at 1. cbn [kw_log_to_screen_only]. fold (lso_truthy kwargs).
    by destruct (standard_run _ _ _ _ _ _).
Qed.

(** After the power measurement above, the same dict gives a plain,
    non-blocking run of the bare command. *)
Lemma runBinaryBenchmark_consumes_platform_args_witness :
  let kwargs := mkBenchKwargs None (Some power_args) in
  let after := snd (fst (runBinaryBenchmark silent_device no_profiler [VStr "./bench"]
                           kwargs new_phone)) in
  after = Some (consumed power_args)
  /\ ph_trace (snd (runBinaryBenchmark silent_device no_profiler [VStr "./bench"]
                      (mkBenchKwargs None after) new_phone))
     = [UtilShell [VStr "./bench"] (consumed power_args); UtilLogcat ["-d"]].
Proof.
  intros kwargs after.
  destruct (runBinaryBenchmark_consumes_platform_args silent_device no_profiler
              [VStr "./bench"] kwargs power_args new_phone ([], []) eq_refl eq_refl)
    as (Hafter & _ & _ & _ & _ & Hsecond).
  split; [exact Hafter|].
  cbn [kw_log_to_screen_only kwargs] in Hsecond. fold after in Hsecond.
  by rewrite (Hsecond eq_refl silent_device new_phone).
Defined.

(** ** [rebootDevice] *)

(** X29.  [rebootDevice] reboots, waits for the device with a timeout of
    180, that is with a poll every 10 time units, sleeps 20 more, sets the
    log size again and then the frequency if one is configured.  With a
    device that lists its directory at some poll it returns, having done
    just that, in this order; with a device whose listing stays empty it
    never gets past the wait, however long one looks. *)
Theorem rebootDevice_waits_for_the_device u self p :
  let p1 := snd (util_call u UtilReboot p) in
  let ls := shell ["ls"; tgt_dir self] in
  (forall k turns,
     (forall j, (j < k)%nat -> answer u p1 j ls = []) ->
     answer u p1 k ls <> [] ->
     (k < turns)%nat ->
     exists n p',
       rebootDevice u self turns p = Returned tt p'
       /\ (1 <= n <= 9)%nat
       /\ ph_trace p'
          = ph_trace p ++ [UtilReboot] ++ polls self 10 (S k) ++ [TimeSleep 20]
            ++ (logcat_G <$> take n logcat_sizes)
            ++ (if py_truthy (set_freq self) then [UtilSetFrequency (set_freq self)]
                else []))
  /\ ((forall j, answer u p1 j ls = []) ->
      forall turns, exists p',
        rebootDevice u self turns p = OutOfTurns p'
        /\ ph_trace p' = ph_trace p ++ [UtilReboot] ++ polls self 10 turns).
Proof.
  intros p1 ls.
  assert (Htr1 : ph_trace p1 = ph_trace p ++ [UtilReboot]) by reflexivity.
  split.
  - intros k turns Hempty Hlast Hturns.
    destruct (waitForDevice_loop_listing u self 10 18 k turns p1
                ltac:(lia) ltac:(lia) Hempty Hlast Hturns) as (p2 & Hrun & Htr2).
    destruct (setLogCatSize_loop_spec u logcat_sizes 18 131072
                (note (TimeSleep 20) p2) halving_logcat_sizes ltac:(cbn; lia))
      as (n & p3 & Hsize & Hn & Hpos & Htr3 & _).
    assert (Hwait : waitForDevice u self turns 180 p1 = Returned tt p2).
    { rewrite waitForDevice_small by done. cbv zeta.
      change (Z.quot 180 20 + 1) with 10. change (Z.quot 180 10) with 18.
      cbn [Z.eqb Pos.eqb]. fold ls. rewrite Hrun. unfold ls in Hlast.
      by destruct (answer u p1 k (shell ["ls"; tgt_dir self])). }
    unfold rebootDevice. fold p1. rewrite Hwait. unfold _setLogCatSize. rewrite Hsize.
    cbn [length logcat_sizes] in Hn.
    destruct (py_truthy (set_freq self)).
    + eexists n, _. split; [reflexivity|]. split; [split; [by apply Hpos|exact Hn]|].
      cbn [util_call snd note with_registry ph_trace].
      rewrite Htr3. cbn [note ph_trace]. rewrite Htr2, Htr1.
      by rewrite <- !app_assoc.
    + exists n, p3. split; [reflexivity|]. split; [split; [by apply Hpos|exact Hn]|].
      rewrite Htr3. cbn [note ph_trace]. rewrite Htr2, Htr1.
      by rewrite <- !app_assoc, app_nil_r.
  - intros Hempty turns.
    destruct (waitForDevice_loop_silent u self 10 18 turns p1
                ltac:(lia) ltac:(lia) Hempty) as (p2 & Hrun & Htr2).
    exists p2. split.
    + unfold rebootDevice. fold p1. rewrite waitForDevice_small by done. cbv zeta.
      change (Z.quot 180 20 + 1) with 10. change (Z.quot 180 10) with 18.
      cbn [Z.eqb Pos.eqb]. fold ls. by rewrite Hrun.
    + rewrite Htr2, Htr1. by rewrite <- app_assoc.
Qed.

(** A device that is back at the third poll, and one that never is. *)
Lemma rebootDevice_waits_for_the_device_witness :
  (exists n p',
     rebootDevice (device_up_after 3) pixel 5 new_phone = Returned tt p'
     /\ (1 <= n <= 9)%nat
     /\ ph_trace p'
        = ph_trace new_phone ++ [UtilReboot] ++ polls pixel 10 3 ++ [TimeSleep 20]
          ++ (logcat_G <$> take n logcat_sizes)
          ++ (if py_truthy (set_freq pixel) then [UtilSetFrequency (set_freq pixel)]
              else []))
  /\ exists p',
       rebootDevice silent_device pixel 1000 new_phone = OutOfTurns p'
       /\ ph_trace p' = ph_trace new_phone ++ [UtilReboot] ++ polls pixel 10 1000.
Proof.
  split.
  - apply (proj1 (rebootDevice_waits_for_the_device (device_up_after 3) pixel new_phone)
             2%nat 5%nat).
    + intros j Hj. unfold answer, device_up_after. cbn.
      destruct j as [|[|j]]; [done|done|lia].
    + by vm_compute.
    + lia.
  - apply (proj2 (rebootDevice_waits_for_the_device silent_device pixel new_phone)).
    reflexivity.
Defined.

(** * Properties of the query construction *)

Lemma construct_q_group condition rules :
  construct_q (Group condition (Some rules))
  = match construct_each rules with
    | inl e => inl e
    | inr q_list => reduce (if is_AND condition then QAnd else QOr) q_list
    end.
Proof.
  cbn [construct_q].
  match goal with
  | |- match ?f rules with _ => _ end = _ =>
      assert (Heach : forall l, f l = construct_each l)
  end.
  { induction l as [|r l IH]; [done|]. cbn [construct_each]. by rewrite <- IH. }
  by rewrite Heach.
Qed.

Lemma selects_fold_and lookup qs :
  forall q, selects lookup (fold_left QAnd qs q)
            = selects lookup q && forallb (selects lookup) qs.
Proof.
  induction qs as [|q' qs IH]; intros q; cbn.
  - by rewrite andb_true_r.
  - rewrite IH. cbn. by rewrite andb_assoc.
Qed.

Lemma selects_fold_or lookup qs :
  forall q, selects lookup (fold_left QOr qs q)
            = selects lookup q || existsb (selects lookup) qs.
Proof.
  induction qs as [|q' qs IH]; intros q; cbn.
  - by rewrite orb_false_r.
  - rewrite IH. cbn. by rewrite orb_assoc.
Qed.

(** X21.  The query [construct_q] builds for a group selects a row exactly
    when all of the queries built for its rules do, if the condition is the
    string [AND], and when at least one of them does for every other
    condition ([OR], but also [and], [XOR] or a number); the rules are all
    built, in order, and there is at least one. *)
Theorem construct_q_group_selects lookup condition rules q :
  construct_q (Group condition (Some rules)) = inr q ->
  exists q_list,
    construct_each rules = inr q_list
    /\ length q_list = length rules
    /\ rules <> []
    /\ selects lookup q
       = if is_AND condition then forallb (selects lookup) q_list
         else existsb (selects lookup) q_list.
Proof.
  rewrite construct_q_group.
  destruct (construct_each rules) as [e|q_list] eqn:E; [done|].
  intros Hq. exists q_list. split; [done|].
  assert (Hlen : length q_list = length rules).
  { clear Hq. revert q_list E. induction rules as [|r rules IH]; intros q_list E.
    - by injection E as <-.
    - cbn in E. destruct (construct_q r); [done|].
      destruct (construct_each rules) as [|qs]; [done|].
      injection E as <-. cbn. f_equal. by apply IH. }
  split; [exact Hlen|].
  destruct q_list as [|q0 qs]; [done|].
  split; [by destruct rules|].
  cbn in Hq. injection Hq as <-.
  destruct (is_AND condition).
  - by rewrite selects_fold_and.
  - by rewrite selects_fold_or.
Qed.

Lemma construct_q_group_selects_witness :
  exists q_list,
    construct_each
      [Rule (Some "not_equal") (Some "device") (Some (JStr "pixel"));
       Rule (Some "less") (Some "latency") (Some (JNum 9))] = inr q_list
    /\ length q_list = 2%nat
    /\ [Rule (Some "not_equal") (Some "device") (Some (JStr "pixel"));
        Rule (Some "less") (Some "latency") (Some (JNum 9))] <> []
    /\ selects (fun keyword _ => String.eqb keyword "latency__lt")
         (QOr (QNot (QLookup "device__exact" (Single (JStr "pixel"))))
              (QLookup "latency__lt" (Single (JNum 9))))
       = existsb (selects (fun keyword _ => String.eqb keyword "latency__lt")) q_list.
Proof.
  apply (construct_q_group_selects
           (fun keyword _ => String.eqb keyword "latency__lt") (JStr "XOR")
           [Rule (Some "not_equal") (Some "device") (Some (JStr "pixel"));
            Rule (Some "less") (Some "latency") (Some (JNum 9))]).
  reflexivity.
Defined.

Lemma construct_each_app pre rule post qs :
  construct_each pre = inr qs ->
  construct_each (pre ++ rule :: post)
  = match construct_q rule with
    | inl e => inl e
    | inr q =>
        match construct_each post with
        | inl e => inl e
        | inr rest => inr (qs ++ q :: rest)
        end
    end.
Proof.
  revert qs. induction pre as [|r pre IH]; intros qs H.
  - injection H as <-. done.
  - cbn in H |- *. destruct (construct_q r) as [|q0]; [done|].
    destruct (construct_each pre) as [|qs0] eqn:E; [done|]. injection H as <-.
    rewrite (IH qs0 eq_refl). destruct (construct_q rule); [done|].
    by destruct (construct_each post).
Qed.

(** X22.  The edges of a group: with no rule at all, [construct_q] raises
    the [TypeError] of [reduce] on an empty list; with one rule it gives the
    query of that rule whatever the condition is; without the key [rules]
    it raises [KeyError]; and when a rule cannot be built, the group raises
    the error of the first such rule. *)
Theorem construct_q_group_edges condition :
  construct_q (Group condition (Some [])) = inl TypeErrorEmptyReduce
  /\ construct_q (Group condition None) = inl (KeyError "rules")
  /\ (forall rule, construct_q (Group condition (Some [rule])) = construct_q rule)
  /\ (forall pre rule post qs e,
        construct_each pre = inr qs ->
        construct_q rule = inl e ->
        construct_q (Group condition (Some (pre ++ rule :: post))) = inl e).
Proof.
  split; [done|]. split; [done|]. split.
  - intros rule. rewrite construct_q_group. cbn.
    by destruct (construct_q rule).
  - intros pre rule post qs e Hpre Hrule. rewrite construct_q_group.
    by rewrite (construct_each_app pre rule post qs Hpre), Hrule.
Qed.

Lemma construct_q_group_edges_witness :
  construct_q (Group (JStr "AND")
                 (Some ([Rule (Some "equal") (Some "net") (Some (JStr "resnet"))]
                        ++ Rule (Some "matches") (Some "net") (Some JNull)
                        :: [Rule None None None])))
  = inl (KeyError "matches").
Proof.
  apply (proj2 (proj2 (proj2 (construct_q_group_edges (JStr "AND"))))
           [Rule (Some "equal") (Some "net") (Some (JStr "resnet"))]
           (Rule (Some "matches") (Some "net") (Some JNull))
           [Rule None None None]
           [QLookup "net__exact" (Single (JStr "resnet"))]).
  - reflexivity.
  - reflexivity.
Defined.

Lemma conditions_no_not operator :
  String.prefix "not_" operator = true -> dict_get operator conditions = None.
Proof.
  intros H. unfold conditions. cbn [dict_get].
  repeat match goal with
         | |- context [String.eqb ?k operator] =>
             destruct (String.eqb_spec k operator) as [<-|_]; [by vm_compute in H|]
         end.
  done.
Qed.

Lemma prefix_not_app operator : String.prefix "not_" ("not_" ++ operator)%string = true.
Proof. cbn. by destruct operator. Qed.

(** X23.  The prefix [not_] negates: for an operator that does not itself
    start with [not_], the rule with [not_] before the operator gives the
    complement of the query of the rule without it, and fails where that one
    fails; the prefix is taken off once only, so a doubled prefix is refused
    with [KeyError], as every operator outside the table is. *)
Theorem construct_single_q_negation lookup operator id value :
  (String.prefix "not_" operator = false ->
   construct_single_q (Some ("not_" ++ operator)%string) id value
   = match construct_single_q (Some operator) id value with
     | inl e => inl e
     | inr q => inr (QNot q)
     end
   /\ forall q q',
        construct_single_q (Some operator) id value = inr q ->
        construct_single_q (Some ("not_" ++ operator)%string) id value = inr q' ->
        selects lookup q' = negb (selects lookup q))
  /\ (String.prefix "not_" operator = true ->
      construct_single_q (Some ("not_" ++ operator)%string) id value
      = inl (KeyError operator)).
Proof.
  assert (Hfrom : str_from 4 ("not_" ++ operator)%string = operator) by done.
  split.
  - intros Hno.
    assert (Heq : construct_single_q (Some ("not_" ++ operator)%string) id value
                  = match construct_single_q (Some operator) id value with
                    | inl e => inl e
                    | inr q => inr (QNot q)
                    end).
    { unfold construct_single_q. rewrite prefix_not_app, Hfrom, Hno.
      destruct (dict_get operator conditions) as [cond|]; [|done].
      destruct id as [id|]; [|done]. destruct value as [value|]; [|done].
      cbn zeta.
      by destruct (if negb (String.eqb cond "range") then _ else _). }
    split; [exact Heq|].
    intros q q' Hq Hq'. rewrite Heq, Hq in Hq'. by injection Hq' as <-.
  - intros Hyes. unfold construct_single_q. rewrite prefix_not_app, Hfrom.
    by rewrite (conditions_no_not operator Hyes).
Qed.

Lemma construct_single_q_negation_witness :
  (construct_single_q (Some "not_between") (Some "latency") (Some (JList [JNum 1; JNum 9]))
   = inr (QNot (QLookup "latency__range" (Tuple [JNum 1; JNum 9]))))
  /\ construct_single_q (Some "not_not_equal") (Some "net") (Some JNull)
     = inl (KeyError "not_equal").
Proof.
  split.
  - apply (proj1 (proj1 (construct_single_q_negation (fun _ _ => true) "between"
                           (Some "latency") (Some (JList [JNum 1; JNum 9]))) eq_refl)).
  - apply (proj2 (construct_single_q_negation (fun _ _ => true) "not_equal"
                    (Some "net") (Some JNull)) eq_refl).
Defined.

(** * Properties of [USBController] *)

Lemma switch_run int hub on device_hash c :
  switch int hub on device_hash c
  = match device_map c !! device_hash with
    | None => (inl (NotConnected device_hash), c)
    | Some (port_number, hub_serial) =>
        match int hub_serial with
        | None => (inl (SerialNotAnInt hub_serial), c)
        | Some serial =>
            let link := DiscoverAndConnect serial in
            let request := if on then SetPortEnable port_number
                           else SetPortDisable port_number in
            match hub (hub_trace c) link with
            | HubError code =>
                (inl (CouldNotConnect hub_serial (HubError code)),
                 mkUSBController (device_map c) (active c) (hub_trace c ++ [link]))
            | NO_ERROR =>
                match hub (hub_trace c ++ [link]) request with
                | NO_ERROR =>
                    (inr tt,
                     mkUSBController (device_map c) (<[device_hash := on]> (active c))
                       (hub_trace c ++ [link; request; StemDisconnect]))
                | HubError code =>
                    (inl (CouldNotSwitch port_number (HubError code)),
                     mkUSBController (device_map c) (active c)
                       (hub_trace c ++ [link; request; StemDisconnect]))
                end
            end
        end
    end.
Proof.
  unfold switch.
  destruct (device_map c !! device_hash) as [[port_number hub_serial]|]; [|done].
  destruct (int hub_serial) as [serial|]; [|done].
  unfold hub_request at 1. cbn zeta.
  destruct (hub (hub_trace c) (DiscoverAndConnect serial)); [|done].
  unfold hub_request. cbn [fst snd hub_trace device_map active].
  destruct (hub _ (if on then _ else _));
    cbn [fst snd set_active hub_trace device_map active]; by rewrite <- !app_assoc.
Qed.

(** X24.  [connect] and [disconnect] change the flag of the device they
    are called for, and only when they return: the device map never
    changes, the flags of the other devices never change, an error leaves
    every flag as it was, and a return leaves the flag of the device on
    after [connect] and off after [disconnect].  For a device that is not in
    the map no request is made to any hub. *)
Theorem switch_changes_one_flag_on_success int hub on device_hash c :
  let result := fst (switch int hub on device_hash c) in
  let c' := snd (switch int hub on device_hash c) in
  device_map c' = device_map c
  /\ (forall other, other <> device_hash -> active c' !! other = active c !! other)
  /\ (forall e, result = inl e -> active c' = active c)
  /\ (result = inr tt -> active c' !! device_hash = Some on)
  /\ (device_map c !! device_hash = None ->
      result = inl (NotConnected device_hash) /\ hub_trace c' = hub_trace c).
Proof.
  cbn zeta. rewrite switch_run.
  destruct (device_map c !! device_hash) as [[port_number hub_serial]|] eqn:Hdev;
    [|by repeat split].
  destruct (int hub_serial) as [serial|]; [|by repeat split].
  cbn zeta. destruct (hub (hub_trace c) (DiscoverAndConnect serial)); [|by repeat split].
  destruct (hub _ (if on then _ else _)); cbn [fst snd device_map active].
  - split; [done|]. split; [by intros; rewrite lookup_insert_ne|].
    split; [done|]. split; [by intros; rewrite lookup_insert_eq|done].
  - by repeat split.
Qed.

Lemma switch_changes_one_flag_on_success_witness :
  active (snd (disconnect int_42 good_hub "0A1B" lab)) !! "0A1B" = Some false
  /\ active (snd (disconnect int_42 good_hub "0A1B" lab)) !! "2C3D" = Some true
  /\ active (snd (disconnect int_42 stuck_hub "0A1B" lab)) = active lab
  /\ snd (connect int_42 good_hub "FFFF" lab) = lab.
Proof.
  pose proof (switch_changes_one_flag_on_success int_42 good_hub false "0A1B" lab)
    as (_ & Hother & _ & Hon & _).
  pose proof (switch_changes_one_flag_on_success int_42 stuck_hub false "0A1B" lab)
    as (_ & _ & Herr & _ & _).
  pose proof (switch_changes_one_flag_on_success int_42 good_hub true "FFFF" lab)
    as (_ & _ & _ & _ & Hnone).
  unfold connect, disconnect.
  split; [apply Hon; reflexivity|].
  split; [rewrite (Hother "2C3D" ltac:(done)); reflexivity|].
  split; [apply (Herr (CouldNotSwitch 3 (HubError 11))); reflexivity|].
  destruct (Hnone eq_refl) as [_ Htrace]. reflexivity.
Defined.

(** X25.  A link to a hub that was opened is closed again: whenever
    [discoverAndConnect] has answered [NO_ERROR], the last request of the
    call is [stem.disconnect()], whether the port could be switched or
    not; and when it has answered an error, it was the only request. *)
Theorem switch_closes_the_link int hub on device_hash c :
  exists new,
    hub_trace (snd (switch int hub on device_hash c)) = hub_trace c ++ new
    /\ (length new <= 3)%nat
    /\ match new with
       | [] => True
       | first :: rest =>
           exists serial,
             first = DiscoverAndConnect serial
             /\ match hub (hub_trace c) first with
                | NO_ERROR =>
                    exists port,
                      rest = [if on then SetPortEnable port else SetPortDisable port;
                              StemDisconnect]
                | HubError _ => rest = []
                end
       end.
Proof.
  rewrite switch_run.
  destruct (device_map c !! device_hash) as [[port_number hub_serial]|] eqn:Hdev;
    [|exists []; rewrite app_nil_r; split; [done|split; [cbn; lia|done]]].
  destruct (int hub_serial) as [serial|];
    [|exists []; rewrite app_nil_r; split; [done|split; [cbn; lia|done]]].
  cbn zeta. destruct (hub (hub_trace c) (DiscoverAndConnect serial)) eqn:Hlink.
  - exists [DiscoverAndConnect serial;
            if on then SetPortEnable port_number else SetPortDisable port_number;
            StemDisconnect].
    split; [by destruct (hub _ (if on then _ else _))|].
    split; [cbn; lia|]. exists serial. split; [done|]. rewrite Hlink.
    by exists port_number.
  - exists [DiscoverAndConnect serial]. split; [done|]. split; [cbn; lia|].
    exists serial. split; [done|]. by rewrite Hlink.
Qed.

(** X26.  A [disconnect] that returns followed by a [connect] that returns
    leaves a device that was on as it found it: the flags are what they
    were, and so is the device map. *)
Theorem disconnect_then_connect_restores int hub device_hash c c1 c2 :
  active c !! device_hash = Some true ->
  disconnect int hub device_hash c = (inr tt, c1) ->
  connect int hub device_hash c1 = (inr tt, c2) ->
  active c2 = active c /\ device_map c2 = device_map c
  /\ active c1 = <[device_hash := false]> (active c).
Proof.
  intros Hon H1 H2.
  assert (Hswitch : forall on c c',
            switch int hub on device_hash c = (inr tt, c') ->
            active c' = <[device_hash := on]> (active c)
            /\ device_map c' = device_map c).
  { clear. intros on c c' H. rewrite switch_run in H.
    destruct (device_map c !! device_hash) as [[port_number hub_serial]|]; [|done].
    destruct (int hub_serial) as [serial|]; [|done]. cbn zeta in H.
    destruct (hub (hub_trace c) (DiscoverAndConnect serial)); [|done].
    destruct (hub _ (if on then _ else _)); [|done].
    by injection H as <-. }
  destruct (Hswitch false c c1 H1) as [Ha1 Hd1].
  destruct (Hswitch true c1 c2 H2) as [Ha2 Hd2].
  split; [|split; [congruence|exact Ha1]].
  rewrite Ha2, Ha1, insert_insert_eq. by apply insert_id.
Qed.

Lemma disconnect_then_connect_restores_witness :
  active (snd (connect int_42 good_hub "0A1B"
                 (snd (disconnect int_42 good_hub "0A1B" lab)))) = active lab.
Proof.
  apply (disconnect_then_connect_restores int_42 good_hub "0A1B" lab
           (snd (disconnect int_42 good_hub "0A1B" lab))
           (snd (connect int_42 good_hub "0A1B"
                   (snd (disconnect int_42 good_hub "0A1B" lab)))));
    reflexivity.
Defined.

(** * Properties of the Buck build *)

Lemma py_split_starts c r :
  PyStr.isspace c = false -> py_split (String c r) <> [].
Proof.
  intros Hc. cbn [py_split]. rewrite Hc.
  destruct r as [|c' r']; [done|].
  destruct (PyStr.isspace c'); [done|]. by destruct (py_split (String c' r')).
Qed.

Lemma py_split_at_blank a blank b :
  PyStr.isspace blank = true ->
  py_split (a ++ String blank b)%string = py_split a ++ py_split b.
Proof.
  intros Hb. induction a as [|c a IH].
  - change (py_split (String blank b) = py_split b). cbn [py_split]. by rewrite Hb.
  - rewrite append_cons.
    destruct (PyStr.isspace c) eqn:Hc.
    + cbn [py_split]. by rewrite Hc.
    + destruct a as [|c' a'].
      * change (py_split (String c (String blank b))
                = py_split (String c EmptyString) ++ py_split b).
        cbn [py_split]. rewrite Hc, Hb. done.
      * rewrite append_cons in *.
        change (py_split (String c (String c' (a' ++ String blank b)%string)))
          with (if PyStr.isspace c then py_split (String c' (a' ++ String blank b)%string)
                else if PyStr.isspace c'
                     then String c EmptyString
                          :: py_split (String c' (a' ++ String blank b)%string)
                     else match py_split (String c' (a' ++ String blank b)%string) with
                          | word :: words => String c word :: words
                          | [] => [String c EmptyString]
                          end).
        change (py_split (String c (String c' a')))
          with (if PyStr.isspace c then py_split (String c' a')
                else if PyStr.isspace c'
                     then String c EmptyString :: py_split (String c' a')
                     else match py_split (String c' a') with
                          | word :: words => String c word :: words
                          | [] => [String c EmptyString]
                          end).
        rewrite Hc, IH.
        destruct (PyStr.isspace c') eqn:Hc'; [done|].
        pose proof (py_split_starts c' a' Hc') as Hne.
        by destruct (py_split (String c' a')).
Qed.

(** X27.  The command [buildUsingBuck] runs is made of the words of the
    target, the word [--out] and the words of the destination, where words
    are what stands between blanks: a destination with a blank in it is
    passed as several arguments, and an empty one leaves [--out] as the last
    word. *)
Theorem buck_command_words buck_target dst :
  buck_command buck_target dst = py_split buck_target ++ "--out" :: py_split dst.
Proof.
  unfold buck_command, final_command.
  change (buck_target ++ " --out " ++ dst)%string
    with (buck_target ++ String " " ("--out" ++ String " " dst))%string.
  rewrite py_split_at_blank by done.
  by rewrite (py_split_at_blank "--out" " " dst).
Qed.

Lemma returns_only_ret {A} (P : A -> Prop) a : P a -> returns_only P (ret a).
Proof. intros H w a' w' [= <- <-]. exact H. Qed.

Lemma returns_only_raise {A} (P : A -> Prop) e : returns_only P (@raise A e).
Proof. by intros w a w' H. Qed.

Lemma returns_only_bind {A B} (Q : A -> Prop) (P : B -> Prop) (m : M A) (k : A -> M B) :
  returns_only Q m -> (forall a, Q a -> returns_only P (k a)) ->
  returns_only P (bind m k).
Proof.
  intros Hm Hk w b w' H. unfold bind in H.
  destruct (m w) as [[e|a] w1] eqn:E; [done|].
  exact (Hk a (Hm _ _ _ E) _ _ _ H).
Qed.

Lemma returns_only_any {A} (m : M A) : returns_only (fun _ => True) m.
Proof. by intros w a w' _. Qed.

Lemma returns_only_then {A B} (P : B -> Prop) (m : M A) (k : M B) :
  returns_only P k -> returns_only P (bind m (fun _ => k)).
Proof.
  intros Hk. apply (returns_only_bind (fun _ => True)); [apply returns_only_any|done].
Qed.

Lemma returns_only_try_except {A} (P : A -> Prop) (m : M A) h :
  returns_only P m -> (forall e, returns_only P (h e)) ->
  returns_only P (try_except m h).
Proof.
  intros Hm Hh w a w' H. unfold try_except in H.
  destruct (m w) as [[e|a'] w1] eqn:E.
  - exact (Hh e _ _ _ H).
  - injection H as <- <-. exact (Hm _ _ _ E).
Qed.

Lemma is_lines_intro lines err : is_lines (Lines lines, err).
Proof. by exists lines, err. Qed.

Lemma processWait_is_lines t cfg sc : returns_only is_lines (processWait t cfg sc).
Proof.
  apply returns_only_try_except.
  - unfold processWait_try.
    apply (returns_only_bind (fun _ => True)); [apply returns_only_any|].
    intros [output matched] _. apply returns_only_then.
    apply (returns_only_bind (fun _ => True)); [apply returns_only_any|].
    intros status _. apply returns_only_then.
    apply (returns_only_bind (fun _ => True)); [apply returns_only_any|].
    intros status' _.
    apply (returns_only_bind (fun _ => True)); [apply returns_only_any|].
    intros output' _. unfold conclude.
    destruct ((status' =? 0) || kw_ignore_status cfg);
      apply returns_only_then, returns_only_ret, is_lines_intro.
  - intros [err|cls]; apply returns_only_then, returns_only_ret, is_lines_intro.
Qed.

Lemma processRun1_is_lines cmd cfg sc :
  kw_async cfg = false -> returns_only is_lines (_processRun cmd cfg sc).
Proof.
  intros Hasync. unfold _processRun. apply returns_only_then.
  apply returns_only_try_except.
  - unfold _processRun_try. rewrite Hasync.
    destruct (kw_non_blocking cfg).
    + apply returns_only_then, returns_only_ret, is_lines_intro.
    + apply returns_only_then.
      apply (returns_only_bind (fun _ => True)); [apply returns_only_any|].
      intros t _. apply processWait_is_lines.
  - intros e. unfold _processRun_except.
    apply (returns_only_bind (fun _ => True)); [apply returns_only_any|].
    intros err _.
    apply (returns_only_bind (fun _ => True)); [apply returns_only_any|].
    intros key _. apply returns_only_then, returns_only_ret, is_lines_intro.
Qed.

Lemma retry_loop_is_lines cmd cfg scripts n :
  kw_async cfg = false ->
  forall i last, opt_lines last ->
    returns_only opt_lines (retry_loop cmd cfg scripts n i last).
Proof.
  intros Hasync. induction n as [|n IH]; intros i last Hlast.
  - by apply returns_only_ret.
  - cbn [retry_loop]. apply returns_only_then, returns_only_then.
    apply (returns_only_bind is_lines); [by apply processRun1_is_lines|].
    intros r Hr.
    assert (Hsome : opt_lines (Some r)) by (by intros r' [= <-]).
    apply (returns_only_bind (fun _ => True)); [apply returns_only_any|].
    intros status _.
    apply (returns_only_bind (fun _ => True)); [apply returns_only_any|].
    intros timedout _. apply returns_only_then.
    destruct (status =? 0); [by apply returns_only_then, returns_only_ret|].
    destruct timedout; [by apply returns_only_then, returns_only_ret|].
    apply returns_only_then. by apply IH.
Qed.

(** A call with no keyword argument makes one to three attempts and returns
    a pair whose first component is a list of lines. *)
Lemma processRun_default_run cmd scripts w :
  exists lines err w',
    processRun cmd default_config scripts w = (inr (Lines lines, err), w')
    /\ (1 <= attempts w w' <= 3)%nat.
Proof.
  unfold processRun, attempts.
  assert (Hsleep : sleep_ok (with_process_key default_config)).
  { unfold sleep_ok. cbn. lia. }
  destruct (retry_loop_spec cmd (with_process_key default_config) scripts
              (Z.to_nat (default 3 (kw_retry (with_process_key default_config))))
              (keyed_with_process_key default_config) Hsleep 0%nat None w)
    as (new & w' & E & Hh & Hlen & Hretried & Hfinal).
  pose proof (retry_loop_is_lines cmd (with_process_key default_config) scripts
                (Z.to_nat (default 3 (kw_retry (with_process_key default_config))))
                eq_refl 0%nat None ltac:(by intros r) _ _ _ E) as Hlines.
  rewrite (bind_run _ _ _ _ _ E).
  change (Z.to_nat (default 3 (kw_retry (with_process_key default_config))))
    with 3%nat in *.
  destruct new as [|a new].
  - exfalso. destruct (Hfinal ltac:(cbn; lia)) as (a & Ha & _). done.
  - destruct (last_ret_nonempty None (a :: new) ltac:(done)) as (b & Hb & Hret).
    rewrite Hret in *. destruct (Hlines _ eq_refl) as (lines & err & Hr).
    exists lines, err, w'. split; [by rewrite <- Hr|].
    rewrite Hh, length_app. cbn [length] in *. lia.
Qed.

(** X28.  When the set-up of the destination does not raise,
    [buildUsingBuck] makes between one and three attempts to run the
    command and then gives its verdict by looking at the files only: the
    build is good exactly when the destination is a file after the attempts
    (or a directory, for a platform whose name starts with [ios]), whatever
    the command printed and however it exited.  A good build has its
    destination set to mode 0o500 and returns [True] unless that raises; a
    bad one logs the failure and returns [False]. *)
Theorem buildUsingBuck_verdict_is_the_file {FS} (os : OS FS) scripts effect
    dst platform buck_target s fs1 :
  _setUpTempDirectory os dst (bs_files s) = inr fs1 ->
  exists lines err w',
    processRun (buck_command buck_target dst) default_config scripts (bs_world s)
    = (inr (Lines lines, err), w')
    /\ (1 <= attempts (bs_world s) w' <= 3)%nat
    /\ let fs2 := after_attempts effect (attempts (bs_world s) w') fs1 in
       let log := bs_log s ++ [LogResult (PyStr.join PyStr.newline lines)] in
       buildUsingBuck os scripts effect dst platform buck_target s
       = if os_path_isfile os dst fs2
            || (os_path_isdir os dst fs2 && String.prefix "ios" platform)
         then match os_chmod os dst 320 fs2 with
              | inl e => (inl e, mkBuildState w' fs2 log)
              | inr fs3 => (inr true, mkBuildState w' fs3 log)
              end
         else (inr false,
               mkBuildState w' fs2
                 (log ++ [LogBuildFailed (final_command buck_target dst)])).
Proof.
  intros Hsetup.
  destruct (processRun_default_run (buck_command buck_target dst) scripts (bs_world s))
    as (lines & err & w' & Hrun & Hn).
  exists lines, err, w'.
  split; [exact Hrun|]. split; [exact Hn|].
  cbn zeta. unfold buildUsingBuck. rewrite Hsetup, Hrun.
  unfold _isBuildSuccessful.
  destruct (os_path_isfile os dst _); cbn [negb andb orb]; [done|].
  by destruct (os_path_isdir os dst _ && String.prefix "ios" platform).
Qed.

(** A command that fails at each attempt, while the child of the first
    attempt leaves the destination behind. *)
Lemma buildUsingBuck_verdict_is_the_file_witness :
  let s := mkBuildState init_world ([] : list string) [] in
  let cmd := buck_command "buck build //:bench" "out/bench" in
  exists lines err w',
    processRun cmd default_config (fun _ => sc_fails) (bs_world s)
    = (inr (Lines lines, err), w')
    /\ (1 <= attempts (bs_world s) w' <= 3)%nat
    /\ let fs2 := after_attempts writes_at_first (attempts (bs_world s) w') [] in
       let log := bs_log s ++ [LogResult (PyStr.join PyStr.newline lines)] in
       buildUsingBuck toy_os (fun _ => sc_fails) writes_at_first
         "out/bench" "android" "buck build //:bench" s
       = if os_path_isfile toy_os "out/bench" fs2
            || (os_path_isdir toy_os "out/bench" fs2 && String.prefix "ios" "android")
         then match os_chmod toy_os "out/bench" 320 fs2 with
              | inl e => (inl e, mkBuildState w' fs2 log)
              | inr fs3 => (inr true, mkBuildState w' fs3 log)
              end
         else (inr false,
               mkBuildState w' fs2
                 (log ++ [LogBuildFailed (final_command "buck build //:bench" "out/bench")])).
Proof.
  exact (buildUsingBuck_verdict_is_the_file toy_os (fun _ => sc_fails)
           writes_at_first "out/bench" "android" "buck build //:bench"
           (mkBuildState init_world ([] : list string) []) [] eq_refl).
Defined.

(** That build is reported good after three failed attempts, with a
    failure status in the registry. *)
Example buildUsingBuck_good_after_failures :
  let ran := buildUsingBuck toy_os (fun _ => sc_fails) writes_at_first
               "out/bench" "android" "buck build //:bench"
               (mkBuildState init_world ([] : list string) []) in
  fst ran = inr true
  /\ attempts init_world (bs_world (snd ran)) = 3%nat
  /\ getRunStatus default_key (registry (bs_world (snd ran))) = 1.
Proof. by vm_compute. Qed.

(** * Properties of the latency collection *)

Lemma values_at_addOrAppendResult {V} (results : gmap string (ResultRecord V))
    key value record key' :
  r_values record = [] ->
  values_at key' (_addOrAppendResult results key value record)
  = values_at key' results ++ (if String.eqb key key' then [value] else []).
Proof.
  intros Hnew. unfold _addOrAppendResult, values_at.
  destruct (String.eqb_spec key key') as [<-|Hne].
  - destruct (results !! key) as [r|] eqn:E.
    + rewrite E. by rewrite lookup_insert_eq.
    + rewrite lookup_insert_eq, lookup_insert_eq. cbn. by rewrite Hnew.
  - destruct (results !! key) as [r|] eqn:E.
    + rewrite E. rewrite lookup_insert_ne by done. by rewrite app_nil_r.
    + rewrite lookup_insert_eq, !lookup_insert_ne by done. by rewrite app_nil_r.
Qed.

Lemma record_addOrAppendResult {V} (results : gmap string (ResultRecord V))
    key value record key' r :
  results !! key' = Some r ->
  exists r',
    _addOrAppendResult results key value record !! key' = Some r'
    /\ r_type r' = r_type r /\ r_metric r' = r_metric r /\ r_unit r' = r_unit r.
Proof.
  intros Hr. unfold _addOrAppendResult.
  destruct (String.eqb_spec key key') as [<-|Hne].
  - rewrite Hr, Hr. rewrite lookup_insert_eq. by eexists.
  - destruct (results !! key) as [r0|] eqn:E.
    + rewrite E. rewrite lookup_insert_ne by done. by exists r.
    + rewrite lookup_insert_eq, !lookup_insert_ne by done. by exists r.
Qed.

Lemma maybeAddNetRunnerStats_loop_values {V} (of_int : Z -> V) rows :
  forall results,
    short_numbers rows ->
    exists results',
      _maybeAddNetRunnerStats_loop of_int rows results = inr results'
      /\ (forall key, values_at key results'
                      = values_at key results ++ (of_int <$> latencies_for key rows))
      /\ (forall key r, results !! key = Some r ->
            exists r', results' !! key = Some r'
                       /\ r_type r' = r_type r /\ r_metric r' = r_metric r
                       /\ r_unit r' = r_unit r).
Proof.
  induction rows as [|row rows IH]; intros results Hshort.
  - exists results. split; [done|]. split.
    + intros key. by rewrite app_nil_r.
    + intros key r Hr. by exists r.
  - apply Forall_cons in Hshort as [Hrow Hshort].
    cbn [_maybeAddNetRunnerStats_loop]. unfold latencies_for. cbn [omap list_omap].
    fold (latencies_for).
    destruct (latency_pattern row) as [[name digits]|] eqn:Hpat.
    + unfold int_of_digits.
      assert (Hlen : (4300 <? Z.of_nat (String.length digits)) = false) by lia.
      rewrite Hlen.
      destruct (IH (_addOrAppendResult results (latency_key name)
                      (of_int (digits_value 0 digits)) (latency_record name)) Hshort)
        as (results' & Hrun & Hvalues & Hrecords).
      exists results'. split; [exact Hrun|]. split.
      * intros key. rewrite Hvalues, values_at_addOrAppendResult by done.
        rewrite <- app_assoc. f_equal.
        change (omap ?f rows) with (latencies_for key rows).
        by destruct (String.eqb (latency_key name) key).
      * intros key r Hr.
        destruct (record_addOrAppendResult results (latency_key name)
                    (of_int (digits_value 0 digits)) (latency_record name) key r Hr)
          as (r1 & Hr1 & Ht & Hm & Hu).
        destruct (Hrecords key r1 Hr1) as (r' & Hr' & Ht' & Hm' & Hu').
        exists r'. split; [exact Hr'|]. split; [congruence|]. split; congruence.
    + destruct (IH results Hshort) as (results' & Hrun & Hvalues & Hrecords).
      exists results'. split; [exact Hrun|]. split; [|exact Hrecords].
      intros key. by rewrite Hvalues.
Qed.

(** X30.  [_maybeAddNetRunnerStats] appends, for every key, the latencies
    of the rows that its pattern reads for that key, in the order of the
    rows, after the values the key had; it leaves the type, the metric and
    the unit of the records that were there as they were, and the rows it
    does not read change nothing.  It returns [None] (and [False], with
    nothing changed, when there is no output); a string is read line by
    line. *)
Theorem maybeAddNetRunnerStats_appends_in_order {V} (of_int : Z -> V) output results :
  (rows_of output = None ->
   _maybeAddNetRunnerStats of_int output results = inr (VBool false, results))
  /\ (forall rows,
        rows_of output = Some rows ->
        short_numbers rows ->
        exists results',
          _maybeAddNetRunnerStats of_int output results = inr (VNone, results')
          /\ (forall key, values_at key results'
                          = values_at key results ++ (of_int <$> latencies_for key rows))
          /\ (forall key r, results !! key = Some r ->
                exists r', results' !! key = Some r'
                           /\ r_type r' = r_type r /\ r_metric r' = r_metric r
                           /\ r_unit r' = r_unit r)).
Proof.
  unfold _maybeAddNetRunnerStats. split.
  - by intros ->.
  - intros rows -> Hshort.
    destruct (maybeAddNetRunnerStats_loop_values of_int rows results Hshort)
      as (results' & Hrun & Hvalues & Hrecords).
    exists results'. rewrite Hrun. by repeat split.
Qed.

(** Of six rows, three are read: two for [glow], with leading zeros read
    as decimal, and one for [onnx]. *)
Lemma maybeAddNetRunnerStats_appends_in_order_witness :
  _maybeAddNetRunnerStats id NoOutput (∅ : gmap string (ResultRecord Z))
  = inr (VBool false, ∅)
  /\ exists results',
       _maybeAddNetRunnerStats id (OutputRows runner_rows) ∅ = inr (VNone, results')
       /\ values_at "NET glow net_runner inference" results' = [1200; 99]
       /\ values_at "SECONDARY onnx net_runner inference" results' = [3400].
Proof.
  split.
  - apply (proj1 (maybeAddNetRunnerStats_appends_in_order id NoOutput ∅)). reflexivity.
  - destruct (proj2 (maybeAddNetRunnerStats_appends_in_order id (OutputRows runner_rows) ∅)
                runner_rows eq_refl)
      as (results' & Hrun & Hvalues & _).
    + unfold short_numbers, runner_rows.
      repeat (apply Forall_cons; split; [by vm_compute|]). by apply Forall_nil.
    + exists results'. split; [exact Hrun|]. rewrite !Hvalues.
      split; by vm_compute.
Defined.
